(** * DevStack backup engine: manifest, encryption and integrity verification

    A shallow embedding of [scripts/devstack/backup.py], of
    [calculate_file_checksum] and [run_command] of
    [scripts/devstack/utils.py], of the secret retrieval of
    [scripts/devstack/vault.py] and of the [backup], [restore] and [verify]
    commands of [scripts/manage_devstack.py], with the properties of the
    backup specification stated over it.

    Python values read from [manifest.json] are kept as dynamically typed
    values ([pyval]); dictionaries are association lists in insertion
    order; exceptions are explicit ([outcome]); the file system is a finite
    map from path strings to nodes; every [subprocess.run] is appended to a
    log of spawned commands.  A string is a sequence of code points below
    256, one per character; file contents are bytes. *)

From Stdlib Require Import ZArith QArith List String Ascii Bool Lia Sorted Permutation.
From Stdlib Require Import Init.Byte.
From stdpp Require Import base option list strings gmap fin_maps.

Import ListNotations.
Set Warnings "-register-all".
Open Scope Z_scope.
Open Scope string_scope.

(** ** SHA-256 ([hashlib.sha256])

    The digest function of the Python standard library, FIPS 180-4, on
    32-bit words kept as [Z] with the wrap-around written out. *)

Module Sha256.

Definition mask32 : Z := 0xFFFFFFFF.

Definition add32 (a b : Z) : Z := Z.land (a + b) mask32.

Definition rotr (n x : Z) : Z :=
  Z.lor (Z.shiftr x n) (Z.land (Z.shiftl x (32 - n)) mask32).

Definition Ch (x y z : Z) : Z :=
  Z.lxor (Z.land x y) (Z.land (Z.lxor x mask32) z).

Definition Maj (x y z : Z) : Z :=
  Z.lxor (Z.lxor (Z.land x y) (Z.land x z)) (Z.land y z).

Definition bsig0 (x : Z) : Z := Z.lxor (Z.lxor (rotr 2 x) (rotr 13 x)) (rotr 22 x).
Definition bsig1 (x : Z) : Z := Z.lxor (Z.lxor (rotr 6 x) (rotr 11 x)) (rotr 25 x).
Definition ssig0 (x : Z) : Z := Z.lxor (Z.lxor (rotr 7 x) (rotr 18 x)) (Z.shiftr x 3).
Definition ssig1 (x : Z) : Z := Z.lxor (Z.lxor (rotr 17 x) (rotr 19 x)) (Z.shiftr x 10).

(** The round constants and the initial hash value are fractional parts of
    roots of the first primes: the first 32 bits of the fractional part of
    the cube root of each of the first 64 primes, and of the square root of
    each of the first 8. *)
Definition primes : list Z :=
  [ 2; 3; 5; 7; 11; 13; 17; 19; 23; 29; 31; 37; 41; 43; 47; 53; 59; 61; 67; 71;
    73; 79; 83; 89; 97; 101; 103; 107; 109; 113; 127; 131; 137; 139; 149; 151;
    157; 163; 167; 173; 179; 181; 191; 193; 197; 199; 211; 223; 227; 229; 233;
    239; 241; 251; 257; 263; 269; 271; 277; 281; 283; 293; 307; 311 ].

(** The integer cube root of [n], one bit at a time from bit [bits - 1]. *)
Fixpoint cube_root_bits (bits : nat) (n root : Z) : Z :=
  match bits with
  | O => root
  | S bits' =>
      let candidate := root + Z.shiftl 1 (Z.of_nat bits') in
      cube_root_bits bits' n
        (if Z.leb (candidate * candidate * candidate) n then candidate else root)
  end.

Definition frac_cube_root (p : Z) : Z :=
  Z.land (cube_root_bits 36 (Z.shiftl p 96) 0) mask32.

Definition frac_square_root (p : Z) : Z :=
  Z.land (Z.sqrt (Z.shiftl p 64)) mask32.

Definition K : list Z := map frac_cube_root primes.

(** The eight working variables a..h. *)
Record regs := Regs { ra : Z; rb : Z; rc : Z; rd : Z; re : Z; rf : Z; rg : Z; rh : Z }.

Definition H0 : regs :=
  match map frac_square_root (firstn 8 primes) with
  | [a; b; c; d; e; f; g; h] => Regs a b c d e f g h
  | _ => Regs 0 0 0 0 0 0 0 0
  end.

Definition byteZ (b : byte) : Z := Z.of_N (Byte.to_N b).

(** Padding: a 1 bit, zeros up to 56 mod 64 bytes, the bit length on 64 bits. *)
Definition be_bytes (n : nat) (x : Z) : list Z :=
  map (fun i => Z.land (Z.shiftr x (8 * Z.of_nat i)) 0xFF) (rev (seq 0 n)).

Definition pad (msg : list byte) : list Z :=
  let len := Z.of_nat (length msg) in
  let zeros := Z.to_nat ((55 - len) mod 64) in
  map byteZ msg ++ [0x80] ++ repeat 0 zeros ++ be_bytes 8 (8 * len).

Definition word_of (b0 b1 b2 b3 : Z) : Z :=
  Z.lor (Z.lor (Z.shiftl b0 24) (Z.shiftl b1 16)) (Z.lor (Z.shiftl b2 8) b3).

Fixpoint words (bs : list Z) : list Z :=
  match bs with
  | b0 :: b1 :: b2 :: b3 :: rest => word_of b0 b1 b2 b3 :: words rest
  | _ => []
  end.

(** Message schedule, newest word first. *)
Fixpoint extend (n : nat) (wrev : list Z) : list Z :=
  match n with
  | O => wrev
  | S n' =>
      let w2 := nth 1 wrev 0 in
      let w7 := nth 6 wrev 0 in
      let w15 := nth 14 wrev 0 in
      let w16 := nth 15 wrev 0 in
      extend n' (add32 (add32 (ssig1 w2) w7) (add32 (ssig0 w15) w16) :: wrev)
  end.

Definition schedule (block : list Z) : list Z := rev (extend 48 (rev block)).

Definition round (s : regs) (kw : Z * Z) : regs :=
  let '(k, w) := kw in
  let t1 := add32 (add32 (add32 (rh s) (bsig1 (re s))) (add32 (Ch (re s) (rf s) (rg s)) k)) w in
  let t2 := add32 (bsig0 (ra s)) (Maj (ra s) (rb s) (rc s)) in
  Regs (add32 t1 t2) (ra s) (rb s) (rc s) (add32 (rd s) t1) (re s) (rf s) (rg s).

Definition compress (h : regs) (block : list Z) : regs :=
  let s := fold_left round (combine K (schedule block)) h in
  Regs (add32 (ra h) (ra s)) (add32 (rb h) (rb s)) (add32 (rc h) (rc s))
       (add32 (rd h) (rd s)) (add32 (re h) (re s)) (add32 (rf h) (rf s))
       (add32 (rg h) (rg s)) (add32 (rh h) (rh s)).

Fixpoint blocks (n : nat) (ws : list Z) : list (list Z) :=
  match n with
  | O => []
  | S n' => firstn 16 ws :: blocks n' (skipn 16 ws)
  end.

Definition hash (msg : list byte) : regs :=
  let ws := words (pad msg) in
  fold_left compress (blocks (length ws / 16) ws) H0.

(** The digest as its eight words, most significant first. *)
Definition digest_words (msg : list byte) : list Z :=
  let h := hash msg in [ra h; rb h; rc h; rd h; re h; rf h; rg h; rh h].

End Sha256.

(** ** Lowercase hexadecimal ([hexdigest]) *)

Definition hex_digit (n : Z) : ascii :=
  match Z.land n 15 with
  | 0 => "0" | 1 => "1" | 2 => "2" | 3 => "3" | 4 => "4" | 5 => "5"
  | 6 => "6" | 7 => "7" | 8 => "8" | 9 => "9" | 10 => "a" | 11 => "b"
  | 12 => "c" | 13 => "d" | 14 => "e" | _ => "f"
  end%char.

(** The eight hex digits of a 32-bit word, most significant first. *)
Definition hex_word (w : Z) (rest : string) : string :=
  String (hex_digit (Z.shiftr w 28)) (String (hex_digit (Z.shiftr w 24))
  (String (hex_digit (Z.shiftr w 20)) (String (hex_digit (Z.shiftr w 16))
  (String (hex_digit (Z.shiftr w 12)) (String (hex_digit (Z.shiftr w 8))
  (String (hex_digit (Z.shiftr w 4)) (String (hex_digit w) rest))))))).

Definition hex_words (ws : list Z) : string := fold_right hex_word EmptyString ws.

Definition sha256_hexdigest (msg : list byte) : string :=
  hex_words (Sha256.digest_words msg).

Definition bytes_of_string (s : string) : list byte := list_byte_of_string s.

(** ** Python values, exceptions, dictionaries *)

(** What [json.load] builds, which is also what [create_backup_manifest]
    assembles.  A [PDict] lists its items in insertion order. *)
Inductive pyval : Type :=
| PNone
| PBool (b : bool)
| PInt (n : Z)
| PFloat (q : Q)
| PStr (s : string)
| PList (xs : list pyval)
| PDict (items : list (string * pyval)).

Inductive exn : Type :=
| AttributeError | TypeError | KeyError | IndexError
| FileNotFoundError | PermissionError | IsADirectoryError.

Inductive outcome (A : Type) : Type :=
| Ok (a : A)
| Raise (e : exn).
Arguments Ok {A} a.
Arguments Raise {A} e.

Definition bind {A B : Type} (c : outcome A) (k : A -> outcome B) : outcome B :=
  match c with
  | Ok a => k a
  | Raise e => Raise e
  end.

Notation "x <- c ;; k" := (bind c (fun x => k))
  (at level 100, c at next level, right associativity).

(** [bool(v)], the test behind [if v:] and [not v]. *)
Definition truthy (v : pyval) : bool :=
  match v with
  | PNone => false
  | PBool b => b
  | PInt n => negb (Z.eqb n 0)
  | PFloat q => negb (Z.eqb (Qnum q) 0)
  | PStr s => negb (String.eqb s "")
  | PList xs => match xs with [] => false | _ => true end
  | PDict items => match items with [] => false | _ => true end
  end.

Definition dict : Type := list (string * pyval).

Fixpoint dict_get (d : dict) (k : string) : option pyval :=
  match d with
  | [] => None
  | (k', v) :: rest => if String.eqb k' k then Some v else dict_get rest k
  end.

Definition dict_has (d : dict) (k : string) : bool :=
  match dict_get d k with Some _ => true | None => false end.

(** [d[k] = v]: an existing key keeps its position, a new one goes last. *)
Fixpoint dict_set (d : dict) (k : string) (v : pyval) : dict :=
  match d with
  | [] => [(k, v)]
  | (k', v') :: rest =>
      if String.eqb k' k then (k', v) :: rest else (k', v') :: dict_set rest k v
  end.

(** [x.get(k)] and [x.get(k, default)]: only a dict has the method. *)
Definition py_get (x : pyval) (k : string) (default : pyval) : outcome pyval :=
  match x with
  | PDict items => Ok (match dict_get items k with Some v => v | None => default end)
  | _ => Raise AttributeError
  end.

Fixpoint is_prefix (p s : string) : bool :=
  match p, s with
  | EmptyString, _ => true
  | String a p', String b s' => Ascii.eqb a b && is_prefix p' s'
  | String _ _, EmptyString => false
  end.

Fixpoint is_substring (p s : string) : bool :=
  is_prefix p s ||
  match s with
  | EmptyString => false
  | String _ s' => is_substring p s'
  end.

Definition is_str (k : string) (v : pyval) : bool :=
  match v with PStr s => String.eqb s k | _ => false end.

(** [k in x] for a string [k]: key of a dict, element of a list,
    substring of a str; other values are not containers. *)
Definition py_in (k : string) (x : pyval) : outcome bool :=
  match x with
  | PDict items => Ok (dict_has items k)
  | PList xs => Ok (existsb (is_str k) xs)
  | PStr s => Ok (is_substring k s)
  | _ => Raise TypeError
  end.

(** [s.replace(old, "")] for a non-empty [old]: every occurrence, left to
    right, without overlap. *)
Fixpoint drop_string (n : nat) (s : string) : string :=
  match n, s with
  | O, _ => s
  | S n', String _ s' => drop_string n' s'
  | S _, EmptyString => EmptyString
  end.

Fixpoint remove_all (fuel : nat) (old s : string) : string :=
  match fuel with
  | O => s
  | S fuel' =>
      if is_prefix old s then remove_all fuel' old (drop_string (String.length old) s)
      else match s with
           | EmptyString => EmptyString
           | String c s' => String c (remove_all fuel' old s')
           end
  end.

Definition str_remove (old s : string) : string :=
  remove_all (S (String.length s)) old s.

(** [s[:n]] *)
Fixpoint str_take (n : nat) (s : string) : string :=
  match n, s with
  | S n', String c s' => String c (str_take n' s')
  | _, _ => EmptyString
  end.

(** ** Files *)

(** A path resolves to a regular file, with its bytes and whether this
    process may open it for reading, or to a directory. *)
Inductive node : Type :=
| RegularFile (readable : bool) (data : list byte)
| Directory (st_size : Z).

Definition st_size_of (n : node) : Z :=
  match n with
  | RegularFile _ data => Z.of_nat (length data)
  | Directory sz => sz
  end.

(** ** Checksum engine: [utils.calculate_file_checksum] *)

(** The blocks that successive [f.read(4096)] return, up to the empty one. *)
Fixpoint read_blocks (fuel : nat) (rest : list byte) : list (list byte) :=
  match fuel with
  | O => []
  | S fuel' =>
      match firstn 4096 rest with
      | [] => []
      | block => block :: read_blocks fuel' (skipn 4096 rest)
      end
  end.

(** A [hashlib] object is the message fed to it so far. *)
Definition sha256_new : list byte := [].
Definition sha256_update (h block : list byte) : list byte := h ++ block.

Definition open_rb (fs : gmap string node) (path : string) : outcome (list byte) :=
  match fs !! path with
  | None => Raise FileNotFoundError
  | Some (Directory _) => Raise IsADirectoryError
  | Some (RegularFile false _) => Raise PermissionError
  | Some (RegularFile true data) => Ok data
  end.

Definition calculate_file_checksum (fs : gmap string node) (path : string)
  : outcome string :=
  data <- open_rb fs path ;;
  Ok (sha256_hexdigest
        (fold_left sha256_update (read_blocks (S (length data)) data) sha256_new)).

(** ** Backup directories *)

(** What opening and decoding [manifest.json] yields. *)
Inductive manifest_file : Type :=
| NoManifest
| UnreadableManifest
| CorruptManifest
| ManifestJson (m : pyval).

(** A backup directory: its name, what [backup_dir / name] resolves to for
    the artifact names, and the state of its [manifest.json], which is kept
    apart as the result of reading it. *)
Record backup_dir : Type := BackupDir {
  dir_name : string;
  dir_files : gmap string node;
  dir_manifest : manifest_file
}.

(** The two clock-dependent fields of a manifest:
    [datetime.now().isoformat()] and
    [round(time.time() - (start_time or time.time()), 2)]. *)
Record clock : Type := Clock {
  now_isoformat : string;
  duration_rounded : Q
}.

(** ** Manifest generator: [create_backup_manifest] *)

Definition opt_str (o : option string) : pyval :=
  match o with
  | Some s => PStr s
  | None => PNone
  end.

(** [m[k1][k2] = v] *)
Definition setitem2 (m : dict) (k1 k2 : string) (v : pyval) : outcome dict :=
  match dict_get m k1 with
  | Some (PDict inner) => Ok (dict_set m k1 (PDict (dict_set inner k2 v)))
  | Some _ => Raise TypeError
  | None => Raise KeyError
  end.

(** [m[k] += n] *)
Definition iadd (m : dict) (k : string) (n : Z) : outcome dict :=
  match dict_get m k with
  | Some (PInt t) => Ok (dict_set m k (PInt (t + n)))
  | Some _ => Raise TypeError
  | None => Raise KeyError
  end.

Fixpoint for_each {A S : Type} (body : S -> A -> outcome S) (xs : list A) (s : S)
  : outcome S :=
  match xs with
  | [] => Ok s
  | x :: rest => s' <- body s x ;; for_each body rest s'
  end.

Definition db_files : list (string * string) :=
  [ ("postgres", "postgres_all.sql");
    ("mysql", "mysql_all.sql");
    ("mongodb", "mongodb_dump.archive");
    ("forgejo", "forgejo_data.tar.gz") ].

Definition initial_manifest (d : backup_dir) (backup_type : string)
    (base_backup previous_backup : option string) (clk : clock) (encrypted : bool)
  : dict :=
  [ ("backup_id", PStr (dir_name d));
    ("backup_type", PStr backup_type);
    ("timestamp", PStr (now_isoformat clk));
    ("base_backup", opt_str base_backup);
    ("previous_backup", opt_str previous_backup);
    ("encrypted", PBool encrypted);
    ("databases", PDict []);
    ("config", PDict []);
    ("total_size_bytes", PInt 0);
    ("duration_seconds", PFloat (duration_rounded clk));
    ("vault_approle_used", PBool true) ].

Definition encryption_metadata : pyval :=
  PDict [ ("algorithm", PStr "AES256");
          ("method", PStr "GPG symmetric");
          ("passphrase_hint", PStr "vault-backup-passphrase") ].

(** The body of the loop over [db_files]. *)
Definition database_entry (d : backup_dir) (backup_type : string)
    (base_backup : option string) (encrypted : bool)
    (manifest : dict) (db : string * string) : outcome dict :=
  let '(db_name, filename) := db in
  let file_path := filename in
  let encrypted_file_path := filename +:+ ".gpg" in
  let actual_file := if encrypted then encrypted_file_path else file_path in
  match dir_files d !! actual_file with
  | Some n =>
      let file_size := st_size_of n in
      sum <- calculate_file_checksum (dir_files d) actual_file ;;
      let file_entry : dict :=
        [ ("type", PStr (if String.eqb db_name "forgejo" then backup_type else "full"));
          ("file", PStr actual_file);
          ("size_bytes", PInt file_size);
          ("checksum", PStr ("sha256:" +:+ sum)) ] in
      let file_entry :=
        if encrypted then dict_set file_entry "original_file" (PStr filename)
        else file_entry in
      let file_entry :=
        if String.eqb db_name "forgejo" && String.eqb backup_type "incremental"
           && truthy (opt_str base_backup)
        then dict_set file_entry "base_backup" (opt_str base_backup)
        else file_entry in
      manifest <- setitem2 manifest "databases" db_name (PDict file_entry) ;;
      iadd manifest "total_size_bytes" file_size
  | None => Ok manifest
  end.

(** The config file part. *)
Definition config_entry (d : backup_dir) (encrypted : bool) (manifest : dict)
  : outcome dict :=
  let env_backup := ".env.backup" in
  let env_backup_encrypted := ".env.backup.gpg" in
  let actual_env := if encrypted then env_backup_encrypted else env_backup in
  match dir_files d !! actual_env with
  | Some n =>
      let file_size := st_size_of n in
      sum <- calculate_file_checksum (dir_files d) actual_env ;;
      let config_entry : dict :=
        [ ("env_file", PStr actual_env);
          ("size_bytes", PInt file_size);
          ("checksum", PStr ("sha256:" +:+ sum)) ] in
      let config_entry :=
        if encrypted then dict_set config_entry "original_file" (PStr ".env.backup")
        else config_entry in
      iadd (dict_set manifest "config" (PDict config_entry)) "total_size_bytes" file_size
  | None => Ok manifest
  end.

(** Writing [manifest.json]: reading it back yields the dictionary (the
    directory was just created by the caller and is taken to be writable). *)
Definition write_manifest (d : backup_dir) (manifest : dict) : backup_dir :=
  BackupDir (dir_name d) (dir_files d) (ManifestJson (PDict manifest)).

(** The dictionary before the loops: the literal, and the encryption
    metadata of an encrypted backup. *)
Definition starting_manifest (d : backup_dir) (backup_type : string)
    (base_backup previous_backup : option string) (clk : clock) (encrypted : bool)
  : dict :=
  let manifest := initial_manifest d backup_type base_backup previous_backup clk encrypted in
  if encrypted then dict_set manifest "encryption" encryption_metadata else manifest.

Definition create_backup_manifest (d : backup_dir) (backup_type : string)
    (base_backup previous_backup : option string) (clk : clock) (encrypted : bool)
  : outcome (dict * backup_dir) :=
  let manifest :=
    starting_manifest d backup_type base_backup previous_backup clk encrypted in
  manifest <- for_each (database_entry d backup_type base_backup encrypted) db_files manifest ;;
  manifest <- config_entry d encrypted manifest ;;
  Ok (manifest, write_manifest d manifest).

(** *** Sample directories *)

Definition plain_file (s : string) : node := RegularFile true (bytes_of_string s).

Definition three_sources : backup_dir :=
  BackupDir "20251117_080000"
    (<["postgres_all.sql" := plain_file "0123456789"]>
     (<["mysql_all.sql" := plain_file "01234567890123456789"]>
      (<[".env.backup" := plain_file "A=1;;"]> ∅)))
    NoManifest.

Definition noon : clock := Clock "2025-11-17T08:00:03" (Qmake 312 100).

(** ** Chain resolver: [find_latest_full_backup] *)

(** An entry of the backups directory, as [iterdir] lists it. *)
Inductive root_entry : Type :=
| RootFile (name : string)
| RootDir (d : backup_dir).

Definition entry_name (e : root_entry) : string :=
  match e with
  | RootFile name => name
  | RootDir d => dir_name d
  end.

(** [sorted(..., reverse=True)] on the paths of one directory: descending
    order of the names. *)
Fixpoint insert_desc (e : root_entry) (sorted : list root_entry) : list root_entry :=
  match sorted with
  | [] => [e]
  | x :: rest =>
      if String.leb (entry_name x) (entry_name e) then e :: sorted
      else x :: insert_desc e rest
  end.

Definition sorted_reverse (es : list root_entry) : list root_entry :=
  fold_right insert_desc [] es.

(** The [try] block of the first loop: [True] when it returns the name;
    every exception (unreadable file, invalid JSON, a manifest that is not
    an object) is swallowed by [except Exception: continue]. *)
Definition manifest_says_full (d : backup_dir) : bool :=
  match dir_manifest d with
  | ManifestJson (PDict items) =>
      match dict_get items "backup_type" with
      | Some v => is_str "full" v
      | None => false
      end
  | _ => false
  end.

Fixpoint manifest_scan (es : list root_entry) : option string :=
  match es with
  | [] => None
  | RootFile _ :: rest => manifest_scan rest
  | RootDir d :: rest =>
      if manifest_says_full d then Some (dir_name d) else manifest_scan rest
  end.

(** [c.isdigit()] for a code point below 256: the digits 0-9 and the
    superscripts U+00B2, U+00B3 and U+00B9. *)
Definition isdigit (c : ascii) : bool :=
  let n := nat_of_ascii c in
  ((48 <=? n) && (n <=? 57) || (n =? 178) || (n =? 179) || (n =? 185))%nat.

(** The second loop; [name[0]] of an empty name raises. *)
Fixpoint fallback_scan (es : list root_entry) : outcome (option string) :=
  match es with
  | [] => Ok None
  | RootFile _ :: rest => fallback_scan rest
  | RootDir d :: rest =>
      match dir_name d with
      | EmptyString => Raise IndexError
      | String c _ => if isdigit c then Ok (Some (dir_name d)) else fallback_scan rest
      end
  end.

(** [backups_dir] is [None] when the directory does not exist. *)
Definition find_latest_full_backup (backups_dir : option (list root_entry))
  : outcome (option string) :=
  match backups_dir with
  | None => Ok None
  | Some es =>
      match manifest_scan (sorted_reverse es) with
      | Some name => Ok (Some name)
      | None => fallback_scan (sorted_reverse es)
      end
  end.

(** ** Integrity verifier: [verify_backup_integrity] *)

Inductive status : Type :=
| StatusOk | StatusMissing | StatusChecksumMismatch | StatusError.

Record detail : Type := Detail {
  detail_file : string;
  detail_status : status;
  detail_size : Z
}.

(** The error strings, by the f-string that builds them. *)
Inductive message : Type :=
| ManifestFileNotFound
| ManifestIsCorrupted
| ErrorReadingManifest
| MissingRequiredField (field : string)
| MissingFilename (db_name : string)
| FileMissing (filename : string)
| ChecksumMismatch (filename expected16 actual16 : string)
| VerificationError (filename : string) (e : exn).

Record report : Type := Report {
  files_verified : Z;
  files_failed : Z;
  files_total : Z;
  errors : list message;
  warnings : list message;
  details : list detail
}.

Definition empty_report : report := Report 0 0 0 [] [] [].

Definition add_error (r : report) (m : message) : report :=
  Report (files_verified r) (files_failed r) (files_total r)
         (errors r ++ [m]) (warnings r) (details r).

Definition add_detail (r : report) (dt : detail) : report :=
  Report (files_verified r) (files_failed r) (files_total r)
         (errors r) (warnings r) (details r ++ [dt]).

Definition incr_failed (r : report) : report :=
  Report (files_verified r) (files_failed r + 1) (files_total r)
         (errors r) (warnings r) (details r).

Definition incr_verified (r : report) : report :=
  Report (files_verified r + 1) (files_failed r) (files_total r)
         (errors r) (warnings r) (details r).

Definition set_total (r : report) (n : Z) : report :=
  Report (files_verified r) (files_failed r) n (errors r) (warnings r) (details r).

Definition required_fields : list string :=
  ["backup_id"; "backup_type"; "encrypted"; "databases"].

(** The loop over [required_fields]: the first missing field, if any. *)
Fixpoint first_missing (fields : list string) (manifest : pyval)
  : outcome (option string) :=
  match fields with
  | [] => Ok None
  | field :: rest =>
      present <- py_in field manifest ;;
      if present then first_missing rest manifest else Ok (Some field)
  end.

(** [len(x)]; for a str the length is in bytes here, and is never used:
    [x.items()] raises right after. *)
Definition py_len (x : pyval) : outcome Z :=
  match x with
  | PDict items => Ok (Z.of_nat (length items))
  | PList xs => Ok (Z.of_nat (length xs))
  | PStr s => Ok (Z.of_nat (String.length s))
  | _ => Raise TypeError
  end.

(** [x.items()] *)
Definition py_items (x : pyval) : outcome (list (string * pyval)) :=
  match x with
  | PDict items => Ok items
  | _ => Raise AttributeError
  end.

(** [backup_dir / filename]: the operand must be a str. *)
Definition path_operand (filename : pyval) : outcome string :=
  match filename with
  | PStr s => Ok s
  | _ => Raise TypeError
  end.

(** [x.replace("sha256:", "")]: only a str has the method. *)
Definition strip_sha256 (x : pyval) : outcome string :=
  match x with
  | PStr s => Ok (str_remove "sha256:" s)
  | _ => Raise AttributeError
  end.

(** From [if not file_path.exists()] to the end of the [try] statement;
    the source has this text twice, for a database file and for the config
    file. *)
Definition check_stored_file (d : backup_dir) (r : report)
    (filename expected_checksum : string) : report :=
  match dir_files d !! filename with
  | None =>
      add_detail (incr_failed (add_error r (FileMissing filename)))
                 (Detail filename StatusMissing 0)
  | Some n =>
      match calculate_file_checksum (dir_files d) filename with
      | Ok actual_checksum =>
          let file_size := st_size_of n in
          if String.eqb actual_checksum expected_checksum then
            add_detail (incr_verified r) (Detail filename StatusOk file_size)
          else
            add_detail
              (add_error (incr_failed r)
                 (ChecksumMismatch filename (str_take 16 expected_checksum)
                                   (str_take 16 actual_checksum)))
              (Detail filename StatusChecksumMismatch file_size)
      | Raise e =>
          add_detail (add_error (incr_failed r) (VerificationError filename e))
                     (Detail filename StatusError 0)
      end
  end.

(** The body of the loop over [manifest["databases"].items()]. *)
Definition verify_database (d : backup_dir) (r : report) (item : string * pyval)
  : outcome report :=
  let '(db_name, db_info) := item in
  filename <- py_get db_info "file" PNone ;;
  if negb (truthy filename) then
    Ok (incr_failed (add_error r (MissingFilename db_name)))
  else
    file_path <- path_operand filename ;;
    checksum <- py_get db_info "checksum" (PStr "") ;;
    expected_checksum <- strip_sha256 checksum ;;
    Ok (check_stored_file d r file_path expected_checksum).

(** The config part; [config_info] is [manifest["config"]], already known
    to be truthy. *)
Definition verify_config (d : backup_dir) (r : report) (config_info : pyval)
  : outcome report :=
  filename <- py_get config_info "env_file" PNone ;;
  if truthy filename then
    file_path <- path_operand filename ;;
    checksum <- py_get config_info "checksum" (PStr "") ;;
    expected_checksum <- strip_sha256 checksum ;;
    Ok (check_stored_file d r file_path expected_checksum)
  else Ok r.

(** [manifest["config"]] when ["config" in manifest and manifest["config"]]. *)
Definition truthy_config (manifest : pyval) : option pyval :=
  match manifest with
  | PDict items =>
      match dict_get items "config" with
      | Some c => if truthy c then Some c else None
      | None => None
      end
  | _ => None
  end.

Definition success_of (r : report) : bool :=
  Z.eqb (files_failed r) 0 && Z.eqb (files_verified r) (files_total r).

(** From [# Count total files] to the end. *)
Definition verify_files (d : backup_dir) (manifest : pyval) (r : report)
  : outcome (bool * report) :=
  databases <- py_get manifest "databases" (PDict []) ;;
  n <- py_len databases ;;
  let r := set_total r n in
  let r := match truthy_config manifest with
           | Some _ => set_total r (files_total r + 1)
           | None => r
           end in
  items <- py_items databases ;;
  r <- for_each (verify_database d) items r ;;
  r <- match truthy_config manifest with
       | Some config_info => verify_config d r config_info
       | None => Ok r
       end ;;
  Ok (success_of r, r).

Definition verify_backup_integrity (d : backup_dir) : outcome (bool * report) :=
  let r := empty_report in
  match dir_manifest d with
  | NoManifest => Ok (false, add_error r ManifestFileNotFound)
  | CorruptManifest => Ok (false, add_error r ManifestIsCorrupted)
  | UnreadableManifest => Ok (false, add_error r ErrorReadingManifest)
  | ManifestJson manifest =>
      missing <- first_missing required_fields manifest ;;
      match missing with
      | Some field => Ok (false, add_error r (MissingRequiredField field))
      | None => verify_files d manifest r
      end
  end.

(** ** Encryption layer: [encrypt_file_gpg], [decrypt_file_gpg] *)

(** One [subprocess.run]: the argument list, the bytes fed to the standard
    input ([input=]) and the variables added to the inherited environment
    ([env=]); [None] when the keyword is not given. *)
Record subprocess_call : Type := Call {
  call_args : list string;
  call_input : option (list byte);
  call_env : option (list (string * string))
}.

(** The file system and the commands passed to [subprocess.run] so far,
    oldest first. *)
Record world : Type := World {
  fs : gmap string node;
  spawned : list subprocess_call
}.

(** What a [gpg] run does: it exits with a code, having written to its
    [--output] path or not, or [subprocess.run] raises. *)
Inductive gpg_run : Type :=
| GpgExit (returncode : Z) (output : option (list byte))
| GpgRaised.

Definition write_output (files : gmap string node) (path : string)
    (g : gpg_run) : gmap string node :=
  match g with
  | GpgExit _ (Some data) => <[path := RegularFile true data]> files
  | _ => files
  end.

Definition subprocess_run_gpg (w : world) (args : list string)
    (output_path : string) (g : gpg_run) : world :=
  World (write_output (fs w) output_path g) (spawned w ++ [Call args None None]).

(** [Path.unlink]; the directory that holds the file is taken to be
    writable (it is where this process has just written). *)
Definition unlink (files : gmap string node) (path : string)
  : outcome (gmap string node) :=
  match files !! path with
  | None => Raise FileNotFoundError
  | Some (Directory _) => Raise IsADirectoryError
  | Some (RegularFile _ _) => Ok (delete path files)
  end.

Definition encrypt_args (file_path passphrase : string) : list string :=
  [ "gpg"; "--symmetric"; "--cipher-algo"; "AES256"; "--batch"; "--yes";
    "--passphrase"; passphrase;
    "--output"; file_path +:+ ".gpg";
    file_path ].

Definition encrypt_file_gpg (w : world) (file_path passphrase : string)
    (g : gpg_run) : bool * world :=
  match fs w !! file_path with
  | None => (false, w)
  | Some _ =>
      let encrypted_path := file_path +:+ ".gpg" in
      let w := subprocess_run_gpg w (encrypt_args file_path passphrase) encrypted_path g in
      match g with
      | GpgRaised => (false, w)
      | GpgExit returncode _ =>
          if negb (Z.eqb returncode 0) then (false, w)
          else match unlink (fs w) file_path with
               | Ok files => (true, World files (spawned w))
               | Raise _ => (false, w)
               end
      end
  end.

(** [s.removesuffix(".gpg")] *)
Definition removesuffix (suffix s : string) : string :=
  let n := (String.length s - String.length suffix)%nat in
  if (String.length suffix <=? String.length s)%nat
     && String.eqb (drop_string n s) suffix
  then str_take n s else s.

Definition decrypt_args (encrypted_path passphrase output_path : string)
  : list string :=
  [ "gpg"; "--decrypt"; "--batch"; "--yes";
    "--passphrase"; passphrase;
    "--output"; output_path;
    encrypted_path ].

Definition decrypt_file_gpg (w : world) (encrypted_path passphrase : string)
    (output_path : option string) (g : gpg_run) : bool * world :=
  match fs w !! encrypted_path with
  | None => (false, w)
  | Some _ =>
      let output_path :=
        match output_path with
        | Some p => p
        | None => removesuffix ".gpg" encrypted_path
        end in
      let w := subprocess_run_gpg w (decrypt_args encrypted_path passphrase output_path)
                                  output_path g in
      match g with
      | GpgRaised => (false, w)
      | GpgExit returncode _ => (Z.eqb returncode 0, w)
      end
  end.

(** ** Restore orchestrator: one source of the [restore] command *)

(** [open(path, 'r').read()] under a UTF-8 locale: the bytes must be
    well-formed UTF-8 (no overlong form, no surrogate, nothing above
    U+10FFFF), and the newlines are made universal, "\r\n" and "\r" being
    read as "\n".  The text is kept as the bytes of its UTF-8 encoding, which
    is what [run_command(input=...)] writes to the standard input of the
    command. *)
Definition byte_in (lo hi : N) (b : byte) : bool :=
  (N.leb lo (Byte.to_N b) && N.leb (Byte.to_N b) hi)%bool.

Definition continuation (b : byte) : bool := byte_in 128 191 b.

Fixpoint utf8_valid (bs : list byte) : bool :=
  match bs with
  | [] => true
  | b0 :: rest =>
      if byte_in 0 127 b0 then utf8_valid rest
      else
        match rest with
        | [] => false
        | b1 :: rest1 =>
            if byte_in 194 223 b0 then continuation b1 && utf8_valid rest1
            else
              match rest1 with
              | [] => false
              | b2 :: rest2 =>
                  if byte_in 224 239 b0 then
                    (if byte_in 224 224 b0 then byte_in 160 191 b1
                     else if byte_in 237 237 b0 then byte_in 128 159 b1
                     else continuation b1)
                    && continuation b2 && utf8_valid rest2
                  else
                    match rest2 with
                    | [] => false
                    | b3 :: rest3 =>
                        if byte_in 240 244 b0 then
                          (if byte_in 240 240 b0 then byte_in 144 191 b1
                           else if byte_in 244 244 b0 then byte_in 128 143 b1
                           else continuation b1)
                          && continuation b2 && continuation b3 && utf8_valid rest3
                        else false
                    end
              end
        end
  end.

Fixpoint universal_newlines (bs : list byte) : list byte :=
  match bs with
  | [] => []
  | b :: rest =>
      if Byte.eqb b x0d then
        x0a :: match rest with
               | b' :: rest' =>
                   if Byte.eqb b' x0a then universal_newlines rest'
                   else universal_newlines rest
               | [] => []
               end
      else b :: universal_newlines rest
  end.

(** [None] when opening or decoding raises. *)
Definition open_r_read (files : gmap string node) (path : string)
  : option (list byte) :=
  match open_rb files path with
  | Ok raw => if utf8_valid raw then Some (universal_newlines raw) else None
  | Raise _ => None
  end.

(** The restore command of a source: it exits with a code, or starting it
    raises. *)
Inductive restore_run : Type :=
| RestoreExit (returncode : Z)
| RestoreRaised.

Inductive restore_status : Type :=
| NotPresent | Restored | RestoreFailed | RestoreError.

(** [tempfile.NamedTemporaryFile(delete=False)]: an empty file is created
    under a name the library picks, and stays when the [with] block ends. *)
Definition named_temporary_file (files : gmap string node) (temp_path : string)
  : gmap string node :=
  <[temp_path := RegularFile true []]> files.

Definition status_of_returncode (returncode : Z) : restore_status :=
  if Z.eqb returncode 0 then Restored else RestoreFailed.

(** The block of a source restored from SQL text (PostgreSQL, and MySQL
    once its password is known): [backup] is the artifact's path, [args]
    the restore command that reads the dump on its standard input.  The
    dump is read with [open(..., 'r')]; an exception raised while reading or
    running is caught by the [except Exception] of the block.  (The MongoDB
    and Forgejo blocks have the same shape and read with ['rb'].) *)
Definition restore_source (w : world) (is_encrypted : bool)
    (backup passphrase temp_path : string) (args : list string)
    (g : gpg_run) (r : restore_run) : restore_status * world :=
  match fs w !! backup with
  | None => (NotPresent, w)
  | Some _ =>
      if is_encrypted then
        let w := World (named_temporary_file (fs w) temp_path) (spawned w) in
        let '(decrypted, w) := decrypt_file_gpg w backup passphrase (Some temp_path) g in
        if decrypted then
          match open_r_read (fs w) temp_path, r with
          | Some data, RestoreExit returncode =>
              let w := World (fs w) (spawned w ++ [Call args (Some data) None]) in
              match unlink (fs w) temp_path with
              | Ok files => (status_of_returncode returncode, World files (spawned w))
              | Raise _ => (RestoreError, w)
              end
          | _, _ => (RestoreError, w)
          end
        else (status_of_returncode 1, w)
      else
        match open_r_read (fs w) backup, r with
        | Some data, RestoreExit returncode =>
            (status_of_returncode returncode,
             World (fs w) (spawned w ++ [Call args (Some data) None]))
        | _, _ => (RestoreError, w)
        end
  end.

Definition psql_args : list string :=
  ["docker"; "compose"; "exec"; "-T"; "postgres"; "psql"; "-U"; "dev_admin"; "postgres"].

(** ** Backup orchestrator: the backup type of the [backup] command *)

(** From [# Determine backup type] to the start of the dumps:
    [(backup_type, base_backup, previous_backup)]. *)
Definition determine_backup_type (incremental full : bool)
    (backups_dir : option (list root_entry))
  : outcome (string * option string * option string) :=
  if incremental && negb full then
    base_backup <- find_latest_full_backup backups_dir ;;
    if truthy (opt_str base_backup) then Ok ("incremental", base_backup, base_backup)
    else Ok ("full", base_backup, None)
  else Ok ("full", None, None).

(** The manifest of a backup run that got past the Colima check: [d] is the
    new directory once the dumps and the encryption pass are over, [encrypt]
    the flag as it stands then.  The command catches an exception of
    [create_backup_manifest] and then reports no manifest. *)
Definition backup_manifest (incremental full : bool)
    (backups_dir : option (list root_entry)) (d : backup_dir) (clk : clock)
    (encrypt : bool) : outcome (dict * backup_dir) :=
  plan <- determine_backup_type incremental full backups_dir ;;
  let '(backup_type, base_backup, previous_backup) := plan in
  create_backup_manifest d backup_type base_backup previous_backup clk encrypt.

(** ** The [verify] command of [manage_devstack.py] *)

(** How a command ends: it returns (exit status 0), or calls [sys.exit]. *)
Inductive ending : Type :=
| Returns
| SysExit (code : Z).

(** The ending and the two counters of the [--all] summary. *)
Record verify_run : Type := VerifyRun {
  ending_of : ending;
  total_verified : Z;
  total_failed : Z
}.

Definition is_dir (e : root_entry) : bool :=
  match e with
  | RootDir _ => true
  | RootFile _ => false
  end.

(** [s.split("/")] *)
Fixpoint split_slash (s : string) : list string :=
  match s with
  | EmptyString => [EmptyString]
  | String c rest =>
      if Ascii.eqb c "/"%char then EmptyString :: split_slash rest
      else
        match split_slash rest with
        | part :: parts => String c part :: parts
        | [] => [String c EmptyString]
        end
  end.

(** The parts of a relative path as [pathlib] keeps them: empty parts
    (doubled and trailing separators) and "." are dropped. *)
Definition path_parts (path : string) : list string :=
  List.filter (fun part => negb (String.eqb part "") && negb (String.eqb part "."))
              (split_slash path).

(** [backups_dir / backup_name] for a name that [pathlib] resolves to a
    direct child of the backups directory: the entry of that name, if it
    exists (names are compared as they are: the file system is case
    sensitive).  A listing of the directory says nothing of the other names
    (an absolute path, a path through "..", a path of several parts, or one
    without any part, which is the directory itself). *)
Definition path_lookup (es : list root_entry) (name : string) : option root_entry :=
  if is_prefix "/" name then None
  else
    match path_parts name with
    | [part] =>
        if String.eqb part ".." then None
        else List.find (fun e => String.eqb (entry_name e) part) es
    | _ => None
    end.

(** A path passed to [verify_backup_integrity]; under a regular file
    nothing exists, [manifest.json] included. *)
Definition as_backup_dir (e : root_entry) : backup_dir :=
  match e with
  | RootDir d => d
  | RootFile name => BackupDir name ∅ NoManifest
  end.

(** [sorted(...)] on the paths of one directory: ascending names. *)
Fixpoint insert_asc (e : root_entry) (sorted : list root_entry) : list root_entry :=
  match sorted with
  | [] => [e]
  | x :: rest =>
      if String.leb (entry_name e) (entry_name x) then e :: sorted
      else x :: insert_asc e rest
  end.

Definition sorted_paths (es : list root_entry) : list root_entry :=
  fold_right insert_asc [] es.

(** The loop of [verify --all]. *)
Fixpoint verify_each (backups : list root_entry) (verified failed : Z)
  : outcome (Z * Z) :=
  match backups with
  | [] => Ok (verified, failed)
  | backup :: rest =>
      result <- verify_backup_integrity (as_backup_dir backup) ;;
      if fst result then verify_each rest (verified + 1) failed
      else verify_each rest verified (failed + 1)
  end.

(** [verify(backup_name, verify_all)]; [backups_dir] is [None] when the
    directory does not exist.  What is printed is left out. *)
Definition verify_command (backup_name : option string) (verify_all : bool)
    (backups_dir : option (list root_entry)) : outcome verify_run :=
  if negb (truthy (opt_str backup_name)) && negb verify_all then
    Ok (VerifyRun Returns 0 0)
  else if truthy (opt_str backup_name) then
    match backups_dir, backup_name with
    | Some es, Some name =>
        match path_lookup es name with
        | Some backup_dir =>
            result <- verify_backup_integrity (as_backup_dir backup_dir) ;;
            if fst result then Ok (VerifyRun (SysExit 0) 0 0)
            else Ok (VerifyRun (SysExit 1) 0 0)
        | None => Ok (VerifyRun (SysExit 1) 0 0)
        end
    | _, _ => Ok (VerifyRun (SysExit 1) 0 0)
    end
  else
    match backups_dir with
    | None => Raise FileNotFoundError
    | Some es =>
        let backups := sorted_paths (List.filter is_dir es) in
        match backups with
        | [] => Ok (VerifyRun Returns 0 0)
        | _ =>
            totals <- verify_each backups 0 0 ;;
            let '(total_verified, total_failed) := totals in
            if Z.ltb 0 total_failed
            then Ok (VerifyRun (SysExit 1) total_verified total_failed)
            else Ok (VerifyRun Returns total_verified total_failed)
        end
    end.


(** ** Backup orchestrator: the encryption pass of the [backup] command *)

(** [Path.is_file] *)
Definition is_file (files : gmap string node) (path : string) : bool :=
  match files !! path with
  | Some (RegularFile _ _) => true
  | _ => false
  end.

(** [files_to_encrypt]; paths are relative to the backup directory, so a
    path is its own [name].  [listing] is what [backup_dir.iterdir()]
    yields, in its order. *)
Definition files_to_encrypt (files : gmap string node) (listing : list string)
  : list string :=
  List.filter (fun file_path =>
                 negb (String.eqb file_path "manifest.json") && is_file files file_path)
              listing.

(** The loop [for file_path in files_to_encrypt]; [gpg] is what the [gpg]
    run on a path does. *)
Fixpoint encrypt_each (w : world) (files : list string) (passphrase : string)
    (gpg : string -> gpg_run) (encrypted_count failed_count : Z)
  : Z * Z * world :=
  match files with
  | [] => (encrypted_count, failed_count, w)
  | file_path :: rest =>
      let '(encrypted, w) := encrypt_file_gpg w file_path passphrase (gpg file_path) in
      if encrypted
      then encrypt_each w rest passphrase gpg (encrypted_count + 1) failed_count
      else encrypt_each w rest passphrase gpg encrypted_count (failed_count + 1)
  end.

(** The [else] branch of [if not passphrase]. *)
Definition encryption_pass (w : world) (listing : list string)
    (passphrase : string) (gpg : string -> gpg_run) : Z * Z * world :=
  encrypt_each w (files_to_encrypt (fs w) listing) passphrase gpg 0 0.

(** ** Vault configuration directory: [~/.config/vault] *)

(** A text file and its permission bits.  Texts are strings of code points
    below 256; the process is an ordinary user who owns the files. *)
Record text_file : Type := TextFile {
  text_of : string;
  mode_of : Z
}.

(** The directory: its files by relative path, whether this process can
    create a file in it, and the mode a new file gets ([0o666] less the
    umask). *)
Record config_dir : Type := ConfigDir {
  config_files : gmap string text_file;
  can_create : bool;
  created_mode : Z
}.

Definition path_exists (c : config_dir) (path : string) : bool :=
  match config_files c !! path with
  | Some _ => true
  | None => false
  end.

(** [Path.read_text]: the owner needs the read bit, [0o400]. *)
Definition read_text (c : config_dir) (path : string) : outcome string :=
  match config_files c !! path with
  | None => Raise FileNotFoundError
  | Some f =>
      if Z.testbit (mode_of f) 8 then Ok (text_of f) else Raise PermissionError
  end.

(** [Path.write_text]: it truncates a file the owner may write ([0o200]),
    or creates the file. *)
Definition write_text (c : config_dir) (path text : string) : outcome config_dir :=
  match config_files c !! path with
  | Some f =>
      if Z.testbit (mode_of f) 7
      then Ok (ConfigDir (<[path := TextFile text (mode_of f)]> (config_files c))
                         (can_create c) (created_mode c))
      else Raise PermissionError
  | None =>
      if can_create c
      then Ok (ConfigDir (<[path := TextFile text (created_mode c)]> (config_files c))
                         (can_create c) (created_mode c))
      else Raise PermissionError
  end.

(** [os.chmod] *)
Definition chmod (c : config_dir) (path : string) (mode : Z) : outcome config_dir :=
  match config_files c !! path with
  | None => Raise FileNotFoundError
  | Some f =>
      Ok (ConfigDir (<[path := TextFile (text_of f) mode]> (config_files c))
                    (can_create c) (created_mode c))
  end.

(** ** Strings: [str.strip], [str.lower] *)

(** [str.isspace] on a code point below 256. *)
Definition isspace (c : ascii) : bool :=
  let n := nat_of_ascii c in
  ((9 <=? n) && (n <=? 13) || (28 <=? n) && (n <=? 32) || (n =? 133) || (n =? 160))%nat.

Fixpoint lstrip (s : string) : string :=
  match s with
  | EmptyString => EmptyString
  | String c rest => if isspace c then lstrip rest else s
  end.

Fixpoint rstrip (s : string) : string :=
  match s with
  | EmptyString => EmptyString
  | String c rest =>
      match rstrip rest with
      | EmptyString => if isspace c then EmptyString else String c EmptyString
      | kept => String c kept
      end
  end.

Definition strip (s : string) : string := rstrip (lstrip s).

(** [str.lower] on a code point below 256: the letters A-Z and the
    capital letters of Latin-1. *)
Definition lower_char (c : ascii) : ascii :=
  let n := nat_of_ascii c in
  if ((65 <=? n) && (n <=? 90)
      || (192 <=? n) && (n <=? 222) && negb (n =? 215))%nat
  then ascii_of_nat (n + 32) else c.

Fixpoint lower (s : string) : string :=
  match s with
  | EmptyString => EmptyString
  | String c rest => String (lower_char c) (lower rest)
  end.

(** ** Passphrase store: [setup_backup_passphrase], [get_backup_passphrase] *)

(** A run that reads the terminal with [input] and [getpass]: the lines
    typed are taken from the front, and reading after the last one raises
    [EOFError].  A run ends with a value and the lines not yet read, or
    with an exception that nothing caught. *)
Inductive interaction (A : Type) : Type :=
| Done (a : A) (rest : list string)
| EOFError
| Uncaught (e : exn).
Arguments Done {A} a rest.
Arguments EOFError {A}.
Arguments Uncaught {A} e.

(** The [while True] loop of [setup_backup_passphrase]. *)
Fixpoint enter_passphrase (typed : list string) : interaction string :=
  match typed with
  | [] => EOFError
  | passphrase1 :: typed =>
      if (String.length passphrase1 <? 8)%nat then enter_passphrase typed
      else
        match typed with
        | [] => EOFError
        | passphrase2 :: typed =>
            if negb (String.eqb passphrase1 passphrase2) then enter_passphrase typed
            else Done passphrase1 typed
        end
  end.

Definition setup_backup_passphrase (c : config_dir) (typed : list string)
  : interaction (bool * config_dir) :=
  let passphrase_file := "backup-passphrase" in
  match typed with
  | [] => EOFError
  | response :: typed =>
      if negb (String.eqb (lower (strip response)) "y") then Done (false, c) typed
      else
        match enter_passphrase typed with
        | Done passphrase1 typed =>
            match write_text c passphrase_file passphrase1 with
            | Raise _ => Done (false, c) typed
            | Ok c =>
                match chmod c passphrase_file 384 (* 0o600 *) with
                | Raise _ => Done (false, c) typed
                | Ok c => Done (true, c) typed
                end
            end
        | EOFError => EOFError
        | Uncaught e => Uncaught e
        end
  end.

Definition get_backup_passphrase (c : config_dir) (prompt_if_missing : bool)
    (typed : list string) : interaction (option string * config_dir) :=
  let passphrase_file := "backup-passphrase" in
  if path_exists c passphrase_file then
    match read_text c passphrase_file with
    | Ok text => Done (Some (strip text), c) typed
    | Raise _ => Done (None, c) typed
    end
  else if prompt_if_missing then
    match setup_backup_passphrase c typed with
    | Done (true, c) typed =>
        match read_text c passphrase_file with
        | Ok text => Done (Some (strip text), c) typed
        | Raise e => Uncaught e
        end
    | Done (false, c) typed => Done (None, c) typed
    | EOFError => EOFError
    | Uncaught e => Uncaught e
    end
  else Done (None, c) typed.

(** ** Backup orchestrator: the block [if encrypt:] of the [backup] command *)

(** [encrypt] as it stands after the block, with the configuration
    directory and the backup directory. *)
Definition encryption_step (encrypt : bool) (c : config_dir) (typed : list string)
    (w : world) (listing : list string) (gpg : string -> gpg_run)
  : interaction (bool * config_dir * world) :=
  if encrypt then
    match get_backup_passphrase c true typed with
    | Done (passphrase, c) typed =>
        if negb (truthy (opt_str passphrase)) then Done (false, c, w) typed
        else
          match passphrase with
          | Some passphrase =>
              let '(_, _, w) := encryption_pass w listing passphrase gpg in
              Done (true, c, w) typed
          | None => Done (false, c, w) typed
          end
    | EOFError => EOFError
    | Uncaught e => Uncaught e
    end
  else Done (false, c, w) typed.

(** ** Commands: [run_command] *)

(** What [subprocess.run] meets: the child exits with a code, having
    written text to its standard output and error, or the program is not
    found, or starting it fails otherwise. *)
Inductive child : Type :=
| Exited (returncode : Z) (stdout stderr : string)
| NotFound
| StartFailed (e : exn).

(** How a call ends: with a value, with [sys.exit(code)], or with an
    exception. *)
Inductive completion (A : Type) : Type :=
| Value (a : A)
| SystemExit (code : Z)
| Exception (e : exn).
Arguments Value {A} a.
Arguments SystemExit {A} code.
Arguments Exception {A} e.

(** The commands run so far, oldest first, and the machine: what a command
    meets after those. *)
Definition log : Type := list (list string).
Definition machine : Type := log -> list string -> child.

Definition run_command (os : machine) (ran : log) (cmd : list string)
    (check capture : bool) : completion (Z * string * string) * log :=
  (match os ran cmd with
   | Exited returncode stdout stderr =>
       if check && negb (Z.eqb returncode 0) then SystemExit returncode
       else if capture then Value (returncode, stdout, stderr)
       else Value (returncode, "", "")
   | NotFound => SystemExit 1
   | StartFailed e => Exception e
   end,
   (ran ++ [cmd])%list).

(** ** Vault credentials and secrets: [get_vault_secret] *)

Definition get_vault_token (c : config_dir) : completion (option string) :=
  let token_file := "root-token" in
  if negb (path_exists c token_file) then Value None
  else
    match read_text c token_file with
    | Ok text => Value (Some (strip text))
    | Raise e => Exception e
    end.

Definition login_args (role_id secret_id : string) : list string :=
  [ "docker"; "exec";
    "-e"; "VAULT_ADDR=http://localhost:8200";
    "dev-vault"; "vault"; "write"; "-field=token";
    "auth/approle/login";
    "role_id=" +:+ role_id;
    "secret_id=" +:+ secret_id ].

Definition get_vault_approle_token (c : config_dir) (os : machine) (ran : log)
    (service : string) : completion (option string) * log :=
  let approle_dir := "approles/" +:+ service in
  let role_id_file := approle_dir +:+ "/role-id" in
  let secret_id_file := approle_dir +:+ "/secret-id" in
  if negb (path_exists c role_id_file) || negb (path_exists c secret_id_file)
  then (Value None, ran)
  else
    match read_text c role_id_file with
    | Raise _ => (Value None, ran)
    | Ok role_text =>
        match read_text c secret_id_file with
        | Raise _ => (Value None, ran)
        | Ok secret_text =>
            let role_id := strip role_text in
            let secret_id := strip secret_text in
            match run_command os ran (login_args role_id secret_id) false true with
            | (Value (returncode, token, _), ran) =>
                if Z.eqb returncode 0 && truthy (PStr token)
                then (Value (Some (strip token)), ran)
                else (Value None, ran)
            | (SystemExit code, ran) => (SystemExit code, ran)
            | (Exception _, ran) => (Value None, ran)
            end
        end
    end.

Definition kv_get_args (token field path : string) : list string :=
  [ "docker"; "exec";
    "-e"; "VAULT_TOKEN=" +:+ token;
    "-e"; "VAULT_ADDR=http://localhost:8200";
    "dev-vault"; "vault"; "kv"; "get"; "-field=" +:+ field; path ].

(** From [# Fallback to root token] to the end. *)
Definition root_token_secret (c : config_dir) (os : machine) (ran : log)
    (path field : string) : completion (option string) * log :=
  match get_vault_token c with
  | Value token =>
      if negb (truthy (opt_str token)) then (Value None, ran)
      else
        match token with
        | Some token =>
            match run_command os ran (kv_get_args token field path) false true with
            | (Value (returncode, value, _), ran) =>
                if Z.eqb returncode 0 && truthy (PStr value)
                then (Value (Some (strip value)), ran)
                else (Value None, ran)
            | (SystemExit code, ran) => (SystemExit code, ran)
            | (Exception e, ran) => (Exception e, ran)
            end
        | None => (Value None, ran)
        end
  | SystemExit code => (SystemExit code, ran)
  | Exception e => (Exception e, ran)
  end.

Definition get_vault_secret (c : config_dir) (os : machine) (ran : log)
    (path field : string) (use_approle : bool) : completion (option string) * log :=
  if use_approle then
    match get_vault_approle_token c os ran "management" with
    | (Value token, ran) =>
        if truthy (opt_str token) then
          match token with
          | Some token =>
              match run_command os ran (kv_get_args token field path) false true with
              | (Value (returncode, value, _), ran) =>
                  if Z.eqb returncode 0 && truthy (PStr value)
                  then (Value (Some (strip value)), ran)
                  else root_token_secret c os ran path field
              | (SystemExit code, ran) => (SystemExit code, ran)
              | (Exception e, ran) => (Exception e, ran)
              end
          | None => root_token_secret c os ran path field
          end
        else root_token_secret c os ran path field
    | (SystemExit code, ran) => (SystemExit code, ran)
    | (Exception e, ran) => (Exception e, ran)
    end
  else root_token_secret c os ran path field.

(** *** Sample inputs *)

Definition ciphertext : list byte := bytes_of_string "<gpg:aes256>".

(** Two dumps waiting for the encryption pass. *)
Definition two_dumps : world :=
  World (<["postgres_all.sql" := plain_file "0123456789"]>
         (<["mysql_all.sql" := plain_file "01234567890123456789"]> ∅)) [].

(** The pass: [gpg] succeeds on the first dump and fails on the second. *)
Definition after_encryption_pass : world :=
  let w := snd (encrypt_file_gpg two_dumps "postgres_all.sql" "correct-horse"
                  (GpgExit 0 (Some ciphertext))) in
  snd (encrypt_file_gpg w "mysql_all.sql" "correct-horse" (GpgExit 2 None)).

Definition half_encrypted : backup_dir :=
  BackupDir "20251117_080000" (fs after_encryption_pass) NoManifest.

(** A backups directory whose only backup is an incremental one, with a
    valid manifest. *)
Definition incremental_manifest : pyval :=
  PDict [ ("backup_id", PStr "20251118_090000");
          ("backup_type", PStr "incremental");
          ("timestamp", PStr "2025-11-18T09:00:02");
          ("base_backup", PStr "20251117_080000");
          ("previous_backup", PStr "20251117_080000");
          ("encrypted", PBool false);
          ("databases", PDict []);
          ("config", PDict []);
          ("total_size_bytes", PInt 0);
          ("duration_seconds", PFloat (Qmake 15 10));
          ("vault_approle_used", PBool true) ].

Definition only_an_incremental : list root_entry :=
  [ RootDir (BackupDir "20251118_090000" ∅ (ManifestJson incremental_manifest)) ].

(** The newest backup has a manifest that does not decode; the one before
    is a full backup. *)
Definition full_manifest : pyval :=
  PDict [ ("backup_id", PStr "20251117_080000");
          ("backup_type", PStr "full");
          ("encrypted", PBool false);
          ("databases", PDict []);
          ("config", PDict []) ].

Definition corrupt_then_full : list root_entry :=
  [ RootDir (BackupDir "20251117_080000" ∅ (ManifestJson full_manifest));
    RootFile "README.txt";
    RootDir (BackupDir "20251118_090000" ∅ CorruptManifest) ].

(** A directory without a manifest. *)
Definition no_manifest : backup_dir := BackupDir "20251117_080000" ∅ NoManifest.

(** A manifest whose config object has an [env_file] key with an empty
    value. *)
Definition empty_env_file : backup_dir :=
  BackupDir "20251117_080000" ∅
    (ManifestJson
       (PDict [ ("backup_id", PStr "20251117_080000");
                ("backup_type", PStr "full");
                ("encrypted", PBool false);
                ("databases", PDict []);
                ("config", PDict [("env_file", PStr "")]) ])).

(** A dump with Windows line ends, and the text Python reads from it. *)
Definition crlf_dump : list byte :=
  (bytes_of_string "CREATE TABLE t();" ++ [x0d; x0a]
   ++ bytes_of_string "SELECT 1;" ++ [x0d; x0a])%list.

Definition lf_dump : list byte :=
  (bytes_of_string "CREATE TABLE t();" ++ [x0a]
   ++ bytes_of_string "SELECT 1;" ++ [x0a])%list.

(** An encrypted PostgreSQL dump about to be restored. *)
Definition encrypted_dump : world :=
  World (<["backups/20251117_080000/postgres_all.sql.gpg"
             := RegularFile true ciphertext]> ∅) [].

(** A backup directory about to be encrypted: two dumps, an older manifest
    and a sub-directory; and a [gpg] that fails on the MySQL dump. *)
Definition before_encryption : world :=
  World (<["manifest.json" := plain_file "{}"]>
         (<["logs" := Directory 4096]> (fs two_dumps))) [].

Definition before_encryption_listing : list string :=
  ["logs"; "postgres_all.sql"; "manifest.json"; "mysql_all.sql"].

Definition gpg_fails_on_mysql (file_path : string) : gpg_run :=
  if String.eqb file_path "mysql_all.sql" then GpgExit 2 None
  else GpgExit 0 (Some ciphertext).

(** A configuration directory without a passphrase, and what a user who
    first mistypes the confirmation enters. *)
Definition fresh_config : config_dir := ConfigDir ∅ true 420 (* 0o644 *).

Definition hesitant_user : list string :=
  [ " Y "; "short"; "correct-horse"; "correct-hose"; "correct-horse"; "correct-horse";
    "y" ].

(** Eight spaces. *)
Definition blank_passphrase : string := "        ".

(** A configuration directory with AppRole credentials and a root token,
    each file ending in a newline, and a Vault that rejects the AppRole
    login. *)
Definition newline : string := String (ascii_of_nat 10) "".

Definition both_credentials : config_dir :=
  ConfigDir (<["approles/management/role-id" := TextFile ("role-1" +:+ newline) 384]>
             (<["approles/management/secret-id"
                  := TextFile ("secret-1" +:+ newline) 384]>
              (<["root-token" := TextFile ("hvs.root" +:+ newline) 384]> ∅)))
            true 420.

Definition login_rejected : machine :=
  fun ran cmd =>
    match ran with
    | [] => Exited 2 "" "permission denied"
    | _ => Exited 0 ("s3cret" +:+ newline) ""
    end.

(** ** Vocabulary of the properties *)

Definition is_lower_hex (c : ascii) : bool :=
  let n := nat_of_ascii c in
  ((48 <=? n)%nat && (n <=? 57)%nat) || ((97 <=? n)%nat && (n <=? 102)%nat).

Fixpoint all_chars (p : ascii -> bool) (s : string) : bool :=
  match s with
  | EmptyString => true
  | String c s' => p c && all_chars p s'
  end.

(** The file that holds a source: the [.gpg] one of an encrypted backup. *)
Definition stored_name (encrypted : bool) (filename : string) : string :=
  if encrypted then filename +:+ ".gpg" else filename.

(** The parts of a manifest the properties speak of. *)
Definition manifest_databases (m : dict) : dict :=
  match dict_get m "databases" with
  | Some (PDict dbs) => dbs
  | _ => []
  end.

Definition manifest_config (m : dict) : dict :=
  match dict_get m "config" with
  | Some (PDict c) => c
  | _ => []
  end.

Definition manifest_total (m : dict) : option Z :=
  match dict_get m "total_size_bytes" with
  | Some (PInt t) => Some t
  | _ => None
  end.

(** [entry["size_bytes"]] of a file entry; an empty config has none. *)
Definition entry_size (e : pyval) : Z :=
  match e with
  | PDict items =>
      match dict_get items "size_bytes" with
      | Some (PInt n) => n
      | _ => 0
      end
  | _ => 0
  end.

Definition sum_sizes (dbs : dict) : Z :=
  fold_right (fun item acc => entry_size (snd item) + acc) 0 dbs.

(** An entry that names the stored file [stored] under the key [key],
    with the size and the SHA-256 of the bytes that file holds in [d]. *)
Definition describes (d : backup_dir) (key stored : string) (e : pyval) : Prop :=
  exists items data,
    e = PDict items
    /\ dict_get items key = Some (PStr stored)
    /\ dir_files d !! stored = Some (RegularFile true data)
    /\ dict_get items "size_bytes" = Some (PInt (Z.of_nat (length data)))
    /\ dict_get items "checksum"
       = Some (PStr ("sha256:" +:+ sha256_hexdigest data)).

(** The files that have received a verdict. *)
Definition verdicts (r : report) : Z := files_verified r + files_failed r.

(** The manifest is there, decodes, and passes the check of the required
    fields. *)
Definition manifest_accepted (d : backup_dir) : bool :=
  match dir_manifest d with
  | ManifestJson manifest =>
      match first_missing required_fields manifest with
      | Ok None => true
      | _ => false
      end
  | _ => false
  end.

(** The manifest is missing, unreadable, not JSON, or a JSON object that
    lacks a required field. *)
Definition manifest_rejected (d : backup_dir) : bool :=
  match dir_manifest d with
  | ManifestJson (PDict items) => negb (forallb (dict_has items) required_fields)
  | ManifestJson _ => false
  | _ => true
  end.

(** The three mutable slots of the manifest under construction. *)
Definition shaped (m : dict) (dbs cfg : dict) (total : Z) : Prop :=
  dict_get m "databases" = Some (PDict dbs)
  /\ dict_get m "config" = Some (PDict cfg)
  /\ dict_get m "total_size_bytes" = Some (PInt total).

(** The other keys of [m'] are those of [m]. *)
Definition same_header (m m' : dict) : Prop :=
  forall k, k <> "databases" -> k <> "config" -> k <> "total_size_bytes" ->
            dict_get m' k = dict_get m k.

(** The entry of a source in the manifest: [size] and [digest] are those of
    its stored file. *)
Definition expected_entry (backup_type : string) (base_backup : option string)
    (encrypted : bool) (db_name filename : string) (size : Z) (digest : string)
  : dict :=
  let file_entry : dict :=
    [ ("type", PStr (if String.eqb db_name "forgejo" then backup_type else "full"));
      ("file", PStr (stored_name encrypted filename));
      ("size_bytes", PInt size);
      ("checksum", PStr ("sha256:" +:+ digest)) ] in
  let file_entry :=
    if encrypted then dict_set file_entry "original_file" (PStr filename)
    else file_entry in
  if String.eqb db_name "forgejo" && String.eqb backup_type "incremental"
     && truthy (opt_str base_backup)
  then dict_set file_entry "base_backup" (opt_str base_backup)
  else file_entry.

(** The entries of the sources of [xs] whose stored file is a readable
    regular file, in the order of [xs]. *)
Definition built_entries (d : backup_dir) (backup_type : string)
    (base_backup : option string) (encrypted : bool) (xs : list (string * string))
  : dict :=
  flat_map
    (fun db =>
       match dir_files d !! stored_name encrypted (snd db) with
       | Some (RegularFile true data) =>
           [ (fst db,
              PDict (expected_entry backup_type base_backup encrypted (fst db) (snd db)
                       (Z.of_nat (length data)) (sha256_hexdigest data))) ]
       | _ => []
       end)
    xs.

(** The node can be read as a regular file. *)
Definition readable_file (n : node) : bool :=
  match n with
  | RegularFile true _ => true
  | _ => false
  end.

(** The plaintext names of the five artifacts of a backup. *)
Definition artifact_names : list string := map snd db_files ++ [".env.backup"].


(** The stored file of the source is in the directory. *)
Definition artifact_present (d : backup_dir) (encrypted : bool)
    (db : string * string) : bool :=
  match dir_files d !! stored_name encrypted (snd db) with
  | Some _ => true
  | None => false
  end.




(** What checking the stored file [stored] against the digest [digest]
    records, in a directory whose files are [files]. *)
Definition recheck (files : gmap string node) (digest stored : string) : detail :=
  match files !! stored with
  | None => Detail stored StatusMissing 0
  | Some (RegularFile true data) =>
      if String.eqb (sha256_hexdigest data) digest
      then Detail stored StatusOk (Z.of_nat (length data))
      else Detail stored StatusChecksumMismatch (Z.of_nat (length data))
  | Some _ => Detail stored StatusError 0
  end.

Definition is_ok (dt : detail) : bool :=
  match detail_status dt with
  | StatusOk => true
  | _ => false
  end.

Definition not_ok (dt : detail) : bool := negb (is_ok dt).

(** The digest of a file of [d], as a manifest written for [d] records it. *)
Definition recorded_digest (d : backup_dir) (stored : string) : string :=
  match dir_files d !! stored with
  | Some (RegularFile true data) => sha256_hexdigest data
  | _ => ""
  end.

(** The stored files of [d], in the order of the manifest. *)
Definition present_artifacts (d : backup_dir) (encrypted : bool) : list string :=
  map (stored_name encrypted)
      (List.filter
         (fun filename =>
            match dir_files d !! stored_name encrypted filename with
            | Some _ => true
            | None => false
            end)
         artifact_names).

(** The report [r'] is [r] with the details [ds] added and counted. *)
Definition tallies (r r' : report) (ds : list detail) : Prop :=
  details r' = (details r ++ ds)%list
  /\ files_verified r' = files_verified r + Z.of_nat (length (List.filter is_ok ds))
  /\ files_failed r' = files_failed r + Z.of_nat (length (List.filter not_ok ds))
  /\ files_total r' = files_total r
  /\ warnings r' = warnings r.


(** The order in which [find_latest_full_backup] goes through the entries:
    each name is at least the names after it. *)
Definition newest_first (es : list root_entry) : Prop :=
  StronglySorted
    (fun a b => String.leb (entry_name b) (entry_name a) = true) es.


(** Every character of the name is ASCII. *)
Definition ascii_name (name : string) : bool :=
  all_chars (fun c => (nat_of_ascii c <? 128)%nat) name.

(** The name starts with a digit. *)
Definition digit_named (d : backup_dir) : bool :=
  match dir_name d with
  | EmptyString => false
  | String c _ => isdigit c
  end.


(** The first directory of a list that satisfies a test. *)
Fixpoint first_dir (test : backup_dir -> bool) (es : list root_entry)
  : option backup_dir :=
  match es with
  | [] => None
  | RootFile _ :: rest => first_dir test rest
  | RootDir d :: rest => if test d then Some d else first_dir test rest
  end.

(** A [gpg] run that exits with code 0. *)
Definition gpg_succeeds (g : gpg_run) : bool :=
  match g with
  | GpgExit returncode _ => Z.eqb returncode 0
  | GpgRaised => false
  end.

(** The content of the [.gpg] companion once [gpg] has run. *)
Definition gpg_companion (before : option node) (g : gpg_run) : option node :=
  match g with
  | GpgExit _ (Some data) => Some (RegularFile true data)
  | _ => before
  end.

(** No file of the pass is named as the [.gpg] companion of another. *)
Definition no_companion_among (files : list string) : Prop :=
  forall f g, In f files -> In g files -> f <> g +:+ ".gpg".

(** The AppRole credentials of the management service, when both files can
    be read. *)
Definition approle_credentials (c : config_dir) : option (string * string) :=
  match read_text c "approles/management/role-id",
        read_text c "approles/management/secret-id" with
  | Ok role_text, Ok secret_text => Some (strip role_text, strip secret_text)
  | _, _ => None
  end.

(** The root token, when the file can be read and is not blank. *)
Definition usable_root_token (c : config_dir) : option string :=
  match read_text c "root-token" with
  | Ok text => if String.eqb (strip text) "" then None else Some (strip text)
  | Raise _ => None
  end.

(** What one captured, unchecked command gives back. *)
Definition captured (os : machine) (ran : log) (cmd : list string)
  : completion (Z * string * string) :=
  match os ran cmd with
  | Exited returncode stdout stderr => Value (returncode, stdout, stderr)
  | NotFound => SystemExit 1
  | StartFailed e => Exception e
  end.

(** * Properties *)

(** ** SHA-256 test vectors *)

Example sha256_abc :
  sha256_hexdigest (bytes_of_string "abc")
  = "ba7816bf8f01cfea414140de5dae2223b00361a396177a9cb410ff61f20015ad".
Proof. vm_compute. reflexivity. Qed.

Example sha256_empty :
  sha256_hexdigest []
  = "e3b0c44298fc1c149afbf4c8996fb92427ae41e4649b934ca495991b7852b855".
Proof. vm_compute. reflexivity. Qed.

Example sha256_two_blocks :
  sha256_hexdigest
    (bytes_of_string "abcdbcdecdefdefgefghfghighijhijkijkljklmklmnlmnomnopnopq")
  = "248d6a61d20638b8e5c026930c3e6039a33ce45964ff2167f6ecedd419db06c1".
Proof. vm_compute. reflexivity. Qed.

(** ** Dictionaries *)

Section DictFacts.

Lemma dict_get_set_eq (d : dict) (k : string) (v : pyval) :
  dict_get (dict_set d k v) k = Some v.
Proof.
  induction d as [|[k' v'] rest IH]; simpl.
  - now rewrite String.eqb_refl.
  - destruct (String.eqb k' k) eqn:E; simpl; rewrite E; auto.
Qed.

Lemma dict_get_set_ne (d : dict) (k k' : string) (v : pyval) :
  k <> k' -> dict_get (dict_set d k v) k' = dict_get d k'.
Proof.
  intros Hne. induction d as [|[k0 v0] rest IH]; simpl.
  - apply String.eqb_neq in Hne. now rewrite Hne.
  - destruct (String.eqb k0 k) eqn:E; simpl.
    + apply String.eqb_eq in E. subst k0.
      apply String.eqb_neq in Hne. now rewrite Hne.
    + now rewrite IH.
Qed.

Lemma dict_get_In (d : dict) (k : string) (v : pyval) :
  dict_get d k = Some v -> In (k, v) d.
Proof.
  induction d as [|[k' v'] rest IH]; simpl; [discriminate|].
  destruct (String.eqb k' k) eqn:E.
  - apply String.eqb_eq in E. intros [= ->]. subst. now left.
  - intros H. right. auto.
Qed.

Lemma dict_get_None_not_In (d : dict) (k : string) :
  dict_get d k = None -> forall v, ~ In (k, v) d.
Proof.
  induction d as [|[k' v'] rest IH]; simpl; [tauto|].
  destruct (String.eqb k' k) eqn:E; [discriminate|].
  intros H v [[= -> ->]|Hin].
  - now rewrite String.eqb_refl in E.
  - now apply (IH H v).
Qed.

(** Setting a key that is not there appends the item. *)
Lemma dict_set_fresh (d : dict) (k : string) (v : pyval) :
  dict_get d k = None -> dict_set d k v = (d ++ [(k, v)])%list.
Proof.
  induction d as [|[k' v'] rest IH]; simpl; [reflexivity|].
  destruct (String.eqb k' k); [discriminate|].
  intros H. now rewrite IH.
Qed.

End DictFacts.

(** ** Checksum engine *)

Section ChecksumFacts.

Lemma fold_update_concat (blocks : list (list byte)) (h : list byte) :
  fold_left sha256_update blocks h = (h ++ concat blocks)%list.
Proof.
  revert h. induction blocks as [|b rest IH]; intros h; simpl.
  - now rewrite app_nil_r.
  - rewrite IH. unfold sha256_update. now rewrite <- app_assoc.
Qed.

(** Reading block by block returns the file's bytes, all of them and in
    order, once the fuel exceeds the length. *)
Lemma read_blocks_concat (fuel : nat) (data : list byte) :
  (length data < fuel)%nat -> concat (read_blocks fuel data) = data.
Proof.
  revert data. induction fuel as [|fuel IH]; intros data Hlen; [lia|].
  cbn [read_blocks].
  remember 4096%nat as size eqn:Hsize.
  assert (Hpos : (0 < size)%nat) by (subst size; apply Nat.lt_0_succ).
  clear Hsize.
  destruct (firstn size data) as [|b0 block] eqn:Hfirst.
  - destruct data as [|x data]; [reflexivity|].
    destruct size; [lia|]. discriminate.
  - cbn [concat]. rewrite IH.
    + rewrite <- Hfirst. apply firstn_skipn.
    + destruct data as [|x data]; [destruct size; discriminate|].
      rewrite length_skipn. simpl in *. lia.
Qed.

Lemma calculate_file_checksum_readable (files : gmap string node) (path : string)
    (data : list byte) :
  files !! path = Some (RegularFile true data) ->
  calculate_file_checksum files path = Ok (sha256_hexdigest data).
Proof.
  intros H. unfold calculate_file_checksum, open_rb. rewrite H. cbn [bind].
  rewrite fold_update_concat, read_blocks_concat by lia. reflexivity.
Qed.

Lemma calculate_file_checksum_Ok (files : gmap string node) (path sum : string) :
  calculate_file_checksum files path = Ok sum ->
  exists data, files !! path = Some (RegularFile true data)
               /\ sum = sha256_hexdigest data.
Proof.
  unfold calculate_file_checksum, open_rb.
  destruct (files !! path) as [[[|] data|sz]|] eqn:E; cbn [bind]; try discriminate.
  rewrite fold_update_concat, read_blocks_concat by lia.
  intros [= <-]. exists data. split; reflexivity.
Qed.

Lemma hex_digit_lower (n : Z) : is_lower_hex (hex_digit n) = true.
Proof.
  unfold hex_digit.
  change 15 with (Z.ones 4). rewrite Z.land_ones by lia.
  pose proof (Z.mod_pos_bound n (2 ^ 4) ltac:(lia)) as Hb.
  remember (n mod 2 ^ 4) as z eqn:Hz. clear Hz.
  assert (Hcases : z = 0 \/ z = 1 \/ z = 2 \/ z = 3 \/ z = 4 \/ z = 5 \/ z = 6
                   \/ z = 7 \/ z = 8 \/ z = 9 \/ z = 10 \/ z = 11 \/ z = 12
                   \/ z = 13 \/ z = 14 \/ z = 15) by lia.
  repeat (destruct Hcases as [-> | Hcases]; [reflexivity|]).
  subst z. reflexivity.
Qed.

Lemma hex_words_lower (ws : list Z) : all_chars is_lower_hex (hex_words ws) = true.
Proof.
  induction ws as [|w rest IH]; [reflexivity|].
  cbn [hex_words fold_right]. fold (hex_words rest).
  unfold hex_word. cbn [all_chars].
  now rewrite !hex_digit_lower, IH.
Qed.

Lemma hex_words_length (ws : list Z) :
  String.length (hex_words ws) = (8 * length ws)%nat.
Proof.
  induction ws as [|w rest IH]; [reflexivity|].
  cbn [hex_words fold_right]. fold (hex_words rest).
  unfold hex_word. cbn [String.length length]. rewrite IH. lia.
Qed.

(** [hexdigest] gives 64 lowercase hexadecimal characters. *)
Lemma sha256_hexdigest_format (data : list byte) :
  String.length (sha256_hexdigest data) = 64%nat
  /\ all_chars is_lower_hex (sha256_hexdigest data) = true.
Proof.
  unfold sha256_hexdigest. split.
  - rewrite hex_words_length. reflexivity.
  - apply hex_words_lower.
Qed.

End ChecksumFacts.

(** ** Manifest generator *)

Lemma sum_sizes_app (dbs : dict) (k : string) (e : pyval) :
  sum_sizes (dbs ++ [(k, e)])%list = sum_sizes dbs + entry_size e.
Proof.
  induction dbs as [|[k' e'] rest IH]; simpl.
  - lia.
  - unfold sum_sizes in *. simpl. rewrite IH. lia.
Qed.

Lemma same_header_refl (m : dict) : same_header m m.
Proof. intros k _ _ _. reflexivity. Qed.

Lemma same_header_trans (m1 m2 m3 : dict) :
  same_header m1 m2 -> same_header m2 m3 -> same_header m1 m3.
Proof.
  intros H12 H23 k Hd Hc Ht. now rewrite H23, H12.
Qed.

Section ManifestFacts.

Variable d : backup_dir.
Variable backup_type : string.
Variable base_backup : option string.
Variable encrypted : bool.

(** A file entry keeps the four fields it is built with, whatever is added
    to it afterwards. *)
Lemma file_entry_fields (db_name filename sum : string) (size : Z) :
  let stored := stored_name encrypted filename in
  let file_entry : dict :=
    [ ("type", PStr (if String.eqb db_name "forgejo" then backup_type else "full"));
      ("file", PStr stored);
      ("size_bytes", PInt size);
      ("checksum", PStr ("sha256:" +:+ sum)) ] in
  let file_entry :=
    if encrypted then dict_set file_entry "original_file" (PStr filename)
    else file_entry in
  let file_entry :=
    if String.eqb db_name "forgejo" && String.eqb backup_type "incremental"
       && truthy (opt_str base_backup)
    then dict_set file_entry "base_backup" (opt_str base_backup)
    else file_entry in
  dict_get file_entry "file" = Some (PStr stored)
  /\ dict_get file_entry "size_bytes" = Some (PInt size)
  /\ dict_get file_entry "checksum" = Some (PStr ("sha256:" +:+ sum)).
Proof.
  cbv zeta.
  destruct encrypted;
    destruct (String.eqb db_name "forgejo" && String.eqb backup_type "incremental"
              && truthy (opt_str base_backup));
    repeat split; reflexivity.
Qed.

(** One turn of the loop over [db_files]: either the stored file is absent
    and the manifest is unchanged, or it is a readable regular file and its
    entry is added under [db_name]. *)
Lemma database_entry_Ok (m m' : dict) (dbs cfg : dict) (total : Z)
    (db_name filename : string) :
  shaped m dbs cfg total ->
  database_entry d backup_type base_backup encrypted m (db_name, filename) = Ok m' ->
  (dir_files d !! stored_name encrypted filename = None /\ m' = m)
  \/ (exists e data,
        dir_files d !! stored_name encrypted filename = Some (RegularFile true data)
        /\ describes d "file" (stored_name encrypted filename) e
        /\ entry_size e = Z.of_nat (length data)
        /\ shaped m' (dict_set dbs db_name e) cfg (total + Z.of_nat (length data))
        /\ same_header m m').
Proof.
  intros (Hdbs & Hcfg & Htot). unfold database_entry.
  fold (stored_name encrypted filename).
  set (stored := stored_name encrypted filename).
  destruct (dir_files d !! stored) as [n|] eqn:Hlook.
  2:{ intros [= <-]. left. split; reflexivity. }
  destruct (calculate_file_checksum (dir_files d) stored) as [sum|e] eqn:Hsum;
    cbn [bind]; [|discriminate].
  apply calculate_file_checksum_Ok in Hsum as (data & Hdata & ->).
  rewrite Hdata in Hlook. injection Hlook as <-.
  cbn [st_size_of].
  pose proof (file_entry_fields db_name filename (sha256_hexdigest data)
                (Z.of_nat (length data))) as Hfields.
  cbv zeta in Hfields. fold stored in Hfields.
  match type of Hfields with
  | dict_get ?fe _ = _ /\ _ => set (file_entry := fe) in *
  end.
  destruct Hfields as (Hfile & Hsize & Hchk).
  unfold setitem2. rewrite Hdbs. cbn [bind]. unfold iadd.
  rewrite dict_get_set_ne by discriminate. rewrite Htot.
  intros [= <-]. right. exists (PDict file_entry), data.
  split; [reflexivity|]. split; [|split; [|split]].
  - exists file_entry, data. auto.
  - unfold entry_size. now rewrite Hsize.
  - repeat split.
    + rewrite dict_get_set_ne by discriminate. apply dict_get_set_eq.
    + rewrite !dict_get_set_ne by discriminate. exact Hcfg.
    + apply dict_get_set_eq.
  - intros k Hd Hc Ht. rewrite !dict_get_set_ne by congruence. reflexivity.
Qed.

(** The turn raises only on a stored file that cannot be read. *)
Lemma database_entry_total (m : dict) (dbs cfg : dict) (total : Z)
    (db_name filename : string) :
  shaped m dbs cfg total ->
  (forall n, dir_files d !! stored_name encrypted filename = Some n ->
             exists data, n = RegularFile true data) ->
  exists m', database_entry d backup_type base_backup encrypted m (db_name, filename)
             = Ok m'.
Proof.
  intros (Hdbs & Hcfg & Htot) Hread. unfold database_entry.
  fold (stored_name encrypted filename).
  destruct (dir_files d !! stored_name encrypted filename) as [n|] eqn:Hlook;
    [|eauto].
  destruct (Hread n eq_refl) as (data & ->).
  rewrite (calculate_file_checksum_readable _ _ _ Hlook). cbn [bind].
  unfold setitem2. rewrite Hdbs. cbn [bind]. unfold iadd.
  rewrite dict_get_set_ne by discriminate. rewrite Htot. eauto.
Qed.

(** The whole loop, over any list of sources with distinct names that are
    not yet in the manifest. *)
Lemma database_loop_Ok (xs : list (string * string)) :
  forall (m m' : dict) (dbs cfg : dict) (total : Z),
  List.NoDup (map fst xs) ->
  (forall k, In k (map fst xs) -> dict_get dbs k = None) ->
  shaped m dbs cfg total ->
  for_each (database_entry d backup_type base_backup encrypted) xs m = Ok m' ->
  exists dbs' total',
    shaped m' dbs' cfg total'
    /\ total' - sum_sizes dbs' = total - sum_sizes dbs
    /\ same_header m m'
    /\ (forall db e, In (db, e) dbs' ->
          In (db, e) dbs
          \/ exists filename, In (db, filename) xs
               /\ describes d "file" (stored_name encrypted filename) e)
    /\ (forall db filename, In (db, filename) xs ->
          dir_files d !! stored_name encrypted filename = None ->
          dict_get dbs' db = None).
Proof.
  induction xs as [|[db_name filename] rest IH];
    intros m m' dbs cfg total Hnodup Hfresh Hshape Hrun.
  - injection Hrun as <-. exists dbs, total.
    repeat split; try apply Hshape; auto using same_header_refl.
  - cbn [for_each] in Hrun.
    destruct (database_entry d backup_type base_backup encrypted m (db_name, filename))
      as [m1|e] eqn:Hbody; cbn [bind] in Hrun; [|discriminate].
    cbn [map fst] in Hnodup. apply NoDup_cons_iff in Hnodup as [Hnotin Hnodup].
    destruct (database_entry_Ok _ _ _ _ _ _ _ Hshape Hbody)
      as [[Habsent ->] | (e & data & Hdata & Hdesc & Hsize & Hshape1 & Hhdr1)].
    + destruct (IH m m' dbs cfg total Hnodup) as (dbs' & total' & H1 & H2 & H3 & H4 & H5);
        auto.
      { intros k Hk. apply Hfresh. now right. }
      exists dbs', total'. repeat split; try apply H1; auto.
      * intros db e Hin. destruct (H4 db e Hin) as [|(f & Hf & Hd)]; [now left|].
        right. exists f. split; [now right|exact Hd].
      * intros db f [[= <- <-]|Hin] Hnone; [|eauto].
        destruct (dict_get dbs' db_name) as [e|] eqn:Hget; [|reflexivity].
        apply dict_get_In in Hget.
        destruct (H4 _ _ Hget) as [Hold|(f' & Hf' & Hd')].
        -- exfalso. eapply dict_get_None_not_In; [|exact Hold].
           apply Hfresh. now left.
        -- exfalso. apply Hnotin. apply in_map_iff. now exists (db_name, f').
    + assert (Hnone : dict_get dbs db_name = None) by (apply Hfresh; now left).
      rewrite (dict_set_fresh _ _ _ Hnone) in Hshape1.
      destruct (IH m1 m' (dbs ++ [(db_name, e)])%list cfg
                   (total + Z.of_nat (length data)) Hnodup)
        as (dbs' & total' & H1 & H2 & H3 & H4 & H5); auto.
      { intros k Hk. rewrite <- (dict_set_fresh _ _ e Hnone).
        rewrite dict_get_set_ne; [apply Hfresh; now right|].
        intros ->. contradiction. }
      exists dbs', total'. repeat split; try apply H1.
      * rewrite H2, sum_sizes_app, Hsize. lia.
      * eapply same_header_trans; eauto.
      * intros db e' Hin. destruct (H4 db e' Hin) as [Hold|(f & Hf & Hd)].
        -- apply in_app_iff in Hold as [Hold|[[= <- <-]|[]]]; [now left|].
           right. exists filename. split; [now left|exact Hdesc].
        -- right. exists f. split; [now right|exact Hd].
      * intros db f [[= <- <-]|Hin] Hnone'; [congruence|eauto].
Qed.

Lemma database_loop_total (xs : list (string * string)) :
  forall (m : dict) (dbs cfg : dict) (total : Z),
  shaped m dbs cfg total ->
  (forall db filename n, In (db, filename) xs ->
     dir_files d !! stored_name encrypted filename = Some n ->
     exists data, n = RegularFile true data) ->
  exists m' dbs' total',
    for_each (database_entry d backup_type base_backup encrypted) xs m = Ok m'
    /\ shaped m' dbs' cfg total'.
Proof.
  induction xs as [|[db_name filename] rest IH]; intros m dbs cfg total Hshape Hread.
  - exists m, dbs, total. split; [reflexivity|exact Hshape].
  - destruct (database_entry_total m dbs cfg total db_name filename Hshape)
      as (m1 & Hbody).
    { intros n Hn. eapply Hread; [now left|exact Hn]. }
    cbn [for_each]. rewrite Hbody. cbn [bind].
    destruct (database_entry_Ok _ _ _ _ _ _ _ Hshape Hbody)
      as [[_ ->] | (e & data & _ & _ & _ & Hshape1 & _)].
    + apply (IH m dbs cfg total Hshape).
      intros db f n Hin Hn. apply (Hread db f n); [now right|exact Hn].
    + eapply IH; [exact Hshape1|].
      intros db f n Hin Hn. apply (Hread db f n); [now right|exact Hn].
Qed.

End ManifestFacts.

Section ManifestResult.

Variable d : backup_dir.
Variable backup_type : string.
Variables base_backup previous_backup : option string.
Variable clk : clock.
Variable encrypted : bool.

#[local] Abbreviation start :=
  (starting_manifest d backup_type base_backup previous_backup clk encrypted).

Lemma start_shaped : shaped start [] [] 0.
Proof. unfold starting_manifest. destruct encrypted; repeat split; reflexivity. Qed.

Lemma config_entry_Ok (m m' : dict) (dbs : dict) (total : Z) :
  shaped m dbs [] total ->
  config_entry d encrypted m = Ok m' ->
  (dir_files d !! stored_name encrypted ".env.backup" = None /\ m' = m)
  \/ (exists c data,
        dir_files d !! stored_name encrypted ".env.backup"
          = Some (RegularFile true data)
        /\ c <> []
        /\ describes d "env_file" (stored_name encrypted ".env.backup") (PDict c)
        /\ entry_size (PDict c) = Z.of_nat (length data)
        /\ shaped m' dbs c (total + Z.of_nat (length data))
        /\ same_header m m').
Proof.
  intros (Hdbs & Hcfg & Htot) Hrun. unfold config_entry in Hrun.
  assert (Hname : (if encrypted then ".env.backup.gpg" else ".env.backup")
                  = stored_name encrypted ".env.backup") by (now destruct encrypted).
  rewrite !Hname in Hrun.
  set (stored := stored_name encrypted ".env.backup") in *.
  destruct (dir_files d !! stored) as [n|] eqn:Hlook.
  2:{ injection Hrun as <-. left. split; reflexivity. }
  destruct (calculate_file_checksum (dir_files d) stored) as [sum|e] eqn:Hsum;
    cbn [bind] in Hrun; [|discriminate].
  apply calculate_file_checksum_Ok in Hsum as (data & Hdata & ->).
  rewrite Hdata in Hlook. injection Hlook as <-.
  cbn [st_size_of] in Hrun. unfold iadd in Hrun.
  rewrite dict_get_set_ne in Hrun by discriminate. rewrite Htot in Hrun.
  injection Hrun as <-. right.
  match goal with
  | |- context [dict_set m "config" (PDict ?c)] => exists c, data
  end.
  split; [reflexivity|]. split; [now destruct encrypted|].
  split; [|split; [|split]].
  - eexists _, data. split; [reflexivity|].
    destruct encrypted; repeat split; solve [reflexivity | exact Hdata].
  - now destruct encrypted.
  - repeat split.
    + rewrite !dict_get_set_ne by discriminate. exact Hdbs.
    + rewrite dict_get_set_ne by discriminate. apply dict_get_set_eq.
    + apply dict_get_set_eq.
  - intros k Hd Hc Ht. rewrite !dict_get_set_ne by congruence. reflexivity.
Qed.

(** What a manifest returned by [create_backup_manifest] holds. *)
Lemma create_backup_manifest_Ok (m : dict) (d' : backup_dir) :
  create_backup_manifest d backup_type base_backup previous_backup clk encrypted
    = Ok (m, d') ->
  d' = write_manifest d m
  /\ same_header start m
  /\ exists dbs cfg total,
       shaped m dbs cfg total
       /\ total = sum_sizes dbs + entry_size (PDict cfg)
       /\ (forall db e, In (db, e) dbs ->
             exists filename, In (db, filename) db_files
               /\ describes d "file" (stored_name encrypted filename) e)
       /\ (forall db filename, In (db, filename) db_files ->
             dir_files d !! stored_name encrypted filename = None ->
             dict_get dbs db = None)
       /\ ((cfg = [] /\ dir_files d !! stored_name encrypted ".env.backup" = None)
           \/ (cfg <> []
               /\ describes d "env_file" (stored_name encrypted ".env.backup")
                            (PDict cfg))).
Proof.
  unfold create_backup_manifest. cbv zeta. intros Hrun.
  destruct (for_each (database_entry d backup_type base_backup encrypted) db_files start)
    as [m1|e] eqn:Hloop; cbn [bind] in Hrun; [|discriminate].
  destruct (config_entry d encrypted m1) as [m2|e] eqn:Hconf;
    cbn [bind] in Hrun; [|discriminate].
  injection Hrun as <- <-.
  destruct (database_loop_Ok d backup_type base_backup encrypted db_files
              start m1 [] [] 0) as (dbs & total & Hshape & Hsum & Hhdr & Hin & Habs);
    auto using start_shaped.
  { repeat constructor; simpl; intuition discriminate. }
  destruct (config_entry_Ok m1 m2 dbs total Hshape Hconf)
    as [[Hnone ->] | (c & data & Hdata & Hne & Hdesc & Hsize & Hshape2 & Hhdr2)].
  - split; [reflexivity|]. split; [exact Hhdr|].
    exists dbs, [], total. repeat split; try apply Hshape.
    + change (sum_sizes []) with 0 in Hsum. change (entry_size (PDict [])) with 0. lia.
    + intros db e He. destruct (Hin db e He) as [[]|Hnew]. exact Hnew.
    + exact Habs.
    + left. split; [reflexivity|exact Hnone].
  - split; [reflexivity|]. split; [eapply same_header_trans; eauto|].
    exists dbs, c, (total + Z.of_nat (length data)). repeat split; try apply Hshape2.
    + change (sum_sizes []) with 0 in Hsum. rewrite Hsize. lia.
    + intros db e He. destruct (Hin db e He) as [[]|Hnew]. exact Hnew.
    + exact Habs.
    + right. split; [exact Hne|exact Hdesc].
Qed.

(** The fields set once, at the start, are those of the result. *)
Lemma create_backup_manifest_header (m : dict) (d' : backup_dir) :
  create_backup_manifest d backup_type base_backup previous_backup clk encrypted
    = Ok (m, d') ->
  dict_get m "backup_id" = Some (PStr (dir_name d))
  /\ dict_get m "backup_type" = Some (PStr backup_type)
  /\ dict_get m "base_backup" = Some (opt_str base_backup)
  /\ dict_get m "previous_backup" = Some (opt_str previous_backup)
  /\ dict_get m "encrypted" = Some (PBool encrypted).
Proof.
  intros Hrun. apply create_backup_manifest_Ok in Hrun as (_ & Hhdr & _).
  repeat split; (rewrite Hhdr by discriminate); unfold starting_manifest;
    destruct encrypted; reflexivity.
Qed.

(** It raises only on a stored file that cannot be read. *)
Lemma create_backup_manifest_total :
  (forall name n, dir_files d !! name = Some n -> exists data, n = RegularFile true data) ->
  exists m d',
    create_backup_manifest d backup_type base_backup previous_backup clk encrypted
      = Ok (m, d').
Proof.
  intros Hread. unfold create_backup_manifest. cbv zeta.
  destruct (database_loop_total d backup_type base_backup encrypted db_files
              start [] [] 0 start_shaped) as (m1 & dbs & total & Hloop & Hshape).
  { intros db f n _ Hn. eapply Hread; exact Hn. }
  rewrite Hloop. cbn [bind].
  destruct Hshape as (Hdbs & Hcfg & Htot).
  unfold config_entry.
  destruct (dir_files d !! (if encrypted then ".env.backup.gpg" else ".env.backup"))
    as [n|] eqn:Hlook; cbn [bind]; [|eauto].
  destruct (Hread _ n Hlook) as (data & ->).
  rewrite (calculate_file_checksum_readable _ _ _ Hlook). cbn [bind st_size_of].
  unfold iadd. rewrite dict_get_set_ne by discriminate. rewrite Htot.
  cbn [bind]. eauto.
Qed.

End ManifestResult.

(** ** Integrity verifier *)

Section VerifierFacts.

Lemma hex_has_no_prefix (h : string) :
  all_chars is_lower_hex h = true -> is_prefix "sha256:" h = false.
Proof.
  destruct h as [|c h]; [reflexivity|].
  cbn [all_chars is_prefix]. intros Hc.
  apply andb_true_iff in Hc as [Hc _].
  destruct (Ascii.eqb "s" c) eqn:E; [|reflexivity].
  apply Ascii.eqb_eq in E. subst c. discriminate.
Qed.

Lemma remove_all_hex (fuel : nat) (h : string) :
  all_chars is_lower_hex h = true -> remove_all fuel "sha256:" h = h.
Proof.
  revert h. induction fuel as [|fuel IH]; intros h Hh; [reflexivity|].
  cbn [remove_all]. rewrite (hex_has_no_prefix h Hh).
  destruct h as [|c h]; [reflexivity|].
  cbn [all_chars] in Hh. apply andb_true_iff in Hh as [_ Hh].
  now rewrite IH.
Qed.

(** The recorded checksum, once the [sha256:] tag is removed, is the
    digest itself. *)
Lemma strip_sha256_tagged (data : list byte) :
  strip_sha256 (PStr ("sha256:" +:+ sha256_hexdigest data))
  = Ok (sha256_hexdigest data).
Proof.
  unfold strip_sha256, str_remove. f_equal.
  generalize (proj2 (sha256_hexdigest_format data)).
  generalize (sha256_hexdigest data) as h. intros h Hh.
  cbn [String.append String.length remove_all is_prefix Ascii.eqb Bool.eqb andb
       drop_string].
  apply remove_all_hex, Hh.
Qed.

(** A stored file gets exactly one verdict. *)
Lemma check_stored_file_verdict (d : backup_dir) (r : report)
    (filename expected : string) :
  let r' := check_stored_file d r filename expected in
  verdicts r' = verdicts r + 1 /\ files_total r' = files_total r
  /\ files_failed r <= files_failed r'.
Proof.
  unfold check_stored_file, verdicts.
  destruct (dir_files d !! filename) as [n|]; [|cbn; lia].
  destruct (calculate_file_checksum (dir_files d) filename) as [actual|e]; [|cbn; lia].
  destruct (String.eqb actual expected); cbn; lia.
Qed.

Lemma verify_database_verdict (d : backup_dir) (r r' : report)
    (item : string * pyval) :
  verify_database d r item = Ok r' ->
  verdicts r' = verdicts r + 1 /\ files_total r' = files_total r
  /\ files_failed r <= files_failed r'.
Proof.
  destruct item as [db_name db_info]. unfold verify_database.
  destruct (py_get db_info "file" PNone) as [filename|]; cbn [bind]; [|discriminate].
  destruct (truthy filename); cbn [negb].
  - destruct (path_operand filename) as [file_path|]; cbn [bind]; [|discriminate].
    destruct (py_get db_info "checksum" (PStr "")) as [chk|]; cbn [bind]; [|discriminate].
    destruct (strip_sha256 chk) as [expected|]; cbn [bind]; [|discriminate].
    intros [= <-]. apply check_stored_file_verdict.
  - intros [= <-]. unfold verdicts. cbn. lia.
Qed.

(** Every item of [databases] gets exactly one verdict. *)
Lemma verify_databases_verdicts (d : backup_dir) (items : list (string * pyval)) :
  forall r r',
  for_each (verify_database d) items r = Ok r' ->
  verdicts r' = verdicts r + Z.of_nat (length items)
  /\ files_total r' = files_total r
  /\ files_failed r <= files_failed r'.
Proof.
  induction items as [|item rest IH]; intros r r' Hrun.
  - injection Hrun as <-. cbn. lia.
  - cbn [for_each] in Hrun.
    destruct (verify_database d r item) as [r1|] eqn:Hbody; cbn [bind] in Hrun;
      [|discriminate].
    apply verify_database_verdict in Hbody. apply IH in Hrun.
    cbn [length]. lia.
Qed.

(** An entry that describes a stored file is verified. *)
Lemma check_stored_file_described (d : backup_dir) (r : report)
    (stored : string) (data : list byte) :
  dir_files d !! stored = Some (RegularFile true data) ->
  check_stored_file d r stored (sha256_hexdigest data)
  = add_detail (incr_verified r) (Detail stored StatusOk (Z.of_nat (length data))).
Proof.
  intros Hdata. unfold check_stored_file. rewrite Hdata.
  rewrite (calculate_file_checksum_readable _ _ _ Hdata).
  now rewrite String.eqb_refl.
Qed.

Lemma truthy_str (s : string) : s <> "" -> truthy (PStr s) = true.
Proof.
  intros Hne. cbn. apply String.eqb_neq in Hne. now rewrite Hne.
Qed.

Lemma verify_database_described (d : backup_dir) (r : report)
    (db_name stored : string) (e : pyval) :
  describes d "file" stored e -> stored <> "" ->
  exists r', verify_database d r (db_name, e) = Ok r'
             /\ files_verified r' = files_verified r + 1
             /\ files_failed r' = files_failed r
             /\ files_total r' = files_total r.
Proof.
  intros (items & data & -> & Hfile & Hdata & Hsize & Hchk) Hne.
  unfold verify_database. cbn [py_get]. rewrite Hfile, Hchk. cbn [bind].
  rewrite (truthy_str _ Hne). cbn [negb path_operand bind].
  rewrite strip_sha256_tagged. cbn [bind].
  rewrite (check_stored_file_described _ _ _ _ Hdata).
  eexists. split; [reflexivity|]. cbn. lia.
Qed.

Lemma verify_config_described (d : backup_dir) (r : report)
    (stored : string) (e : pyval) :
  describes d "env_file" stored e -> stored <> "" ->
  exists r', verify_config d r e = Ok r'
             /\ files_verified r' = files_verified r + 1
             /\ files_failed r' = files_failed r
             /\ files_total r' = files_total r.
Proof.
  intros (items & data & -> & Hfile & Hdata & Hsize & Hchk) Hne.
  unfold verify_config. cbn [py_get]. rewrite Hfile, Hchk. cbn [bind].
  rewrite (truthy_str _ Hne). cbn [path_operand bind].
  rewrite strip_sha256_tagged. cbn [bind].
  rewrite (check_stored_file_described _ _ _ _ Hdata).
  eexists. split; [reflexivity|]. cbn. lia.
Qed.

Lemma verify_databases_described (d : backup_dir) (items : list (string * pyval)) :
  forall r,
  (forall db e, In (db, e) items ->
     exists stored, describes d "file" stored e /\ stored <> "") ->
  exists r', for_each (verify_database d) items r = Ok r'
             /\ files_verified r' = files_verified r + Z.of_nat (length items)
             /\ files_failed r' = files_failed r
             /\ files_total r' = files_total r.
Proof.
  induction items as [|[db e] rest IH]; intros r Hall.
  - exists r. split; [reflexivity|]. cbn. lia.
  - destruct (Hall db e) as (stored & Hdesc & Hne); [now left|].
    destruct (verify_database_described d r db stored e Hdesc Hne)
      as (r1 & Hbody & Hv & Hf & Ht).
    destruct (IH r1) as (r' & Hrest & Hv' & Hf' & Ht').
    { intros db' e' Hin. apply (Hall db' e'). now right. }
    exists r'. cbn [for_each]. rewrite Hbody. cbn [bind].
    split; [exact Hrest|]. cbn [length]. lia.
Qed.

End VerifierFacts.

(** ** Encryption layer *)

Section EncryptionFacts.

Lemma append_suffix_ne (p s : string) : s <> "" -> p +:+ s <> p.
Proof.
  intros Hs. induction p as [|c p IH]; cbn [String.append].
  - exact Hs.
  - intros [= H]. now apply IH.
Qed.

(** [gpg] writes to its output path only. *)
Lemma write_output_other (files : gmap string node) (out path : string) (g : gpg_run) :
  out <> path -> write_output files out g !! path = files !! path.
Proof.
  intros Hne. destruct g as [rc [data|]|]; cbn [write_output]; try reflexivity.
  now apply lookup_insert_ne.
Qed.

Lemma spawned_after_gpg (w : world) (args : list string) (out : string) (g : gpg_run) :
  spawned (subprocess_run_gpg w args out g) = (spawned w ++ [Call args None None])%list.
Proof. reflexivity. Qed.

Lemma encrypt_file_gpg_spawned (w : world) (file_path passphrase : string)
    (g : gpg_run) :
  is_Some (fs w !! file_path) ->
  spawned (snd (encrypt_file_gpg w file_path passphrase g))
  = (spawned w ++ [Call (encrypt_args file_path passphrase) None None])%list.
Proof.
  intros [n Hn]. unfold encrypt_file_gpg. rewrite Hn.
  destruct g as [rc out|]; [|reflexivity].
  destruct (negb (Z.eqb rc 0)); [reflexivity|].
  destruct (unlink _ _); reflexivity.
Qed.

Lemma decrypt_file_gpg_spawned (w : world) (encrypted_path passphrase : string)
    (output_path : option string) (g : gpg_run) :
  is_Some (fs w !! encrypted_path) ->
  spawned (snd (decrypt_file_gpg w encrypted_path passphrase output_path g))
  = (spawned w
     ++ [Call (decrypt_args encrypted_path passphrase
                 (match output_path with
                  | Some p => p
                  | None => removesuffix ".gpg" encrypted_path
                  end)) None None])%list.
Proof.
  intros [n Hn]. unfold decrypt_file_gpg. rewrite Hn.
  destruct g as [rc out|]; reflexivity.
Qed.

End EncryptionFacts.

(** C1, as the code has it: whenever [encrypt_file_gpg] or
    [decrypt_file_gpg] runs [gpg] (the input file exists), the one command
    it passes to [subprocess.run] carries the passphrase as the element of
    the argument list that follows [--passphrase], and the call is given
    neither [input=] nor [env=]: the passphrase travels on the command line,
    not through the standard input or the environment. *)
Theorem gpg_passphrase_is_a_command_line_argument
    (w : world) (path passphrase : string) (output_path : option string)
    (g : gpg_run) :
  is_Some (fs w !! path) ->
  (exists before after,
     spawned (snd (encrypt_file_gpg w path passphrase g))
     = (spawned w
        ++ [Call (before ++ "--passphrase" :: passphrase :: after) None None])%list)
  /\ (exists before after,
        spawned (snd (decrypt_file_gpg w path passphrase output_path g))
        = (spawned w
           ++ [Call (before ++ "--passphrase" :: passphrase :: after) None None])%list).
Proof.
  intros Hex. split.
  - rewrite (encrypt_file_gpg_spawned _ _ _ _ Hex).
    exists ["gpg"; "--symmetric"; "--cipher-algo"; "AES256"; "--batch"; "--yes"],
           ["--output"; path +:+ ".gpg"; path].
    reflexivity.
  - rewrite (decrypt_file_gpg_spawned _ _ _ _ _ Hex).
    eexists ["gpg"; "--decrypt"; "--batch"; "--yes"], _.
    reflexivity.
Qed.

Lemma gpg_passphrase_is_a_command_line_argument_witness :
  is_Some (fs two_dumps !! "postgres_all.sql")
  /\ (exists before after,
        spawned (snd (encrypt_file_gpg two_dumps "postgres_all.sql" "correct-horse"
                        (GpgExit 0 (Some ciphertext))))
        = (spawned two_dumps
           ++ [Call (before ++ "--passphrase" :: "correct-horse" :: after)
                    None None])%list).
Proof.
  assert (H : is_Some (fs two_dumps !! "postgres_all.sql"))
    by (vm_compute; eexists; reflexivity).
  split; [exact H|].
  exact (proj1 (gpg_passphrase_is_a_command_line_argument
                  two_dumps "postgres_all.sql" "correct-horse" None
                  (GpgExit 0 (Some ciphertext)) H)).
Defined.

(** C1 as stated fails: encrypting [postgres_all.sql] with the passphrase
    [correct-horse] spawns a command whose argument list has the passphrase
    as one of its elements, and that is given no standard input and no
    environment. *)
Lemma passphrase_among_gpg_arguments :
  exists c,
    In c (spawned (snd (encrypt_file_gpg two_dumps "postgres_all.sql" "correct-horse"
                          (GpgExit 0 (Some ciphertext)))))
    /\ In "correct-horse" (call_args c)
    /\ call_input c = None
    /\ call_env c = None.
Proof.
  eexists. split.
  - vm_compute. left. reflexivity.
  - vm_compute. repeat split. tauto.
Qed.

(** C6: [encrypt_file_gpg] on a file path.  When [gpg] exits with a
    non-zero code or [subprocess.run] raises, the function returns [False]
    and the plaintext file is as it was; the plaintext is gone afterwards
    only if [gpg] exited with code 0; and when [gpg] exits with code 0 on a
    regular file, the file is deleted and the function returns [True]. *)
Theorem encrypt_file_gpg_deletes_plaintext_only_on_success
    (w w' : world) (file_path passphrase : string) (g : gpg_run) (ok : bool) :
  encrypt_file_gpg w file_path passphrase g = (ok, w') ->
  ((g = GpgRaised \/ exists returncode output,
                       g = GpgExit returncode output /\ returncode <> 0) ->
   ok = false /\ fs w' !! file_path = fs w !! file_path)
  /\ (is_Some (fs w !! file_path) -> fs w' !! file_path = None ->
      exists output, g = GpgExit 0 output)
  /\ (forall output readable data,
        g = GpgExit 0 output ->
        fs w !! file_path = Some (RegularFile readable data) ->
        ok = true /\ fs w' !! file_path = None).
Proof.
  unfold encrypt_file_gpg.
  assert (Hne : file_path +:+ ".gpg" <> file_path)
    by (apply append_suffix_ne; discriminate).
  destruct (fs w !! file_path) as [n|] eqn:Hn.
  2:{ intros [= <- <-]. split; [|split].
      - intros _. split; [reflexivity|exact Hn].
      - intros [x Hx]. discriminate.
      - discriminate. }
  assert (Hkept : forall g, fs (subprocess_run_gpg w (encrypt_args file_path passphrase)
                                  (file_path +:+ ".gpg") g) !! file_path = Some n).
  { intros g0. cbn [subprocess_run_gpg fs]. now rewrite write_output_other. }
  assert (Hzero : forall out,
             ~ (GpgExit 0 out = GpgRaised
                \/ exists returncode output,
                     GpgExit 0 out = GpgExit returncode output /\ returncode <> 0)).
  { intros out [[=]|(rc & o & [= <- _] & Hnz)]. contradiction. }
  destruct g as [rc out|].
  - destruct (Z.eqb rc 0) eqn:Hrc; cbn [negb].
    + apply Z.eqb_eq in Hrc. subst rc. unfold unlink. rewrite Hkept.
      destruct n as [readable data|sz]; intros [= <- <-]; cbn [fs];
        (split; [|split]).
      * intros H. now apply Hzero in H.
      * intros _ _. now exists out.
      * intros _ _ _ _ _. split; [reflexivity|apply lookup_delete_eq].
      * intros H. now apply Hzero in H.
      * intros _ _. now exists out.
      * discriminate.
    + apply Z.eqb_neq in Hrc. intros [= <- <-]. split; [|split].
      * intros _. split; [reflexivity|apply Hkept].
      * intros _. rewrite Hkept. discriminate.
      * intros o r dt [= -> _]. contradiction.
  - intros [= <- <-]. split; [|split].
    + intros _. split; [reflexivity|apply Hkept].
    + intros _. rewrite Hkept. discriminate.
    + discriminate.
Qed.

Lemma encrypt_file_gpg_deletes_plaintext_only_on_success_witness :
  let run := encrypt_file_gpg two_dumps "mysql_all.sql" "correct-horse" (GpgExit 2 None) in
  fst run = false
  /\ fs (snd run) !! "mysql_all.sql" = fs two_dumps !! "mysql_all.sql".
Proof.
  intros run.
  refine (proj1 (encrypt_file_gpg_deletes_plaintext_only_on_success
                   two_dumps (snd run) "mysql_all.sql" "correct-horse"
                   (GpgExit 2 None) (fst run) _) _).
  - vm_compute. reflexivity.
  - right. exists 2, None. split; [reflexivity|lia].
Defined.

(** ** Verdicts of the verifier *)

Section VerifyResult.

Variable d : backup_dir.

Lemma first_missing_dict (items : dict) (fields : list string) :
  first_missing fields (PDict items)
  = Ok (List.find (fun field => negb (dict_has items field)) fields).
Proof.
  induction fields as [|field rest IH]; [reflexivity|].
  cbn [first_missing py_in bind List.find].
  destruct (dict_has items field); cbn [negb]; [exact IH|reflexivity].
Qed.

Lemma verify_config_Ok (r r' : report) (config_info : pyval) :
  verify_config d r config_info = Ok r' ->
  exists filename,
    py_get config_info "env_file" PNone = Ok filename
    /\ files_total r' = files_total r
    /\ if truthy filename
       then verdicts r' = verdicts r + 1 /\ files_failed r <= files_failed r'
       else r' = r.
Proof.
  unfold verify_config.
  destruct (py_get config_info "env_file" PNone) as [filename|]; cbn [bind];
    [|discriminate].
  intros Hrun. exists filename. split; [reflexivity|].
  destruct (truthy filename).
  - destruct (path_operand filename) as [file_path|]; cbn [bind] in Hrun;
      [|discriminate].
    destruct (py_get config_info "checksum" (PStr "")) as [chk|]; cbn [bind] in Hrun;
      [|discriminate].
    destruct (strip_sha256 chk) as [expected|]; cbn [bind] in Hrun; [|discriminate].
    injection Hrun as <-.
    pose proof (check_stored_file_verdict d r file_path expected) as H.
    cbv zeta in H. intuition.
  - injection Hrun as <-. split; reflexivity.
Qed.

(** The counting part, run from the empty report. *)
Lemma verify_files_Ok (manifest : pyval) (s : bool) (r : report) :
  verify_files d manifest empty_report = Ok (s, r) ->
  s = success_of r
  /\ exists items r1,
       py_get manifest "databases" (PDict []) = Ok (PDict items)
       /\ verdicts r1 = Z.of_nat (length items)
       /\ 0 <= files_failed r1
       /\ files_total r1
          = Z.of_nat (length items)
            + (match truthy_config manifest with Some _ => 1 | None => 0 end)
       /\ match truthy_config manifest with
          | Some config_info => verify_config d r1 config_info = Ok r
          | None => r = r1
          end.
Proof.
  unfold verify_files.
  destruct (py_get manifest "databases" (PDict [])) as [databases|]; cbn [bind];
    [|discriminate].
  destruct (py_len databases) as [n|] eqn:Hlen; cbn [bind]; [|discriminate].
  destruct (py_items databases) as [items|] eqn:Hitems; cbn [bind]; [|discriminate].
  destruct databases; try discriminate. injection Hitems as ->.
  injection Hlen as <-.
  match goal with
  | |- context [for_each (verify_database d) items ?r0] => set (start := r0)
  end.
  destruct (for_each (verify_database d) items start) as [r1|] eqn:Hloop;
    cbn [bind]; [|discriminate].
  apply verify_databases_verdicts in Hloop as (Hv & Ht & Hf).
  assert (Hstart : verdicts start = 0 /\ files_failed start = 0
                   /\ files_total start
                      = Z.of_nat (length items)
                        + (match truthy_config manifest with Some _ => 1 | None => 0 end)).
  { unfold start, verdicts.
    destruct (truthy_config manifest);
      cbn [files_verified files_failed files_total set_total empty_report]; lia. }
  destruct Hstart as (Hv0 & Hf0 & Ht0).
  destruct (truthy_config manifest) as [config_info|] eqn:Hcfg.
  - destruct (verify_config d r1 config_info) as [r2|] eqn:Hconf; cbn [bind];
      [|discriminate].
    intros [= <- <-]. split; [reflexivity|].
    exists items, r1. repeat split; try lia. exact Hconf.
  - intros [= <- <-]. split; [reflexivity|].
    exists items, r1. repeat split; lia.
Qed.

Lemma verify_backup_integrity_accepted (manifest : pyval) (s : bool) (r : report) :
  dir_manifest d = ManifestJson manifest ->
  manifest_accepted d = true ->
  verify_backup_integrity d = Ok (s, r) ->
  verify_files d manifest empty_report = Ok (s, r).
Proof.
  unfold manifest_accepted, verify_backup_integrity. intros ->.
  destruct (first_missing required_fields manifest) as [[field|]|]; try discriminate.
  intros _ H. exact H.
Qed.

Lemma success_of_true (r : report) :
  success_of r = true <-> files_failed r = 0 /\ files_verified r = files_total r.
Proof.
  unfold success_of. rewrite andb_true_iff, !Z.eqb_eq. reflexivity.
Qed.

End VerifyResult.

(** C4, as the code has it.  Whenever [verify_backup_integrity] returns,
    [success] is true exactly when the manifest was accepted (present,
    decoded, with the four required fields) and the report has
    [files_failed == 0] and [files_verified == files_total].  A missing,
    unreadable or undecodable manifest, and a manifest object that lacks one
    of [backup_id], [backup_type], [encrypted], [databases], make it return
    success false with the three counters still at zero. *)
Theorem verify_success_contract (d : backup_dir) :
  (forall s r,
     verify_backup_integrity d = Ok (s, r) ->
     (s = true <->
      manifest_accepted d = true
      /\ files_failed r = 0 /\ files_verified r = files_total r))
  /\ (manifest_rejected d = true ->
      exists r,
        verify_backup_integrity d = Ok (false, r)
        /\ files_verified r = 0 /\ files_failed r = 0 /\ files_total r = 0).
Proof.
  split.
  - intros s r Hrun.
    destruct (manifest_accepted d) eqn:Hacc.
    + unfold manifest_accepted in Hacc.
      destruct (dir_manifest d) as [| | |manifest] eqn:Hman; try discriminate.
      assert (Hacc' : manifest_accepted d = true)
        by (unfold manifest_accepted; now rewrite Hman).
      apply (verify_backup_integrity_accepted d manifest s r Hman Hacc') in Hrun.
      apply verify_files_Ok in Hrun as [-> _].
      rewrite success_of_true. tauto.
    + assert (s = false) as ->.
      { unfold manifest_accepted in Hacc. unfold verify_backup_integrity in Hrun.
        destruct (dir_manifest d) as [| | |manifest]; try (now injection Hrun).
        destruct (first_missing required_fields manifest) as [[field|]|];
          cbn [bind] in Hrun; try discriminate.
        now injection Hrun. }
      split; [discriminate|]. intros [[=] _].
  - unfold manifest_rejected, verify_backup_integrity.
    destruct (dir_manifest d) as [| | |manifest].
    1-3: intros _; eexists; split; [reflexivity|]; cbn; auto.
    destruct manifest as [| | | | | |items]; try discriminate.
    rewrite first_missing_dict. cbn [bind].
    destruct (List.find _ required_fields) as [field|] eqn:Hfind.
    + intros _. eexists. split; [reflexivity|]. cbn. auto.
    + intros Hrej. exfalso. apply negb_true_iff in Hrej.
      assert (Hall : forallb (dict_has items) required_fields = true).
      { apply forallb_forall. intros field Hin.
        pose proof (List.find_none _ _ Hfind field Hin) as Hn.
        now apply negb_false_iff in Hn. }
      congruence.
Qed.

Lemma verify_success_contract_witness :
  manifest_rejected no_manifest = true
  /\ exists r,
       verify_backup_integrity no_manifest = Ok (false, r)
       /\ files_verified r = 0 /\ files_failed r = 0 /\ files_total r = 0.
Proof.
  assert (H : manifest_rejected no_manifest = true) by reflexivity.
  split; [exact H|].
  exact (proj2 (verify_success_contract no_manifest) H).
Defined.

(** C4 as stated fails: a directory without [manifest.json] is reported
    with [files_failed == 0] and [files_verified == files_total] (all
    three counters are zero), and yet success is false. *)
Lemma verify_fails_with_balanced_counters :
  exists r,
    verify_backup_integrity no_manifest = Ok (false, r)
    /\ files_failed r = 0
    /\ files_verified r = files_total r.
Proof.
  eexists. split; [reflexivity|]. split; reflexivity.
Qed.

(** C10, as the code has it.  For a manifest that was decoded and accepted,
    whenever [verify_backup_integrity] returns: if the manifest has no
    config, or a falsy one (empty), every counted file has exactly one
    verdict; if it has a truthy config whose [env_file] value is truthy (a
    non-empty name), again [files_verified + files_failed == files_total];
    if it has a truthy config whose [env_file] is absent or falsy (the empty
    string, null, zero, false, an empty container), the config is counted in
    [files_total] and gets no verdict, and success is false. *)
Theorem verify_verdict_accounting
    (d : backup_dir) (manifest : pyval) (s : bool) (r : report) :
  dir_manifest d = ManifestJson manifest ->
  manifest_accepted d = true ->
  verify_backup_integrity d = Ok (s, r) ->
  match truthy_config manifest with
  | None => files_verified r + files_failed r = files_total r
  | Some config_info =>
      exists filename,
        py_get config_info "env_file" PNone = Ok filename
        /\ if truthy filename
           then files_verified r + files_failed r = files_total r
           else files_verified r + files_failed r + 1 = files_total r
                /\ s = false
  end.
Proof.
  intros Hman Hacc Hrun.
  apply (verify_backup_integrity_accepted d manifest s r Hman Hacc) in Hrun.
  apply verify_files_Ok in Hrun as (-> & items & r1 & _ & Hv & Hf & Ht & Hcfg).
  unfold verdicts in Hv.
  destruct (truthy_config manifest) as [config_info|].
  - apply verify_config_Ok in Hcfg as (filename & Hget & Ht' & Hcase).
    exists filename. split; [exact Hget|].
    destruct (truthy filename).
    + unfold verdicts in Hcase. lia.
    + subst r. split; [lia|].
      destruct (success_of r1) eqn:Hs; [|reflexivity].
      apply success_of_true in Hs. lia.
  - subst r. lia.
Qed.

Lemma verify_verdict_accounting_witness :
  exists filename,
    py_get (PDict [("env_file", PStr "")]) "env_file" PNone = Ok filename
    /\ if truthy filename
       then files_verified (Report 0 0 1 [] [] []) + files_failed (Report 0 0 1 [] [] [])
            = files_total (Report 0 0 1 [] [] [])
       else files_verified (Report 0 0 1 [] [] []) + files_failed (Report 0 0 1 [] [] []) + 1
            = files_total (Report 0 0 1 [] [] [])
            /\ false = false.
Proof.
  exact (verify_verdict_accounting empty_env_file _ false (Report 0 0 1 [] [] [])
           eq_refl eq_refl eq_refl).
Defined.

(** C10 as stated fails: the config object of this manifest is not empty
    and has an [env_file] key, and the report counts one file with no
    verdict. *)
Lemma env_file_key_without_verdict :
  exists r,
    verify_backup_integrity empty_env_file = Ok (false, r)
    /\ truthy_config
         (PDict [ ("backup_id", PStr "20251117_080000");
                  ("backup_type", PStr "full");
                  ("encrypted", PBool false);
                  ("databases", PDict []);
                  ("config", PDict [("env_file", PStr "")]) ])
       = Some (PDict [("env_file", PStr "")])
    /\ dict_has [("env_file", PStr "")] "env_file" = true
    /\ files_verified r + files_failed r = 0
    /\ files_total r = 1.
Proof.
  eexists. split; [reflexivity|]. repeat split.
Qed.

(** ** The manifest of a backup run *)

(** C2, on the code: after an encryption pass in which [gpg] succeeded on
    the PostgreSQL dump and failed on the MySQL dump, the directory holds
    [postgres_all.sql.gpg] and the plaintext [mysql_all.sql];
    [create_backup_manifest] with [encrypted=True] returns a manifest with
    an entry for [postgres] and none for [mysql], whose plaintext artifact
    is neither checksummed nor counted in the total size. *)
Theorem encrypted_manifest_omits_plaintext_artifact :
  dir_files half_encrypted !! "postgres_all.sql.gpg" = Some (RegularFile true ciphertext)
  /\ dir_files half_encrypted !! "mysql_all.sql"
     = Some (plain_file "01234567890123456789")
  /\ dir_files half_encrypted !! "mysql_all.sql.gpg" = None
  /\ exists m d',
       create_backup_manifest half_encrypted "full" None None noon true = Ok (m, d')
       /\ dict_has (manifest_databases m) "postgres" = true
       /\ dict_get (manifest_databases m) "mysql" = None
       /\ manifest_total m = Some (Z.of_nat (length ciphertext)).
Proof.
  split; [vm_compute; reflexivity|].
  split; [vm_compute; reflexivity|].
  split; [vm_compute; reflexivity|].
  eexists _, _. split; [vm_compute; reflexivity|].
  repeat split.
Qed.

(** C3, on the code: the only backup under the backups directory has a
    valid manifest, of type [incremental]; the manifest scan finds no full
    backup, and [find_latest_full_backup] goes on to the fallback and
    returns that incremental backup as the latest full one.  (A manifest
    that does not decode is skipped: past it, the older full backup is
    found.) *)
Theorem fallback_taken_despite_valid_manifest :
  manifest_scan (sorted_reverse only_an_incremental) = None
  /\ find_latest_full_backup (Some only_an_incremental)
     = Ok (Some "20251118_090000")
  /\ find_latest_full_backup (Some corrupt_then_full)
     = Ok (Some "20251117_080000").
Proof. repeat split; reflexivity. Qed.

(** C5, on the code: restoring an encrypted PostgreSQL dump.  When the
    restore command succeeds or fails, the temporary file is gone
    afterwards; when the decryption fails, the temporary file is still
    there, empty if [gpg] wrote nothing and with whatever [gpg] wrote
    otherwise. *)
Theorem temporary_file_left_after_failed_decryption :
  let backup := "backups/20251117_080000/postgres_all.sql.gpg" in
  let temp_path := "/tmp/tmpk3v9x2ab.sql" in
  let plaintext := bytes_of_string "CREATE TABLE t();" in
  let partial := bytes_of_string "CREATE TA" in
  let restore g r :=
    restore_source encrypted_dump true backup "correct-horse" temp_path psql_args g r in
  (fst (restore (GpgExit 0 (Some plaintext)) (RestoreExit 0)) = Restored
   /\ fs (snd (restore (GpgExit 0 (Some plaintext)) (RestoreExit 0))) !! temp_path = None)
  /\ (fst (restore (GpgExit 0 (Some plaintext)) (RestoreExit 1)) = RestoreFailed
      /\ fs (snd (restore (GpgExit 0 (Some plaintext)) (RestoreExit 1))) !! temp_path
         = None)
  /\ (fst (restore (GpgExit 2 None) (RestoreExit 0)) = RestoreFailed
      /\ fs (snd (restore (GpgExit 2 None) (RestoreExit 0))) !! temp_path
         = Some (RegularFile true []))
  /\ (fst (restore (GpgExit 2 (Some partial)) (RestoreExit 0)) = RestoreFailed
      /\ fs (snd (restore (GpgExit 2 (Some partial)) (RestoreExit 0))) !! temp_path
         = Some (RegularFile true partial)).
Proof.
  cbv zeta. repeat split; vm_compute; reflexivity.
Qed.

Lemma stored_name_nonempty (encrypted : bool) (db filename : string) :
  In (db, filename) db_files -> stored_name encrypted filename <> "".
Proof.
  intros Hin. cbn in Hin.
  destruct Hin as [[= <- <-]|[[= <- <-]|[[= <- <-]|[[= <- <-]|[]]]]];
    destruct encrypted; discriminate.
Qed.

(** A manifest just written verifies: every entry is found and matches. *)
Lemma verify_after_create (d d' : backup_dir) (backup_type : string)
    (base_backup previous_backup : option string) (clk : clock) (encrypted : bool)
    (m : dict) :
  create_backup_manifest d backup_type base_backup previous_backup clk encrypted
    = Ok (m, d') ->
  exists r,
    verify_backup_integrity d' = Ok (true, r)
    /\ files_failed r = 0
    /\ files_verified r = files_total r
    /\ files_total r
       = Z.of_nat (length (manifest_databases m))
         + (match manifest_config m with [] => 0 | _ => 1 end).
Proof.
  intros Hrun.
  pose proof (create_backup_manifest_header _ _ _ _ _ _ _ _ Hrun)
    as (Hid & Htype & _ & _ & Henc).
  apply create_backup_manifest_Ok in Hrun
    as (-> & _ & dbs & cfg & total & (Hdbs & Hcfg & Htot) & _ & Hin & _ & Hconf).
  unfold verify_backup_integrity. cbn [write_manifest dir_manifest].
  rewrite first_missing_dict.
  cbn [required_fields List.find]. unfold dict_has.
  rewrite Hid, Htype, Henc, Hdbs. cbn [negb bind].
  unfold verify_files. cbn [py_get]. rewrite Hdbs. cbn [bind py_len py_items].
  unfold manifest_databases, manifest_config. rewrite Hdbs, Hcfg.
  unfold truthy_config. rewrite Hcfg.
  match goal with
  | |- context [for_each ?body dbs ?r0] =>
      destruct (verify_databases_described
                  (write_manifest d m) dbs r0) as (r1 & Hloop & Hv & Hf & Ht)
  end.
  { intros db e He. destruct (Hin db e He) as (filename & Hfile & Hdesc).
    exists (stored_name encrypted filename).
    split; [exact Hdesc|]. eapply stored_name_nonempty; eauto. }
  destruct Hconf as [[-> Hnone] | [Hne Hdesc]].
  - cbn [truthy] in Hloop, Hv, Hf, Ht |- *. rewrite Hloop. cbn [bind].
    eexists. split; [|split; [|split]].
    + f_equal. f_equal. unfold success_of.
      cbn [files_failed files_verified files_total set_total empty_report]
        in Hv, Hf, Ht.
      rewrite Hf, Hv, Ht. cbn. now rewrite Z.eqb_refl.
    + cbn in Hf. exact Hf.
    + cbn in Hv, Ht. lia.
    + cbn in Ht. lia.
  - assert (Htruthy : truthy (PDict cfg) = true) by (destruct cfg; [contradiction|reflexivity]).
    rewrite Htruthy in Hloop, Hv, Hf, Ht |- *.
    rewrite Hloop. cbn [bind].
    destruct (verify_config_described (write_manifest d m) r1
                (stored_name encrypted ".env.backup") (PDict cfg) Hdesc)
      as (r2 & Hc & Hv2 & Hf2 & Ht2).
    { destruct encrypted; discriminate. }
    rewrite Hc. cbn [bind].
    cbn [files_failed files_verified files_total set_total empty_report]
      in Hv, Hf, Ht.
    exists r2. split; [|split; [|split]].
    + f_equal. f_equal. unfold success_of.
      rewrite Hf2, Hf, Hv2, Hv, Ht2, Ht. cbn [Z.eqb andb]. apply Z.eqb_eq. lia.
    + lia.
    + lia.
    + destruct cfg; [contradiction|]. lia.
Qed.

(** C8.  In every manifest that [create_backup_manifest] returns,
    [total_size_bytes] is the sum of the [size_bytes] of the database
    entries, plus the [size_bytes] of the config entry when there is one.  A
    source with neither its plaintext nor its [.gpg] artifact in the
    directory has no entry, and an absent artifact raises nothing: the
    function returns a manifest whenever the files that are there can be
    read. *)
Theorem manifest_total_size_is_the_sum
    (d : backup_dir) (backup_type : string)
    (base_backup previous_backup : option string) (clk : clock) (encrypted : bool) :
  (forall m d',
     create_backup_manifest d backup_type base_backup previous_backup clk encrypted
       = Ok (m, d') ->
     manifest_total m
     = Some (sum_sizes (manifest_databases m)
             + match manifest_config m with
               | [] => 0
               | config_entry => entry_size (PDict config_entry)
               end)
     /\ (forall db filename,
           In (db, filename) db_files ->
           dir_files d !! filename = None ->
           dir_files d !! (filename +:+ ".gpg") = None ->
           dict_get (manifest_databases m) db = None)
     /\ (dir_files d !! ".env.backup" = None ->
         dir_files d !! ".env.backup.gpg" = None ->
         manifest_config m = []))
  /\ ((forall name n, dir_files d !! name = Some n ->
                      exists data, n = RegularFile true data) ->
      exists m d',
        create_backup_manifest d backup_type base_backup previous_backup clk encrypted
          = Ok (m, d')).
Proof.
  split; [|apply create_backup_manifest_total].
  intros m d' Hrun.
  apply create_backup_manifest_Ok in Hrun
    as (-> & _ & dbs & cfg & total & (Hdbs & Hcfg & Htot) & Hsum & _ & Habs & Hconf).
  unfold manifest_total, manifest_databases, manifest_config.
  rewrite Hdbs, Hcfg, Htot. split; [|split].
  - subst total. destruct cfg; reflexivity.
  - intros db filename Hin Hplain Hgpg. apply (Habs db filename Hin).
    destruct encrypted; assumption.
  - intros Hplain Hgpg. destruct Hconf as [[-> _]|[_ Hdesc]]; [reflexivity|].
    destruct Hdesc as (items & data & _ & _ & Hdata & _).
    destruct encrypted;
      [ change (dir_files d !! ".env.backup.gpg" = Some (RegularFile true data)) in Hdata
      | change (dir_files d !! ".env.backup" = Some (RegularFile true data)) in Hdata ];
      congruence.
Qed.

Lemma manifest_total_size_is_the_sum_witness :
  exists m d',
    create_backup_manifest three_sources "full" None None noon false = Ok (m, d')
    /\ manifest_total m = Some 35
    /\ dict_get (manifest_databases m) "mongodb" = None.
Proof.
  pose (run := create_backup_manifest three_sources "full" None None noon false).
  pose (m := match run with Ok (m, _) => m | Raise _ => [] end).
  pose (d' := match run with Ok (_, d') => d' | Raise _ => three_sources end).
  assert (Hrun : create_backup_manifest three_sources "full" None None noon false
                 = Ok (m, d')) by (vm_compute; reflexivity).
  exists m, d'.
  destruct (proj1 (manifest_total_size_is_the_sum
                     three_sources "full" None None noon false) m d' Hrun)
    as (Htotal & Habsent & _).
  split; [exact Hrun|]. split.
  - rewrite Htotal. vm_compute. reflexivity.
  - apply (Habsent "mongodb" "mongodb_dump.archive").
    + vm_compute. tauto.
    + vm_compute. reflexivity.
    + vm_compute. reflexivity.
Defined.

(** C9.  An incremental backup is requested ([--incremental] without
    [--full]).  When [find_latest_full_backup] returns [None], the manifest
    of the run has [backup_type] "full" and a null [base_backup]; when it
    returns a backup id, the manifest has [backup_type] "incremental" and
    that id as [base_backup]. *)
Theorem incremental_request_follows_latest_full
    (backups_dir : option (list root_entry)) (d d' : backup_dir) (clk : clock)
    (encrypt : bool) (m : dict) :
  backup_manifest true false backups_dir d clk encrypt = Ok (m, d') ->
  (find_latest_full_backup backups_dir = Ok None ->
   dict_get m "backup_type" = Some (PStr "full")
   /\ dict_get m "base_backup" = Some PNone)
  /\ (forall id,
        find_latest_full_backup backups_dir = Ok (Some id) -> id <> "" ->
        dict_get m "backup_type" = Some (PStr "incremental")
        /\ dict_get m "base_backup" = Some (PStr id)).
Proof.
  unfold backup_manifest, determine_backup_type. cbn [andb negb].
  destruct (find_latest_full_backup backups_dir) as [[id|]|]; cbn [bind];
    [| |discriminate].
  - intros Hrun. split; [discriminate|].
    intros id' [= <-] Hne. change (opt_str (Some id)) with (PStr id) in Hrun.
    rewrite (truthy_str id Hne) in Hrun.
    apply create_backup_manifest_header in Hrun as (_ & Htype & Hbase & _).
    auto.
  - cbn [opt_str truthy]. intros Hrun. split; [|discriminate].
    intros _. apply create_backup_manifest_header in Hrun as (_ & Htype & Hbase & _).
    auto.
Qed.

Lemma incremental_request_follows_latest_full_witness :
  exists m d',
    backup_manifest true false None three_sources noon false = Ok (m, d')
    /\ dict_get m "backup_type" = Some (PStr "full")
    /\ dict_get m "base_backup" = Some PNone.
Proof.
  pose (run := backup_manifest true false None three_sources noon false).
  pose (m := match run with Ok (m, _) => m | Raise _ => [] end).
  pose (d' := match run with Ok (_, d') => d' | Raise _ => three_sources end).
  assert (Hrun : backup_manifest true false None three_sources noon false
                 = Ok (m, d')) by (vm_compute; reflexivity).
  exists m, d'. split; [exact Hrun|].
  apply (proj1 (incremental_request_follows_latest_full
                  None three_sources d' noon false m Hrun)).
  reflexivity.
Defined.

(** * Further properties of the code *)

(** ** Checksum engine *)

Lemma read_blocks_sizes (fuel : nat) (data : list byte) :
  Forall (fun block => (1 <= length block <= 4096)%nat) (read_blocks fuel data).
Proof.
  revert data. induction fuel as [|fuel IH]; intros data; [constructor|].
  cbn [read_blocks].
  remember 4096%nat as size eqn:Hsize. clear Hsize.
  destruct (firstn size data) as [|b0 block] eqn:Hfirst; [constructor|].
  constructor; [|apply IH].
  rewrite <- Hfirst. split.
  - rewrite Hfirst. cbn. lia.
  - apply firstn_le_length.
Qed.

Lemma read_blocks_count (fuel : nat) (data : list byte) :
  (length data < fuel)%nat ->
  length (read_blocks fuel data) = ((length data + (4096 - 1)) / 4096)%nat.
Proof.
  revert data. induction fuel as [|fuel IH]; intros data Hlen; [lia|].
  cbn [read_blocks].
  remember 4096%nat as size eqn:Hsize.
  assert (Hpos : (0 < size)%nat) by (subst size; apply Nat.lt_0_succ).
  clear Hsize.
  destruct (firstn size data) as [|b0 block] eqn:Hfirst.
  - destruct data as [|x data]; [|destruct size; [lia|discriminate]].
    cbn [length]. symmetry. apply Nat.div_small. lia.
  - assert (Hne : (0 < length data)%nat).
    { destruct data; [destruct size; discriminate|cbn; lia]. }
    cbn [length]. rewrite IH by (rewrite length_skipn; lia).
    rewrite length_skipn.
    destruct (Nat.le_gt_cases (length data) size) as [Hle|Hgt].
    + replace (length data - size)%nat with 0%nat by lia.
      rewrite (Nat.div_small (0 + (size - 1)) size) by lia.
      replace (length data + (size - 1))%nat
        with ((length data - 1) + 1 * size)%nat by lia.
      rewrite Nat.div_add by lia.
      rewrite (Nat.div_small (length data - 1) size) by lia. reflexivity.
    + replace (length data + (size - 1))%nat
        with ((length data - size + (size - 1)) + 1 * size)%nat by lia.
      rewrite Nat.div_add by lia. lia.
Qed.

(** [calculate_file_checksum] reads a file in blocks of at most 4096
    bytes, none of them empty, [ceil(size / 4096)] of them, which put end
    to end are the content of the file. *)
Theorem checksum_reads_file_in_bounded_blocks (data : list byte) :
  let blocks := read_blocks (S (length data)) data in
  concat blocks = data
  /\ Forall (fun block => (1 <= length block <= 4096)%nat) blocks
  /\ length blocks = ((length data + 4095) / 4096)%nat.
Proof.
  cbv zeta. split; [|split].
  - apply read_blocks_concat. lia.
  - apply read_blocks_sizes.
  - rewrite read_blocks_count by lia. reflexivity.
Qed.

(** [calculate_file_checksum] returns a digest exactly for a readable
    regular file, and then it is the SHA-256 of the whole content, whatever
    its length; a missing path, a directory and a file that cannot be opened
    raise instead, and no digest is returned. *)
Theorem checksum_is_digest_of_whole_file
    (files : gmap string node) (path digest : string) :
  calculate_file_checksum files path = Ok digest
  <-> exists data,
        files !! path = Some (RegularFile true data)
        /\ digest = sha256_hexdigest data.
Proof.
  split.
  - apply calculate_file_checksum_Ok.
  - intros (data & Hdata & ->). now apply calculate_file_checksum_readable.
Qed.

(** ** Encryption layer: results, untouched files, paths *)

Lemma append_cons (c : ascii) (p s : string) :
  String c p +:+ s = String c (p +:+ s).
Proof. reflexivity. Qed.

Lemma string_length_append (p s : string) :
  String.length (p +:+ s) = (String.length p + String.length s)%nat.
Proof.
  induction p as [|c p IH]; [reflexivity|].
  rewrite append_cons. cbn [String.length]. now rewrite IH.
Qed.

Lemma drop_string_append (p s : string) : drop_string (String.length p) (p +:+ s) = s.
Proof.
  induction p as [|c p IH]; [reflexivity|].
  rewrite append_cons. cbn [String.length drop_string]. exact IH.
Qed.

Lemma str_take_append (p s : string) : str_take (String.length p) (p +:+ s) = p.
Proof.
  induction p as [|c p IH].
  - now destruct s.
  - rewrite append_cons. cbn [String.length str_take]. now rewrite IH.
Qed.

(** [removesuffix] undoes the appending of the suffix. *)
Lemma removesuffix_append (suffix p : string) :
  removesuffix suffix (p +:+ suffix) = p.
Proof.
  unfold removesuffix. rewrite string_length_append.
  replace (String.length p + String.length suffix - String.length suffix)%nat
    with (String.length p) by lia.
  rewrite drop_string_append, str_take_append, String.eqb_refl.
  replace (String.length suffix <=? String.length p + String.length suffix)%nat
    with true by (symmetry; apply Nat.leb_le; lia).
  reflexivity.
Qed.



(** [encrypt_file_gpg] changes no path other than the file and its [.gpg]
    companion; on a missing file it returns [False], runs nothing and
    changes nothing; and what [gpg] writes ends up under the [.gpg] name. *)
Theorem encrypt_file_gpg_touches_two_paths
    (w w' : world) (file_path passphrase : string) (g : gpg_run) (ok : bool) :
  encrypt_file_gpg w file_path passphrase g = (ok, w') ->
  (forall q, q <> file_path -> q <> file_path +:+ ".gpg" -> fs w' !! q = fs w !! q)
  /\ (fs w !! file_path = None -> ok = false /\ w' = w)
  /\ (forall returncode data,
        is_Some (fs w !! file_path) ->
        g = GpgExit returncode (Some data) ->
        fs w' !! (file_path +:+ ".gpg") = Some (RegularFile true data)).
Proof.
  unfold encrypt_file_gpg.
  assert (Hne : file_path +:+ ".gpg" <> file_path)
    by (apply append_suffix_ne; discriminate).
  destruct (fs w !! file_path) as [n|] eqn:Hn.
  2:{ intros [= <- <-]. split; [|split].
      - reflexivity.
      - auto.
      - intros rc data [x Hx]. discriminate. }
  set (w1 := subprocess_run_gpg w (encrypt_args file_path passphrase)
               (file_path +:+ ".gpg") g).
  assert (Hframe1 : forall q, q <> file_path +:+ ".gpg" -> fs w1 !! q = fs w !! q).
  { intros q Hq. cbn [w1 subprocess_run_gpg fs]. apply write_output_other. congruence. }
  assert (Hout : forall rc data, g = GpgExit rc (Some data) ->
                   fs w1 !! (file_path +:+ ".gpg") = Some (RegularFile true data)).
  { intros rc data ->. cbn [w1 subprocess_run_gpg fs write_output].
    apply lookup_insert_eq. }
  assert (Hdone : forall ok0 w0,
             (ok0, w0) = (ok, w') ->
             (forall q, q <> file_path -> fs w0 !! q = fs w1 !! q) ->
             (forall q, q <> file_path -> q <> file_path +:+ ".gpg" ->
                        fs w' !! q = fs w !! q)
             /\ (Some n = None -> ok = false /\ w' = w)
             /\ (forall returncode data,
                   is_Some (Some n) ->
                   g = GpgExit returncode (Some data) ->
                   fs w' !! (file_path +:+ ".gpg") = Some (RegularFile true data))).
  { intros ok0 w0 [= <- <-] Hsame. split; [|split].
    - intros q Hq1 Hq2. rewrite Hsame by exact Hq1. now apply Hframe1.
    - discriminate.
    - intros rc data _ Hg. rewrite Hsame by exact Hne. eapply Hout, Hg. }
  destruct g as [rc out|].
  - destruct (negb (Z.eqb rc 0)).
    + intros H. apply (Hdone _ _ H). reflexivity.
    + unfold unlink. rewrite (Hframe1 file_path) by congruence. rewrite Hn.
      destruct n as [readable data0|sz].
      * intros H. apply (Hdone _ _ H). intros q Hq. cbn [fs].
        apply lookup_delete_ne. congruence.
      * intros H. apply (Hdone _ _ H). reflexivity.
  - intros H. apply (Hdone _ _ H). reflexivity.
Qed.

Lemma encrypt_file_gpg_touches_two_paths_witness :
  let run := encrypt_file_gpg two_dumps "postgres_all.sql" "correct-horse"
               (GpgExit 0 (Some ciphertext)) in
  fs (snd run) !! "mysql_all.sql" = fs two_dumps !! "mysql_all.sql"
  /\ fs (snd run) !! ("postgres_all.sql" +:+ ".gpg") = Some (RegularFile true ciphertext).
Proof.
  intros run.
  destruct (encrypt_file_gpg_touches_two_paths two_dumps (snd run) "postgres_all.sql"
              "correct-horse" (GpgExit 0 (Some ciphertext)) (fst run))
    as (Hframe & _ & Hout).
  - vm_compute. reflexivity.
  - split.
    + apply Hframe; vm_compute; discriminate.
    + apply (Hout 0 ciphertext); [vm_compute; eexists; reflexivity|reflexivity].
Defined.

(** Encrypting a regular file and then decrypting the [.gpg] file without an
    output path puts the decrypted bytes back under the original path: the
    plaintext is gone in between, the default output path of
    [decrypt_file_gpg] is the path [encrypt_file_gpg] was given, and the
    encrypted file is still there at the end. *)
Theorem encrypt_then_decrypt_restores_the_path
    (w : world) (file_path passphrase passphrase' : string)
    (readable : bool) (data cipher plain : list byte) :
  fs w !! file_path = Some (RegularFile readable data) ->
  let w1 := snd (encrypt_file_gpg w file_path passphrase (GpgExit 0 (Some cipher))) in
  let run := decrypt_file_gpg w1 (file_path +:+ ".gpg") passphrase' None
               (GpgExit 0 (Some plain)) in
  fs w1 !! file_path = None
  /\ fs w1 !! (file_path +:+ ".gpg") = Some (RegularFile true cipher)
  /\ fst run = true
  /\ fs (snd run) !! file_path = Some (RegularFile true plain)
  /\ fs (snd run) !! (file_path +:+ ".gpg") = Some (RegularFile true cipher).
Proof.
  intros Hfile.
  assert (Hne : file_path +:+ ".gpg" <> file_path)
    by (apply append_suffix_ne; discriminate).
  assert (Hw1 : fs (snd (encrypt_file_gpg w file_path passphrase
                           (GpgExit 0 (Some cipher))))
                = delete file_path
                    (<[file_path +:+ ".gpg" := RegularFile true cipher]> (fs w))).
  { unfold encrypt_file_gpg. rewrite Hfile. cbn [Z.eqb negb].
    unfold unlink. cbn [subprocess_run_gpg fs write_output].
    rewrite lookup_insert_ne by exact Hne. rewrite Hfile. reflexivity. }
  cbv zeta.
  set (w1 := snd (encrypt_file_gpg w file_path passphrase (GpgExit 0 (Some cipher))))
    in *.
  assert (H1 : fs w1 !! file_path = None) by (rewrite Hw1; apply lookup_delete_eq).
  assert (H2 : fs w1 !! (file_path +:+ ".gpg") = Some (RegularFile true cipher)).
  { rewrite Hw1, lookup_delete_ne by congruence. apply lookup_insert_eq. }
  split; [exact H1|]. split; [exact H2|].
  unfold decrypt_file_gpg. rewrite H2. rewrite removesuffix_append.
  cbn [fst snd subprocess_run_gpg fs write_output Z.eqb].
  split; [reflexivity|]. split.
  - apply lookup_insert_eq.
  - rewrite lookup_insert_ne by congruence. exact H2.
Qed.

Lemma encrypt_then_decrypt_restores_the_path_witness :
  let w1 := snd (encrypt_file_gpg two_dumps "postgres_all.sql" "correct-horse"
                   (GpgExit 0 (Some ciphertext))) in
  let run := decrypt_file_gpg w1 ("postgres_all.sql" +:+ ".gpg") "correct-horse" None
               (GpgExit 0 (Some (bytes_of_string "0123456789"))) in
  fs w1 !! "postgres_all.sql" = None
  /\ fs w1 !! ("postgres_all.sql" +:+ ".gpg") = Some (RegularFile true ciphertext)
  /\ fst run = true
  /\ fs (snd run) !! "postgres_all.sql" = Some (plain_file "0123456789")
  /\ fs (snd run) !! ("postgres_all.sql" +:+ ".gpg") = Some (RegularFile true ciphertext).
Proof.
  apply (encrypt_then_decrypt_restores_the_path two_dumps "postgres_all.sql"
           "correct-horse" "correct-horse" true (bytes_of_string "0123456789")).
  vm_compute. reflexivity.
Defined.

(** ** Manifest generator: the entries, one by one *)

Section ManifestEntries.

Variable d : backup_dir.
Variable backup_type : string.
Variable base_backup : option string.
Variable encrypted : bool.

Lemma database_entry_exact (m m' : dict) (dbs cfg : dict) (total : Z)
    (db_name filename : string) :
  shaped m dbs cfg total ->
  database_entry d backup_type base_backup encrypted m (db_name, filename) = Ok m' ->
  match dir_files d !! stored_name encrypted filename with
  | None => m' = m
  | Some (RegularFile true data) =>
      shaped m'
        (dict_set dbs db_name
           (PDict (expected_entry backup_type base_backup encrypted db_name filename
                     (Z.of_nat (length data)) (sha256_hexdigest data))))
        cfg (total + Z.of_nat (length data))
  | Some _ => False
  end.
Proof.
  intros (Hdbs & Hcfg & Htot) Hrun. unfold database_entry in Hrun.
  fold (stored_name encrypted filename) in Hrun.
  destruct (dir_files d !! stored_name encrypted filename) as [n|] eqn:Hlook.
  2:{ now injection Hrun as <-. }
  destruct (calculate_file_checksum (dir_files d) (stored_name encrypted filename))
    as [sum|e] eqn:Hsum; cbn [bind] in Hrun; [|discriminate].
  apply calculate_file_checksum_Ok in Hsum as (data & Hdata & ->).
  rewrite Hdata in Hlook. injection Hlook as <-.
  cbn [st_size_of] in Hrun.
  unfold setitem2 in Hrun. rewrite Hdbs in Hrun. cbn [bind] in Hrun.
  unfold iadd in Hrun. rewrite dict_get_set_ne in Hrun by discriminate.
  rewrite Htot in Hrun. injection Hrun as <-.
  repeat split.
  - rewrite dict_get_set_ne by discriminate. apply dict_get_set_eq.
  - rewrite !dict_get_set_ne by discriminate. exact Hcfg.
  - apply dict_get_set_eq.
Qed.

Lemma built_entries_keys (xs : list (string * string)) (k : string) :
  ~ In k (map fst xs) ->
  dict_get (built_entries d backup_type base_backup encrypted xs) k = None.
Proof.
  induction xs as [|[db filename] rest IH]; intros Hk; [reflexivity|].
  cbn [built_entries flat_map fst snd].
  fold (built_entries d backup_type base_backup encrypted rest).
  assert (Hne : db <> k) by (intros ->; apply Hk; now left).
  assert (Hrest : ~ In k (map fst rest)) by (intros H; apply Hk; now right).
  destruct (dir_files d !! stored_name encrypted filename) as [[[|] data|sz]|];
    cbn [app dict_get]; try (apply IH, Hrest).
  apply String.eqb_neq in Hne. rewrite Hne. apply IH, Hrest.
Qed.

Lemma dict_get_app_None (a b : dict) (k : string) :
  dict_get a k = None -> dict_get (a ++ b)%list k = dict_get b k.
Proof.
  induction a as [|[k' v] a IH]; [reflexivity|].
  cbn [app dict_get]. destruct (String.eqb k' k); [discriminate|exact IH].
Qed.

(** The loop adds to [databases] the entries of the present sources, in
    order; it gets through only if each stored file that is there can be
    read. *)
Lemma database_loop_exact (xs : list (string * string)) :
  forall (m m' : dict) (dbs cfg : dict) (total : Z),
  List.NoDup (map fst xs) ->
  (forall k, In k (map fst xs) -> dict_get dbs k = None) ->
  shaped m dbs cfg total ->
  for_each (database_entry d backup_type base_backup encrypted) xs m = Ok m' ->
  (exists total',
     shaped m' (dbs ++ built_entries d backup_type base_backup encrypted xs)%list
            cfg total')
  /\ (forall db filename n,
        In (db, filename) xs ->
        dir_files d !! stored_name encrypted filename = Some n ->
        readable_file n = true).
Proof.
  induction xs as [|[db_name filename] rest IH];
    intros m m' dbs cfg total Hnodup Hfresh Hshape Hrun.
  - injection Hrun as <-. split.
    + exists total. cbn [built_entries flat_map]. now rewrite app_nil_r.
    + intros db filename n [].
  - cbn [for_each] in Hrun.
    destruct (database_entry d backup_type base_backup encrypted m (db_name, filename))
      as [m1|e] eqn:Hbody; cbn [bind] in Hrun; [|discriminate].
    cbn [map fst] in Hnodup. apply NoDup_cons_iff in Hnodup as [Hnotin Hnodup].
    pose proof (database_entry_exact _ _ _ _ _ _ _ Hshape Hbody) as Hexact.
    cbn [built_entries flat_map fst snd].
    fold (built_entries d backup_type base_backup encrypted rest).
    destruct (dir_files d !! stored_name encrypted filename) as [[[|] data|sz]|] eqn:Hlook;
      try contradiction.
    + assert (Hnone : dict_get dbs db_name = None) by (apply Hfresh; now left).
      rewrite (dict_set_fresh _ _ _ Hnone) in Hexact.
      match type of Hexact with
      | shaped _ ?dbs1 _ _ =>
          assert (Hfresh' : forall k, In k (map fst rest) -> dict_get dbs1 k = None)
      end.
      { intros k Hk. rewrite dict_get_app_None by (apply Hfresh; now right).
        cbn [dict_get].
        assert (Hne : db_name <> k) by (intros ->; contradiction).
        apply String.eqb_neq in Hne. now rewrite Hne. }
      destruct (IH m1 m' _ cfg _ Hnodup Hfresh' Hexact Hrun)
        as [(total' & Hfinal) Hread].
      split.
      * exists total'. now rewrite <- app_assoc in Hfinal.
      * intros db f n [[= <- <-]|Hin] Hn; [|eauto].
        rewrite Hlook in Hn. now injection Hn as <-.
    + subst m1.
      assert (Hfresh' : forall k, In k (map fst rest) -> dict_get dbs k = None).
      { intros k Hk. apply Hfresh. now right. }
      destruct (IH m m' dbs cfg total Hnodup Hfresh' Hshape Hrun) as [Hfinal Hread].
      split; [exact Hfinal|].
      intros db f n [[= <- <-]|Hin] Hn; [congruence|eauto].
Qed.

End ManifestEntries.

Lemma db_files_names_distinct : List.NoDup (map fst db_files).
Proof. repeat constructor; cbn; intuition discriminate. Qed.

(** The [databases] of a returned manifest, exactly. *)
Lemma create_backup_manifest_databases
    (d d' : backup_dir) (backup_type : string)
    (base_backup previous_backup : option string) (clk : clock) (encrypted : bool)
    (m : dict) :
  create_backup_manifest d backup_type base_backup previous_backup clk encrypted
    = Ok (m, d') ->
  manifest_databases m = built_entries d backup_type base_backup encrypted db_files
  /\ (forall filename n,
        In filename artifact_names ->
        dir_files d !! stored_name encrypted filename = Some n ->
        readable_file n = true).
Proof.
  unfold create_backup_manifest. cbv zeta. intros Hrun.
  destruct (for_each (database_entry d backup_type base_backup encrypted) db_files _)
    as [m1|e] eqn:Hloop; cbn [bind] in Hrun; [|discriminate].
  destruct (config_entry d encrypted m1) as [m2|e] eqn:Hconf;
    cbn [bind] in Hrun; [|discriminate].
  injection Hrun as <- <-.
  destruct (database_loop_exact d backup_type base_backup encrypted db_files
              _ m1 [] [] 0 db_files_names_distinct (fun k _ => eq_refl)
              (start_shaped d backup_type base_backup previous_backup clk encrypted)
              Hloop)
    as [(total & Hshape) Hread].
  cbn [app] in Hshape.
  split.
  - destruct (config_entry_Ok d encrypted m1 m2 _ total Hshape Hconf)
      as [[_ ->] | (c & data & _ & _ & _ & _ & Hshape2 & _)].
    + unfold manifest_databases. now rewrite (proj1 Hshape).
    + unfold manifest_databases. now rewrite (proj1 Hshape2).
  - intros filename n Hin Hn. unfold artifact_names in Hin.
    apply in_app_iff in Hin as [Hin|[<-|[]]].
    + apply in_map_iff in Hin as ([db f] & <- & Hin). eapply Hread; eauto.
    + destruct (config_entry_Ok d encrypted m1 m2 _ total Hshape Hconf)
        as [[Hnone _] | (c & data & Hdata & _)]; [congruence|].
      rewrite Hdata in Hn. now injection Hn as <-.
Qed.

Lemma built_entries_names (d : backup_dir) (backup_type : string)
    (base_backup : option string) (encrypted : bool) (xs : list (string * string)) :
  (forall db filename n,
     In (db, filename) xs ->
     dir_files d !! stored_name encrypted filename = Some n ->
     readable_file n = true) ->
  map fst (built_entries d backup_type base_backup encrypted xs)
  = map fst (List.filter (artifact_present d encrypted) xs).
Proof.
  induction xs as [|[db filename] rest IH]; intros Hread; [reflexivity|].
  cbn [built_entries flat_map List.filter fst snd]. unfold artifact_present at 1.
  cbn [snd]. fold (built_entries d backup_type base_backup encrypted rest).
  assert (IH' := IH (fun db' f n Hin => Hread db' f n (or_intror Hin))).
  destruct (dir_files d !! stored_name encrypted filename) as [n|] eqn:Hlook.
  - pose proof (Hread db filename n (or_introl eq_refl) Hlook) as Hn.
    destruct n as [[|] data|sz]; try discriminate.
    cbn [app map fst]. now rewrite IH'.
  - exact IH'.
Qed.

Lemma built_entries_In (d : backup_dir) (backup_type : string)
    (base_backup : option string) (encrypted : bool) (xs : list (string * string))
    (db : string) (e : pyval) :
  In (db, e) (built_entries d backup_type base_backup encrypted xs) ->
  exists filename data,
    In (db, filename) xs
    /\ dir_files d !! stored_name encrypted filename = Some (RegularFile true data)
    /\ e = PDict (expected_entry backup_type base_backup encrypted db filename
                    (Z.of_nat (length data)) (sha256_hexdigest data)).
Proof.
  induction xs as [|[db' filename] rest IH]; [intros []|].
  cbn [built_entries flat_map fst snd].
  fold (built_entries d backup_type base_backup encrypted rest).
  intros Hin. apply in_app_iff in Hin as [Hin|Hin].
  - destruct (dir_files d !! stored_name encrypted filename) as [[[|] data|sz]|] eqn:Hlook;
      try (now destruct Hin).
    destruct Hin as [[= <- <-]|[]]. exists filename, data.
    split; [now left|]. split; [exact Hlook|reflexivity].
  - destruct (IH Hin) as (f & data & Hf & Hlook & He).
    exists f, data. split; [now right|]. split; assumption.
Qed.

Lemma expected_entry_fields (backup_type : string) (base_backup : option string)
    (encrypted : bool) (db_name filename : string) (size : Z) (digest : string) :
  let e := expected_entry backup_type base_backup encrypted db_name filename size digest in
  dict_get e "type"
  = Some (PStr (if String.eqb db_name "forgejo" then backup_type else "full"))
  /\ dict_get e "file" = Some (PStr (stored_name encrypted filename))
  /\ dict_get e "original_file" = (if encrypted then Some (PStr filename) else None)
  /\ dict_get e "base_backup"
     = (if String.eqb db_name "forgejo" && String.eqb backup_type "incremental"
           && truthy (opt_str base_backup)
        then Some (opt_str base_backup) else None).
Proof.
  cbv zeta. unfold expected_entry.
  destruct encrypted;
    destruct (String.eqb db_name "forgejo" && String.eqb backup_type "incremental"
              && truthy (opt_str base_backup));
    repeat split; reflexivity.
Qed.

(** The database entries of a returned manifest are those of the sources
    whose stored file is in the directory, in the order postgres, mysql,
    mongodb, forgejo.  Each entry names the stored file; it has an
    [original_file], the plaintext name, exactly in an encrypted backup; its
    [type] is the backup type for forgejo and "full" for the databases; and
    it has a [base_backup] exactly for forgejo in an incremental backup with
    a base. *)
Theorem manifest_entries_follow_the_sources
    (d d' : backup_dir) (backup_type : string)
    (base_backup previous_backup : option string) (clk : clock) (encrypted : bool)
    (m : dict) :
  create_backup_manifest d backup_type base_backup previous_backup clk encrypted
    = Ok (m, d') ->
  map fst (manifest_databases m)
  = map fst (List.filter (artifact_present d encrypted) db_files)
  /\ (forall db e,
        In (db, e) (manifest_databases m) ->
        exists filename items,
          In (db, filename) db_files
          /\ e = PDict items
          /\ dict_get items "file" = Some (PStr (stored_name encrypted filename))
          /\ dict_get items "original_file"
             = (if encrypted then Some (PStr filename) else None)
          /\ dict_get items "type"
             = Some (PStr (if String.eqb db "forgejo" then backup_type else "full"))
          /\ dict_get items "base_backup"
             = (if String.eqb db "forgejo" && String.eqb backup_type "incremental"
                   && truthy (opt_str base_backup)
                then Some (opt_str base_backup) else None)).
Proof.
  intros Hrun.
  apply create_backup_manifest_databases in Hrun as [-> Hread].
  split.
  - apply built_entries_names. intros db filename n Hin Hn.
    apply (Hread filename n); [|exact Hn].
    unfold artifact_names. apply in_app_iff. left.
    apply in_map_iff. now exists (db, filename).
  - intros db e Hin.
    apply built_entries_In in Hin as (filename & data & Hf & _ & ->).
    exists filename,
      (expected_entry backup_type base_backup encrypted db filename
         (Z.of_nat (length data)) (sha256_hexdigest data)).
    split; [exact Hf|]. split; [reflexivity|].
    pose proof (expected_entry_fields backup_type base_backup encrypted db filename
                  (Z.of_nat (length data)) (sha256_hexdigest data)) as H.
    cbv zeta in H. tauto.
Qed.

Lemma manifest_entries_follow_the_sources_witness :
  exists m d',
    create_backup_manifest three_sources "full" None None noon false = Ok (m, d')
    /\ map fst (manifest_databases m) = ["postgres"; "mysql"].
Proof.
  pose (run := create_backup_manifest three_sources "full" None None noon false).
  pose (m := match run with Ok (m, _) => m | Raise _ => [] end).
  pose (d' := match run with Ok (_, d') => d' | Raise _ => three_sources end).
  assert (Hrun : create_backup_manifest three_sources "full" None None noon false
                 = Ok (m, d')) by (vm_compute; reflexivity).
  exists m, d'. split; [exact Hrun|].
  rewrite (proj1 (manifest_entries_follow_the_sources
                    three_sources d' "full" None None noon false m Hrun)).
  vm_compute. reflexivity.
Defined.

(** [create_backup_manifest] raises exactly when one of the five artifacts
    it looks for (the stored file of a database source or of the config) is
    in the directory and is not a regular file that can be read; the
    artifacts that are absent never make it raise. *)
Theorem manifest_generation_fails_only_on_unreadable_artifact
    (d : backup_dir) (backup_type : string)
    (base_backup previous_backup : option string) (clk : clock) (encrypted : bool) :
  (exists e,
     create_backup_manifest d backup_type base_backup previous_backup clk encrypted
     = Raise e)
  <-> exists filename n,
        In filename artifact_names
        /\ dir_files d !! stored_name encrypted filename = Some n
        /\ readable_file n = false.
Proof.
  set (bad := fun filename =>
                match dir_files d !! stored_name encrypted filename with
                | Some n => negb (readable_file n)
                | None => false
                end).
  split.
  - intros [e Hraise].
    destruct (existsb bad artifact_names) eqn:Hbad.
    + apply existsb_exists in Hbad as (filename & Hin & Hb). unfold bad in Hb.
      destruct (dir_files d !! stored_name encrypted filename) as [n|] eqn:Hn;
        [|discriminate].
      exists filename, n. apply negb_true_iff in Hb. auto.
    + exfalso.
      assert (Hgood : forall filename n,
                 In filename artifact_names ->
                 dir_files d !! stored_name encrypted filename = Some n ->
                 exists data, n = RegularFile true data).
      { intros filename n Hin Hn.
        pose proof (proj2 (Bool.not_true_iff_false _) Hbad) as Hnone.
        destruct n as [[|] data|sz]; [now exists data| |];
          exfalso; apply Hnone, existsb_exists; exists filename;
          (split; [exact Hin|]); unfold bad; now rewrite Hn. }
      revert Hraise. unfold create_backup_manifest. cbv zeta.
      destruct (database_loop_total d backup_type base_backup encrypted db_files
                  _ [] [] 0
                  (start_shaped d backup_type base_backup previous_backup clk encrypted))
        as (m1 & dbs & total & Hloop & Hshape).
      { intros db f n Hin Hn. apply (Hgood f n); [|exact Hn].
        unfold artifact_names. apply in_app_iff. left.
        apply in_map_iff. now exists (db, f). }
      rewrite Hloop. cbn [bind]. destruct Hshape as (Hdbs & Hcfg & Htot).
      unfold config_entry.
      assert (Hname : (if encrypted then ".env.backup.gpg" else ".env.backup")
                      = stored_name encrypted ".env.backup") by (now destruct encrypted).
      rewrite !Hname.
      destruct (dir_files d !! stored_name encrypted ".env.backup") as [n|] eqn:Hlook;
        cbn [bind]; [|discriminate].
      destruct (Hgood ".env.backup" n) as (data & ->); [|exact Hlook|].
      { unfold artifact_names. apply in_app_iff. right. now left. }
      rewrite (calculate_file_checksum_readable _ _ _ Hlook). cbn [bind st_size_of].
      unfold iadd. rewrite dict_get_set_ne by discriminate. rewrite Htot.
      cbn [bind]. discriminate.
  - intros (filename & n & Hin & Hn & Hbad).
    destruct (create_backup_manifest d backup_type base_backup previous_backup clk
                encrypted) as [[m d']|e] eqn:Hrun; [|now exists e].
    apply create_backup_manifest_databases in Hrun as [_ Hread].
    rewrite (Hread filename n Hin Hn) in Hbad. discriminate.
Qed.

(** The fields written before the loops are in the returned manifest as
    they were set: [backup_id] is the name of the directory, [timestamp] the
    clock reading, [vault_approle_used] true, and the [encryption] block
    (algorithm, method and a hint, no secret) is there exactly in an
    encrypted manifest. *)
Theorem manifest_header_is_kept
    (d d' : backup_dir) (backup_type : string)
    (base_backup previous_backup : option string) (clk : clock) (encrypted : bool)
    (m : dict) :
  create_backup_manifest d backup_type base_backup previous_backup clk encrypted
    = Ok (m, d') ->
  dict_get m "backup_id" = Some (PStr (dir_name d))
  /\ dict_get m "timestamp" = Some (PStr (now_isoformat clk))
  /\ dict_get m "previous_backup" = Some (opt_str previous_backup)
  /\ dict_get m "encrypted" = Some (PBool encrypted)
  /\ dict_get m "vault_approle_used" = Some (PBool true)
  /\ dict_get m "encryption" = (if encrypted then Some encryption_metadata else None).
Proof.
  intros Hrun. apply create_backup_manifest_Ok in Hrun as (_ & Hhdr & _).
  repeat split; (rewrite Hhdr by discriminate); unfold starting_manifest;
    destruct encrypted; reflexivity.
Qed.

Lemma manifest_header_is_kept_witness :
  exists m d',
    create_backup_manifest half_encrypted "full" None None noon true = Ok (m, d')
    /\ dict_get m "backup_id" = Some (PStr "20251117_080000")
    /\ dict_get m "encryption" = Some encryption_metadata.
Proof.
  pose (run := create_backup_manifest half_encrypted "full" None None noon true).
  pose (m := match run with Ok (m, _) => m | Raise _ => [] end).
  pose (d' := match run with Ok (_, d') => d' | Raise _ => half_encrypted end).
  assert (Hrun : create_backup_manifest half_encrypted "full" None None noon true
                 = Ok (m, d')) by (vm_compute; reflexivity).
  exists m, d'. split; [exact Hrun|].
  destruct (manifest_header_is_kept half_encrypted d' "full" None None noon true m Hrun)
    as (Hid & _ & _ & _ & _ & Henc).
  split; [exact Hid|exact Henc].
Defined.

(** ** Integrity verifier: what a pass means *)

Section VerifierSoundness.

Variable d : backup_dir.







End VerifierSoundness.



(** ** Integrity verifier: a manifest against a later state of the files *)

Lemma tallies_nil (r : report) : tallies r r [].
Proof. unfold tallies. cbn. rewrite app_nil_r. repeat split; lia. Qed.

Lemma tallies_app (r1 r2 r3 : report) (ds1 ds2 : list detail) :
  tallies r1 r2 ds1 -> tallies r2 r3 ds2 -> tallies r1 r3 (ds1 ++ ds2).
Proof.
  unfold tallies. intros (Hd1 & Hv1 & Hf1 & Ht1 & Hw1) (Hd2 & Hv2 & Hf2 & Ht2 & Hw2).
  rewrite !List.filter_app, !length_app, !Nat2Z.inj_add.
  repeat split; try lia; try congruence.
  now rewrite Hd2, Hd1, app_assoc.
Qed.

Section LaterState.

(** [d] is the directory the manifest was written for, [files] what the
    directory holds when it is verified. *)
Variable d : backup_dir.
Variable files : gmap string node.
Variable name : string.
Variable manifest_state : manifest_file.

#[local] Abbreviation later := (BackupDir name files manifest_state).

Lemma check_stored_file_tallies (r : report) (stored digest : string) :
  tallies r (check_stored_file later r stored digest) [recheck files digest stored].
Proof.
  unfold check_stored_file, recheck, tallies. cbn [dir_files].
  destruct (files !! stored) as [n|] eqn:Hn.
  2:{ cbn. repeat split; lia. }
  unfold calculate_file_checksum, open_rb. rewrite Hn.
  destruct n as [[|] data|sz]; cbn [bind].
  - rewrite fold_update_concat, read_blocks_concat by lia. cbn [app sha256_new].
    destruct (String.eqb (sha256_hexdigest data) digest); cbn; repeat split; lia.
  - cbn. repeat split; lia.
  - cbn. repeat split; lia.
Qed.

Lemma verify_database_tallies (r : report) (db stored : string) (e : pyval) :
  describes d "file" stored e -> stored <> "" ->
  exists r',
    verify_database later r (db, e) = Ok r'
    /\ tallies r r' [recheck files (recorded_digest d stored) stored].
Proof.
  intros (items & data & -> & Hfile & Hdata & Hsize & Hchk) Hne.
  unfold verify_database. cbn [py_get]. rewrite Hfile, Hchk. cbn [bind].
  rewrite (truthy_str _ Hne). cbn [negb path_operand bind].
  rewrite strip_sha256_tagged. cbn [bind].
  eexists. split; [reflexivity|].
  unfold recorded_digest. rewrite Hdata. apply check_stored_file_tallies.
Qed.

Lemma verify_config_tallies (r : report) (stored : string) (e : pyval) :
  describes d "env_file" stored e -> stored <> "" ->
  exists r',
    verify_config later r e = Ok r'
    /\ tallies r r' [recheck files (recorded_digest d stored) stored].
Proof.
  intros (items & data & -> & Hfile & Hdata & Hsize & Hchk) Hne.
  unfold verify_config. cbn [py_get]. rewrite Hfile, Hchk. cbn [bind].
  rewrite (truthy_str _ Hne). cbn [path_operand bind].
  rewrite strip_sha256_tagged. cbn [bind].
  eexists. split; [reflexivity|].
  unfold recorded_digest. rewrite Hdata. apply check_stored_file_tallies.
Qed.

Lemma verify_databases_tallies (items : list (string * pyval)) (names : list string) :
  Forall2 (fun item stored => describes d "file" stored (snd item) /\ stored <> "")
          items names ->
  forall r,
  exists r',
    for_each (verify_database later) items r = Ok r'
    /\ tallies r r' (map (fun stored => recheck files (recorded_digest d stored) stored)
                         names).
Proof.
  induction 1 as [|[db e] stored items names [Hdesc Hne] Hrest IH]; intros r.
  - exists r. split; [reflexivity|apply tallies_nil].
  - destruct (verify_database_tallies r db stored e Hdesc Hne) as (r1 & Hbody & Ht1).
    destruct (IH r1) as (r' & Hloop & Ht2).
    exists r'. cbn [for_each]. rewrite Hbody. cbn [bind]. split; [exact Hloop|].
    cbn [map]. apply (tallies_app r r1 r' [_] _ Ht1 Ht2).
Qed.

End LaterState.

Lemma expected_entry_describes (d : backup_dir) (backup_type : string)
    (base_backup : option string) (encrypted : bool) (db filename : string)
    (data : list byte) :
  dir_files d !! stored_name encrypted filename = Some (RegularFile true data) ->
  describes d "file" (stored_name encrypted filename)
    (PDict (expected_entry backup_type base_backup encrypted db filename
              (Z.of_nat (length data)) (sha256_hexdigest data))).
Proof.
  intros Hdata. eexists _, data. split; [reflexivity|].
  unfold expected_entry.
  destruct encrypted;
    destruct (String.eqb db "forgejo" && String.eqb backup_type "incremental"
              && truthy (opt_str base_backup));
    repeat split; solve [reflexivity | exact Hdata].
Qed.

(** The built entries and the stored files they describe, side by side. *)
Lemma built_entries_described (d : backup_dir) (backup_type : string)
    (base_backup : option string) (encrypted : bool) (xs : list (string * string)) :
  (forall db filename, In (db, filename) xs -> In (db, filename) db_files) ->
  (forall db filename n,
     In (db, filename) xs ->
     dir_files d !! stored_name encrypted filename = Some n ->
     readable_file n = true) ->
  Forall2 (fun item stored => describes d "file" stored (snd item) /\ stored <> "")
    (built_entries d backup_type base_backup encrypted xs)
    (map (stored_name encrypted)
       (List.filter
          (fun filename =>
             match dir_files d !! stored_name encrypted filename with
             | Some _ => true
             | None => false
             end)
          (map snd xs))).
Proof.
  induction xs as [|[db filename] rest IH]; intros Hsub Hread; [constructor|].
  cbn [built_entries flat_map map List.filter fst snd].
  fold (built_entries d backup_type base_backup encrypted rest).
  assert (IH' := IH (fun db' f Hin => Hsub db' f (or_intror Hin))
                    (fun db' f n Hin => Hread db' f n (or_intror Hin))).
  destruct (dir_files d !! stored_name encrypted filename) as [n|] eqn:Hlook.
  - pose proof (Hread db filename n (or_introl eq_refl) Hlook) as Hn.
    destruct n as [[|] data|sz]; try discriminate.
    cbn [app map]. constructor; [|exact IH'].
    cbn [snd]. split.
    + now apply expected_entry_describes.
    + apply (stored_name_nonempty encrypted db). apply Hsub. now left.
  - exact IH'.
Qed.

(** A manifest written for [d], verified against any later content [files]
    of the directory. *)
Lemma verify_against_later_files
    (d d' : backup_dir) (backup_type : string)
    (base_backup previous_backup : option string) (clk : clock) (encrypted : bool)
    (m : dict) (files : gmap string node) :
  create_backup_manifest d backup_type base_backup previous_backup clk encrypted
    = Ok (m, d') ->
  exists r,
    verify_backup_integrity (BackupDir (dir_name d) files (ManifestJson (PDict m)))
    = Ok (success_of r, r)
    /\ details r
       = map (fun stored => recheck files (recorded_digest d stored) stored)
             (present_artifacts d encrypted)
    /\ files_total r = Z.of_nat (length (details r))
    /\ files_verified r = Z.of_nat (length (List.filter is_ok (details r)))
    /\ files_failed r = Z.of_nat (length (List.filter not_ok (details r))).
Proof.
  intros Hrun.
  pose proof (create_backup_manifest_header _ _ _ _ _ _ _ _ Hrun)
    as (Hid & Htype & _ & _ & Henc).
  pose proof (create_backup_manifest_databases _ _ _ _ _ _ _ _ Hrun) as [Hdbs_eq Hread].
  apply create_backup_manifest_Ok in Hrun
    as (_ & _ & dbs & cfg & total & (Hdbs & Hcfg & Htot) & _ & _ & _ & Hconf).
  unfold manifest_databases in Hdbs_eq. rewrite Hdbs in Hdbs_eq. subst dbs.
  set (later := BackupDir (dir_name d) files (ManifestJson (PDict m))).
  set (check := fun stored => recheck files (recorded_digest d stored) stored).
  unfold verify_backup_integrity. cbn [later dir_manifest].
  rewrite first_missing_dict.
  cbn [required_fields List.find]. unfold dict_has.
  rewrite Hid, Htype, Henc, Hdbs. cbn [negb bind].
  unfold verify_files. cbn [py_get]. rewrite Hdbs. cbn [bind py_len py_items].
  unfold truthy_config. rewrite Hcfg.
  pose proof (built_entries_described d backup_type base_backup encrypted db_files
                (fun _ _ H => H)) as Hdesc.
  specialize (Hdesc ltac:(intros db f n Hin Hn; apply (Hread f n); [|exact Hn];
                          unfold artifact_names; apply in_app_iff; left;
                          apply in_map_iff; now exists (db, f))).
  set (db_names := map (stored_name encrypted)
                     (List.filter
                        (fun filename =>
                           match dir_files d !! stored_name encrypted filename with
                           | Some _ => true
                           | None => false
                           end) (map snd db_files))) in *.
  assert (Hlen : length (built_entries d backup_type base_backup encrypted db_files)
                 = length db_names) by (eapply Forall2_length; exact Hdesc).
  assert (Hsplit : present_artifacts d encrypted
                   = (db_names
                      ++ match dir_files d !! stored_name encrypted ".env.backup" with
                         | Some _ => [stored_name encrypted ".env.backup"]
                         | None => []
                         end)%list).
  { unfold present_artifacts, artifact_names.
    rewrite List.filter_app, map_app. fold db_names. f_equal.
    cbn [List.filter]. now destruct (dir_files d !! stored_name encrypted ".env.backup"). }
  match goal with
  | |- context [for_each ?body ?items ?r0] =>
      destruct (verify_databases_tallies d files (dir_name d) (ManifestJson (PDict m))
                  items db_names Hdesc r0) as (r1 & Hloop & Ht1)
  end.
  fold later in Hloop. rewrite Hloop. cbn [bind].
  destruct Hconf as [[-> Hnone] | [Hne Hdescc]].
  - cbn [truthy] in *. exists r1. split; [reflexivity|].
    rewrite Hsplit, Hnone, app_nil_r.
    destruct Ht1 as (Hd & Hv & Hf & Ht & _). fold check in Hd, Hv, Hf.
    cbn [details files_verified files_failed files_total set_total empty_report app]
      in Hd, Hv, Hf, Ht.
    rewrite Hd. repeat split; try lia.
    rewrite Ht, length_map, <- Hlen. reflexivity.
  - assert (Htruthy : truthy (PDict cfg) = true)
      by (destruct cfg; [contradiction|reflexivity]).
    rewrite Htruthy in *.
    destruct (verify_config_tallies d files (dir_name d) (ManifestJson (PDict m)) r1
                (stored_name encrypted ".env.backup") (PDict cfg) Hdescc)
      as (r2 & Hc & Ht2).
    { destruct encrypted; discriminate. }
    fold later in Hc. rewrite Hc. cbn [bind].
    exists r2. split; [reflexivity|].
    destruct Hdescc as (items & data & _ & _ & Hdata & _).
    rewrite Hsplit, Hdata, map_app. cbn [map]. fold check.
    pose proof (tallies_app _ _ _ _ _ Ht1 Ht2) as (Hd & Hv & Hf & Ht & _).
    fold check in Hd, Hv, Hf.
    cbn [details files_verified files_failed files_total set_total empty_report app]
      in Hd, Hv, Hf, Ht.
    rewrite Hd. repeat split; try lia.
    rewrite Ht, length_app, !length_map, <- Hlen. cbn [length]. lia.
Qed.

Lemma recheck_file (files : gmap string node) (digest stored : string) :
  detail_file (recheck files digest stored) = stored.
Proof.
  unfold recheck. destruct (files !! stored) as [[[|] data|sz]|]; try reflexivity.
  now destruct (String.eqb _ _).
Qed.

Lemma recheck_ok (files : gmap string node) (digest stored : string) :
  is_ok (recheck files digest stored) = true
  <-> exists data,
        files !! stored = Some (RegularFile true data)
        /\ sha256_hexdigest data = digest.
Proof.
  unfold recheck, is_ok.
  destruct (files !! stored) as [[[|] data|sz]|]; cbn [detail_status];
    try (split; [discriminate|intros (x & [=] & _)]).
  destruct (String.eqb (sha256_hexdigest data) digest) eqn:Heq; cbn [detail_status].
  - apply String.eqb_eq in Heq. split; [eauto|reflexivity].
  - apply String.eqb_neq in Heq. split; [discriminate|].
    intros (x & [= <-] & Hx). contradiction.
Qed.

Lemma filter_ok_partition (ds : list detail) :
  (length (List.filter is_ok ds) + length (List.filter not_ok ds) = length ds)%nat.
Proof.
  induction ds as [|dt ds IH]; [reflexivity|].
  cbn [List.filter]. unfold not_ok at 1.
  destruct (is_ok dt); cbn [negb length]; lia.
Qed.

Lemma filter_not_ok_nil (ds : list detail) :
  List.filter not_ok ds = [] <-> forall dt, In dt ds -> is_ok dt = true.
Proof.
  induction ds as [|dt ds IH]; [split; [intros _ x []|reflexivity]|].
  cbn [List.filter]. unfold not_ok at 1.
  destruct (is_ok dt) eqn:Hdt; cbn [negb].
  - rewrite IH. split.
    + intros H x [<-|Hx]; auto.
    + intros H x Hx. apply H. now right.
  - split; [discriminate|]. intros H. specialize (H dt (or_introl eq_refl)). congruence.
Qed.

(** Verifying a directory against a manifest that [create_backup_manifest]
    wrote for it never raises, whatever has become of the files since; it
    counts one file per artifact that was there when the manifest was
    written; and it reports success exactly when each of these files is
    still there, readable, with the digest it had then. *)
Theorem verification_succeeds_iff_files_are_intact
    (d d' : backup_dir) (backup_type : string)
    (base_backup previous_backup : option string) (clk : clock) (encrypted : bool)
    (m : dict) (files : gmap string node) :
  create_backup_manifest d backup_type base_backup previous_backup clk encrypted
    = Ok (m, d') ->
  exists s r,
    verify_backup_integrity (BackupDir (dir_name d) files (ManifestJson (PDict m)))
    = Ok (s, r)
    /\ files_total r = Z.of_nat (length (present_artifacts d encrypted))
    /\ (s = true <->
        forall stored,
          In stored (present_artifacts d encrypted) ->
          exists data,
            files !! stored = Some (RegularFile true data)
            /\ sha256_hexdigest data = recorded_digest d stored).
Proof.
  intros Hrun.
  destruct (verify_against_later_files _ _ _ _ _ _ _ _ files Hrun)
    as (r & Hver & Hdet & Htot & Hv & Hf).
  exists (success_of r), r. split; [exact Hver|].
  split; [now rewrite Htot, Hdet, length_map|].
  rewrite success_of_true.
  pose proof (filter_ok_partition (details r)) as Hpart.
  split.
  - intros [Hfail _] stored Hin. apply recheck_ok.
    assert (Hnil : List.filter not_ok (details r) = []).
    { destruct (List.filter not_ok (details r)); [reflexivity|]. cbn in Hf. lia. }
    apply (proj1 (filter_not_ok_nil _) Hnil). rewrite Hdet.
    apply in_map_iff. now exists stored.
  - intros Hall.
    assert (Hnil : List.filter not_ok (details r) = []).
    { apply filter_not_ok_nil. intros dt Hdt. rewrite Hdet in Hdt.
      apply in_map_iff in Hdt as (stored & <- & Hin). apply recheck_ok. auto. }
    rewrite Hnil in Hf, Hpart. cbn [length] in Hf, Hpart. lia.
Qed.

Lemma verification_succeeds_iff_files_are_intact_witness :
  exists m d' s r,
    create_backup_manifest three_sources "full" None None noon false = Ok (m, d')
    /\ verify_backup_integrity
         (BackupDir "20251117_080000" (delete "mysql_all.sql" (dir_files three_sources))
                    (ManifestJson (PDict m)))
       = Ok (s, r)
    /\ files_total r = 3.
Proof.
  pose (run := create_backup_manifest three_sources "full" None None noon false).
  pose (m := match run with Ok (m, _) => m | Raise _ => [] end).
  pose (d' := match run with Ok (_, d') => d' | Raise _ => three_sources end).
  assert (Hrun : create_backup_manifest three_sources "full" None None noon false
                 = Ok (m, d')) by (vm_compute; reflexivity).
  destruct (verification_succeeds_iff_files_are_intact
              three_sources d' "full" None None noon false m
              (delete "mysql_all.sql" (dir_files three_sources)) Hrun)
    as (s & r & Hver & Htot & _).
  exists m, d', s, r. split; [exact Hrun|]. split; [exact Hver|].
  rewrite Htot. vm_compute. reflexivity.
Defined.

Lemma present_artifacts_NoDup (d : backup_dir) (encrypted : bool) :
  List.NoDup (present_artifacts d encrypted).
Proof.
  unfold present_artifacts.
  assert (Hall : List.NoDup (map (stored_name encrypted) artifact_names)).
  { destruct encrypted; vm_compute; repeat constructor; cbn; intuition discriminate. }
  revert Hall. generalize artifact_names as names.
  induction names as [|x names IH]; intros Hall; [constructor|].
  cbn [map] in Hall. apply NoDup_cons_iff in Hall as [Hx Hall].
  cbn [List.filter].
  destruct (dir_files d !! stored_name encrypted x); [|now apply IH].
  cbn [map]. constructor; [|now apply IH].
  intros Hin. apply Hx. apply in_map_iff in Hin as (y & Hy & Hin).
  apply List.filter_In in Hin as [Hin _]. apply in_map_iff. now exists y.
Qed.

Lemma present_artifacts_readable
    (d d' : backup_dir) (backup_type : string)
    (base_backup previous_backup : option string) (clk : clock) (encrypted : bool)
    (m : dict) (stored : string) :
  create_backup_manifest d backup_type base_backup previous_backup clk encrypted
    = Ok (m, d') ->
  In stored (present_artifacts d encrypted) ->
  exists data,
    dir_files d !! stored = Some (RegularFile true data)
    /\ recorded_digest d stored = sha256_hexdigest data.
Proof.
  intros Hrun Hin.
  apply create_backup_manifest_databases in Hrun as [_ Hread].
  unfold present_artifacts in Hin.
  apply in_map_iff in Hin as (filename & <- & Hin).
  apply List.filter_In in Hin as [Hin Hpresent].
  destruct (dir_files d !! stored_name encrypted filename) as [n|] eqn:Hn;
    [|discriminate].
  pose proof (Hread filename n Hin Hn) as Hgood.
  destruct n as [[|] data|sz]; try discriminate.
  exists data. split; [reflexivity|]. unfold recorded_digest. now rewrite Hn.
Qed.

Lemma one_detail_not_ok (check : string -> detail) (stored : string)
    (names : list string) :
  List.NoDup names -> In stored names ->
  is_ok (check stored) = false ->
  (forall y, In y names -> y <> stored -> is_ok (check y) = true) ->
  length (List.filter not_ok (map check names)) = 1%nat.
Proof.
  induction names as [|x names IH]; intros Hnodup Hin Hbad Hgood; [destruct Hin|].
  apply NoDup_cons_iff in Hnodup as [Hx Hnodup].
  cbn [map List.filter]. unfold not_ok at 1.
  destruct Hin as [->|Hin].
  - rewrite Hbad. cbn [negb length]. f_equal.
    assert (Hnil : List.filter not_ok (map check names) = []).
    { apply filter_not_ok_nil. intros dt Hdt.
      apply in_map_iff in Hdt as (y & <- & Hy). apply Hgood; [now right|].
      intros ->. contradiction. }
    now rewrite Hnil.
  - rewrite (Hgood x (or_introl eq_refl)) by (intros ->; contradiction).
    cbn [negb]. apply IH; auto.
    intros y Hy. apply Hgood. now right.
Qed.

(** A manifest written for a directory finds the one file that has changed
    since: when one of the stored files is deleted, made unreadable or
    replaced by bytes with another digest, and the others are as they were,
    [verify_backup_integrity] returns success false with [files_failed] 1;
    the detail of the changed file is the only one whose status is not ok. *)
Theorem verification_reports_the_changed_file
    (d d' : backup_dir) (backup_type : string)
    (base_backup previous_backup : option string) (clk : clock) (encrypted : bool)
    (m : dict) (files : gmap string node) (stored : string) :
  create_backup_manifest d backup_type base_backup previous_backup clk encrypted
    = Ok (m, d') ->
  In stored (present_artifacts d encrypted) ->
  (forall q, q <> stored -> files !! q = dir_files d !! q) ->
  is_ok (recheck files (recorded_digest d stored) stored) = false ->
  exists r,
    verify_backup_integrity (BackupDir (dir_name d) files (ManifestJson (PDict m)))
    = Ok (false, r)
    /\ files_failed r = 1
    /\ files_verified r = files_total r - 1
    /\ In (recheck files (recorded_digest d stored) stored) (details r)
    /\ (forall dt, In dt (details r) -> detail_file dt <> stored ->
                   detail_status dt = StatusOk).
Proof.
  intros Hrun Hin Hsame Hbad.
  destruct (verify_against_later_files _ _ _ _ _ _ _ _ files Hrun)
    as (r & Hver & Hdet & Htot & Hv & Hf).
  set (check := fun name => recheck files (recorded_digest d name) name) in *.
  assert (Hgood : forall y, In y (present_artifacts d encrypted) -> y <> stored ->
                            is_ok (check y) = true).
  { intros y Hy Hne. apply recheck_ok.
    destruct (present_artifacts_readable _ _ _ _ _ _ _ _ y Hrun Hy) as (data & Hd & Hr).
    exists data. rewrite (Hsame y Hne). auto. }
  assert (Hone : length (List.filter not_ok (details r)) = 1%nat).
  { rewrite Hdet. apply (one_detail_not_ok check stored); auto.
    apply present_artifacts_NoDup. }
  pose proof (filter_ok_partition (details r)) as Hpart.
  assert (Hs : success_of r = false).
  { destruct (success_of r) eqn:Hs; [|reflexivity].
    apply success_of_true in Hs. lia. }
  exists r. rewrite Hs in Hver. split; [exact Hver|].
  split; [lia|]. split; [lia|]. split.
  - rewrite Hdet. apply in_map_iff. now exists stored.
  - intros dt Hdt Hfile. rewrite Hdet in Hdt.
    apply in_map_iff in Hdt as (y & <- & Hy).
    unfold check in Hfile. rewrite recheck_file in Hfile.
    specialize (Hgood y Hy Hfile). unfold is_ok in Hgood.
    now destruct (detail_status (check y)).
Qed.

Lemma verification_reports_the_changed_file_witness :
  exists m d' r,
    create_backup_manifest three_sources "full" None None noon false = Ok (m, d')
    /\ verify_backup_integrity
         (BackupDir "20251117_080000"
            (<["mysql_all.sql" := plain_file "01234567890123456780"]>
               (dir_files three_sources))
            (ManifestJson (PDict m)))
       = Ok (false, r)
    /\ files_failed r = 1
    /\ In (Detail "mysql_all.sql" StatusChecksumMismatch 20) (details r).
Proof.
  pose (run := create_backup_manifest three_sources "full" None None noon false).
  pose (m := match run with Ok (m, _) => m | Raise _ => [] end).
  pose (d' := match run with Ok (_, d') => d' | Raise _ => three_sources end).
  assert (Hrun : create_backup_manifest three_sources "full" None None noon false
                 = Ok (m, d')) by (vm_compute; reflexivity).
  destruct (verification_reports_the_changed_file
              three_sources d' "full" None None noon false m
              (<["mysql_all.sql" := plain_file "01234567890123456780"]>
                 (dir_files three_sources))
              "mysql_all.sql" Hrun)
    as (r & Hver & Hfail & _ & Hin & _).
  - vm_compute. tauto.
  - intros q Hq. now apply lookup_insert_ne.
  - vm_compute. reflexivity.
  - exists m, d', r. split; [exact Hrun|]. split; [exact Hver|].
    split; [exact Hfail|].
    replace (Detail "mysql_all.sql" StatusChecksumMismatch 20)
      with (recheck (<["mysql_all.sql" := plain_file "01234567890123456780"]>
                       (dir_files three_sources))
                    (recorded_digest three_sources "mysql_all.sql") "mysql_all.sql")
      by (vm_compute; reflexivity).
    exact Hin.
Defined.

(** ** Chain resolver: the order of the scan *)

Section StringOrder.

Lemma ascii_compare_lt_trans (a b c : ascii) :
  Ascii.compare a b = Lt -> Ascii.compare b c = Lt -> Ascii.compare a c = Lt.
Proof.
  unfold Ascii.compare. rewrite !N.compare_lt_iff. apply N.lt_trans.
Qed.

Lemma string_compare_lt_trans (s1 : string) :
  forall s2 s3,
  String.compare s1 s2 = Lt -> String.compare s2 s3 = Lt -> String.compare s1 s3 = Lt.
Proof.
  induction s1 as [|a s1 IH]; intros [|b s2] [|c s3]; cbn [String.compare];
    try discriminate; try reflexivity.
  destruct (Ascii.compare a b) eqn:Hab; try discriminate;
    destruct (Ascii.compare b c) eqn:Hbc; try discriminate.
  - apply Ascii.compare_eq_iff in Hab, Hbc. subst.
    replace (Ascii.compare c c) with Eq
      by (symmetry; unfold Ascii.compare; apply N.compare_refl).
    apply IH.
  - apply Ascii.compare_eq_iff in Hab. subst. now rewrite Hbc.
  - apply Ascii.compare_eq_iff in Hbc. subst. now rewrite Hab.
  - now rewrite (ascii_compare_lt_trans a b c Hab Hbc).
Qed.

Lemma string_leb_trans (s1 s2 s3 : string) :
  String.leb s1 s2 = true -> String.leb s2 s3 = true -> String.leb s1 s3 = true.
Proof.
  unfold String.leb.
  destruct (String.compare s1 s2) eqn:H12; try discriminate;
    destruct (String.compare s2 s3) eqn:H23; try discriminate; intros _ _.
  - apply String.compare_eq_iff in H12. subst. now rewrite H23.
  - apply String.compare_eq_iff in H12. subst. now rewrite H23.
  - apply String.compare_eq_iff in H23. subst. now rewrite H12.
  - now rewrite (string_compare_lt_trans _ _ _ H12 H23).
Qed.

Lemma string_leb_refl (s : string) : String.leb s s = true.
Proof. destruct (String.leb_total s s); assumption. Qed.

End StringOrder.

Section ScanOrder.

Lemma insert_desc_In (e x : root_entry) (l : list root_entry) :
  In x (insert_desc e l) <-> x = e \/ In x l.
Proof.
  induction l as [|y l IH]; cbn [insert_desc].
  - cbn. intuition.
  - destruct (String.leb (entry_name y) (entry_name e)); cbn [In].
    + intuition.
    + rewrite IH. intuition.
Qed.

Lemma insert_desc_Permutation (e : root_entry) (l : list root_entry) :
  Permutation (insert_desc e l) (e :: l).
Proof.
  induction l as [|y l IH]; cbn [insert_desc]; [reflexivity|].
  destruct (String.leb (entry_name y) (entry_name e)); [reflexivity|].
  rewrite IH. apply perm_swap.
Qed.

Lemma sorted_reverse_Permutation (es : list root_entry) :
  Permutation (sorted_reverse es) es.
Proof.
  induction es as [|e es IH]; [reflexivity|].
  cbn [sorted_reverse fold_right]. fold (sorted_reverse es).
  rewrite insert_desc_Permutation. now constructor.
Qed.

Lemma sorted_reverse_In (es : list root_entry) (x : root_entry) :
  In x (sorted_reverse es) <-> In x es.
Proof.
  split; apply Permutation_in; [|symmetry]; apply sorted_reverse_Permutation.
Qed.

Lemma insert_desc_newest_first (e : root_entry) (l : list root_entry) :
  newest_first l -> newest_first (insert_desc e l).
Proof.
  unfold newest_first. induction l as [|y l IH]; intros Hl; cbn [insert_desc].
  - repeat constructor.
  - apply StronglySorted_inv in Hl as [Hl Hy].
    destruct (String.leb (entry_name y) (entry_name e)) eqn:Hle.
    + constructor; [now constructor|].
      constructor; [exact Hle|].
      eapply List.Forall_impl; [|exact Hy].
      intros z Hz. cbn beta in Hz. eapply string_leb_trans; eauto.
    + constructor; [now apply IH|].
      apply List.Forall_forall. intros z Hz. apply insert_desc_In in Hz as [->|Hz].
      * destruct (String.leb_total (entry_name y) (entry_name e)); congruence.
      * rewrite List.Forall_forall in Hy. now apply Hy.
Qed.

Lemma sorted_reverse_newest_first (es : list root_entry) :
  newest_first (sorted_reverse es).
Proof.
  induction es as [|e es IH]; [constructor|].
  cbn [sorted_reverse fold_right]. fold (sorted_reverse es).
  now apply insert_desc_newest_first.
Qed.

Lemma manifest_scan_first_dir (es : list root_entry) :
  manifest_scan es = option_map dir_name (first_dir manifest_says_full es).
Proof.
  induction es as [|[name|d] rest IH]; cbn [manifest_scan first_dir];
    [reflexivity|exact IH|].
  destruct (manifest_says_full d); [reflexivity|exact IH].
Qed.

Lemma fallback_scan_first_dir (es : list root_entry) :
  (forall d, In (RootDir d) es -> dir_name d <> "") ->
  fallback_scan es = Ok (option_map dir_name (first_dir digit_named es)).
Proof.
  induction es as [|[name|d] rest IH]; intros Hnames; cbn [fallback_scan first_dir].
  - reflexivity.
  - apply IH. intros d Hd. apply Hnames. now right.
  - assert (Hne := Hnames d (or_introl eq_refl)).
    unfold digit_named. destruct (dir_name d) as [|c s] eqn:Hname; [contradiction|].
    destruct (isdigit c); [cbn [option_map]; now rewrite Hname|].
    apply IH. intros d' Hd'. apply Hnames. now right.
Qed.

(** In a list that is newest first, the first directory that passes a test
    is the newest directory that passes it. *)
Lemma first_dir_newest (test : backup_dir -> bool) (es : list root_entry) :
  newest_first es ->
  match first_dir test es with
  | Some d =>
      In (RootDir d) es /\ test d = true
      /\ forall d', In (RootDir d') es -> test d' = true ->
                    String.leb (dir_name d') (dir_name d) = true
  | None => forall d', In (RootDir d') es -> test d' = false
  end.
Proof.
  unfold newest_first. induction es as [|[name|d] rest IH]; intros Hs;
    cbn [first_dir].
  - intros d' [].
  - apply StronglySorted_inv in Hs as [Hs _]. specialize (IH Hs).
    destruct (first_dir test rest) as [d|].
    + destruct IH as (Hin & Ht & Hmax). split; [now right|]. split; [exact Ht|].
      intros d' [[=]|Hd'] Htest. now apply Hmax.
    + intros d' [[=]|Hd']. now apply IH.
  - apply StronglySorted_inv in Hs as [Hs Hd]. specialize (IH Hs).
    destruct (test d) eqn:Htest.
    + split; [now left|]. split; [exact Htest|].
      intros d' [[= <-]|Hd'] _; [apply string_leb_refl|].
      rewrite List.Forall_forall in Hd. apply (Hd (RootDir d') Hd').
    + destruct (first_dir test rest) as [d0|].
      * destruct IH as (Hin & Ht & Hmax). split; [now right|]. split; [exact Ht|].
        intros d' [[= <-]|Hd'] Htest'; [congruence|now apply Hmax].
      * intros d' [[= <-]|Hd']; [exact Htest|now apply IH].
Qed.

End ScanOrder.

(** When some backup directory has a manifest that says "full",
    [find_latest_full_backup] returns the name of such a directory, and no
    directory with a full manifest has a greater name: the result is the
    newest full backup, whatever the order in which the directory is
    listed. *)
Theorem latest_full_backup_is_the_newest_full
    (es : list root_entry) (d0 : backup_dir) :
  In (RootDir d0) es -> manifest_says_full d0 = true ->
  exists d,
    In (RootDir d) es
    /\ manifest_says_full d = true
    /\ find_latest_full_backup (Some es) = Ok (Some (dir_name d))
    /\ forall d', In (RootDir d') es -> manifest_says_full d' = true ->
                  String.leb (dir_name d') (dir_name d) = true.
Proof.
  intros Hin0 Hfull0.
  pose proof (first_dir_newest manifest_says_full (sorted_reverse es)
                (sorted_reverse_newest_first es)) as Hfirst.
  cbn [find_latest_full_backup]. rewrite manifest_scan_first_dir.
  destruct (first_dir manifest_says_full (sorted_reverse es)) as [d|].
  - destruct Hfirst as (Hin & Hfull & Hmax). exists d.
    split; [now apply sorted_reverse_In|]. split; [exact Hfull|].
    split; [reflexivity|].
    intros d' Hd'. apply Hmax. now apply sorted_reverse_In.
  - rewrite (Hfirst d0) in Hfull0; [discriminate|now apply sorted_reverse_In].
Qed.

Lemma latest_full_backup_is_the_newest_full_witness :
  exists d,
    In (RootDir d) corrupt_then_full
    /\ manifest_says_full d = true
    /\ find_latest_full_backup (Some corrupt_then_full) = Ok (Some (dir_name d))
    /\ forall d', In (RootDir d') corrupt_then_full -> manifest_says_full d' = true ->
                  String.leb (dir_name d') (dir_name d) = true.
Proof.
  apply (latest_full_backup_is_the_newest_full corrupt_then_full
           (BackupDir "20251117_080000" ∅ (ManifestJson full_manifest))).
  - left. reflexivity.
  - reflexivity.
Defined.

(** When no backup directory has a manifest that says "full" (the manifests
    are missing, unreadable, not JSON, or of another type),
    [find_latest_full_backup] does not look at manifests any more: among
    directories with ASCII names, it returns the greatest name that starts
    with one of the digits 0-9, and [None] only if no directory has such a
    name. *)
Theorem without_full_manifest_newest_digit_named (es : list root_entry) :
  (forall d, In (RootDir d) es -> manifest_says_full d = false) ->
  (forall d, In (RootDir d) es -> dir_name d <> "" /\ ascii_name (dir_name d) = true) ->
  (exists d,
     In (RootDir d) es
     /\ digit_named d = true
     /\ find_latest_full_backup (Some es) = Ok (Some (dir_name d))
     /\ forall d', In (RootDir d') es -> digit_named d' = true ->
                   String.leb (dir_name d') (dir_name d) = true)
  \/ (find_latest_full_backup (Some es) = Ok None
      /\ forall d, In (RootDir d) es -> digit_named d = false).
Proof.
  intros Hnone Hascii.
  assert (Hnames : forall d, In (RootDir d) es -> dir_name d <> "")
    by (intros d Hd; apply (Hascii d Hd)).
  pose proof (first_dir_newest manifest_says_full (sorted_reverse es)
                (sorted_reverse_newest_first es)) as Hscan.
  pose proof (first_dir_newest digit_named (sorted_reverse es)
                (sorted_reverse_newest_first es)) as Hfall.
  cbn [find_latest_full_backup]. rewrite manifest_scan_first_dir.
  destruct (first_dir manifest_says_full (sorted_reverse es)) as [d|].
  { destruct Hscan as (Hin & Hfull & _).
    rewrite (Hnone d) in Hfull; [discriminate|now apply sorted_reverse_In]. }
  cbn [option_map]. rewrite fallback_scan_first_dir.
  2:{ intros d Hd. apply Hnames. now apply sorted_reverse_In. }
  destruct (first_dir digit_named (sorted_reverse es)) as [d|].
  - left. destruct Hfall as (Hin & Hdigit & Hmax). exists d.
    split; [now apply sorted_reverse_In|]. split; [exact Hdigit|].
    split; [reflexivity|].
    intros d' Hd'. apply Hmax. now apply sorted_reverse_In.
  - right. split; [reflexivity|].
    intros d Hd. apply Hfall. now apply sorted_reverse_In.
Qed.

Lemma without_full_manifest_newest_digit_named_witness :
  (exists d,
     In (RootDir d) only_an_incremental
     /\ digit_named d = true
     /\ find_latest_full_backup (Some only_an_incremental) = Ok (Some (dir_name d))
     /\ forall d', In (RootDir d') only_an_incremental -> digit_named d' = true ->
                   String.leb (dir_name d') (dir_name d) = true)
  \/ (find_latest_full_backup (Some only_an_incremental) = Ok None
      /\ forall d, In (RootDir d) only_an_incremental -> digit_named d = false).
Proof.
  apply (without_full_manifest_newest_digit_named only_an_incremental).
  - intros d [[= <-]|[]]. reflexivity.
  - intros d [[= <-]|[]]. split; [discriminate|reflexivity].
Defined.

Section ListingOrder.

Lemma same_name_same_entry (l : list root_entry) (a b : root_entry) :
  List.NoDup (map entry_name l) -> In a l -> In b l ->
  entry_name a = entry_name b -> a = b.
Proof.
  induction l as [|x l IH]; intros Hnodup Ha Hb Hname; [destruct Ha|].
  cbn [map] in Hnodup. apply NoDup_cons_iff in Hnodup as [Hx Hnodup].
  destruct Ha as [->|Ha], Hb as [->|Hb].
  - reflexivity.
  - exfalso. apply Hx. rewrite Hname. now apply in_map.
  - exfalso. apply Hx. rewrite <- Hname. now apply in_map.
  - now apply IH.
Qed.

(** Two lists that are newest first and list the same entries, all with
    different names, are the same list. *)
Lemma newest_first_unique (l1 : list root_entry) :
  forall l2,
  newest_first l1 -> newest_first l2 -> Permutation l1 l2 ->
  List.NoDup (map entry_name l1) -> l1 = l2.
Proof.
  unfold newest_first.
  induction l1 as [|a t1 IH]; intros l2 Hs1 Hs2 Hperm Hnodup.
  - apply Permutation_nil in Hperm. now subst.
  - destruct l2 as [|b t2]; [apply Permutation_sym, Permutation_nil in Hperm; discriminate|].
    apply StronglySorted_inv in Hs1 as [Hs1 Ha].
    apply StronglySorted_inv in Hs2 as [Hs2 Hb].
    rewrite List.Forall_forall in Ha, Hb.
    assert (Hab : a = b).
    { assert (Ha2 : In a (b :: t2)) by (eapply Permutation_in; [exact Hperm|now left]).
      assert (Hb1 : In b (a :: t1))
        by (eapply Permutation_in; [symmetry; exact Hperm|now left]).
      apply (same_name_same_entry (a :: t1)); auto; [now left|].
      destruct Ha2 as [->|Ha2]; [reflexivity|].
      destruct Hb1 as [->|Hb1]; [reflexivity|].
      apply String.leb_antisym; [apply (Hb a Ha2)|apply (Ha b Hb1)]. }
    subst b. f_equal.
    apply IH; auto.
    + eapply Permutation_cons_inv; exact Hperm.
    + cbn [map] in Hnodup. now apply NoDup_cons_iff in Hnodup.
Qed.

End ListingOrder.

(** The result of [find_latest_full_backup] does not depend on the order in
    which [iterdir] lists the backups directory (the names in one directory
    are all different). *)
Theorem latest_full_backup_ignores_listing_order (es es' : list root_entry) :
  Permutation es es' ->
  List.NoDup (map entry_name es) ->
  find_latest_full_backup (Some es) = find_latest_full_backup (Some es').
Proof.
  intros Hperm Hnodup.
  assert (Hsame : sorted_reverse es = sorted_reverse es').
  { apply newest_first_unique; try apply sorted_reverse_newest_first.
    - rewrite (sorted_reverse_Permutation es), (sorted_reverse_Permutation es').
      exact Hperm.
    - eapply Permutation_NoDup; [|exact Hnodup].
      apply Permutation_map. symmetry. apply sorted_reverse_Permutation. }
  cbn [find_latest_full_backup]. now rewrite Hsame.
Qed.

Lemma latest_full_backup_ignores_listing_order_witness :
  find_latest_full_backup (Some corrupt_then_full)
  = find_latest_full_backup (Some (rev corrupt_then_full)).
Proof.
  apply latest_full_backup_ignores_listing_order.
  - apply Permutation_rev.
  - repeat constructor; cbn; intuition discriminate.
Defined.

(** ** Restore orchestrator: what a restore step leaves behind *)

Lemma decrypt_file_gpg_frame (w : world) (encrypted_path passphrase output_path : string)
    (g : gpg_run) (q : string) :
  q <> output_path ->
  fs (snd (decrypt_file_gpg w encrypted_path passphrase (Some output_path) g)) !! q
  = fs w !! q.
Proof.
  intros Hq. unfold decrypt_file_gpg.
  destruct (fs w !! encrypted_path); [|reflexivity].
  destruct g as [rc out|]; cbn [snd subprocess_run_gpg fs];
    apply write_output_other; congruence.
Qed.

(** Whatever [gpg] and the restore command do, the restore of a source
    changes no path other than the temporary file: the backup artifact, in
    particular, is as it was, after a success and after a failure. *)
Theorem restore_changes_only_the_temporary_file
    (w : world) (is_encrypted : bool) (backup passphrase temp_path : string)
    (args : list string) (g : gpg_run) (r : restore_run) (q : string) :
  q <> temp_path ->
  fs (snd (restore_source w is_encrypted backup passphrase temp_path args g r)) !! q
  = fs w !! q.
Proof.
  intros Hq. unfold restore_source.
  destruct (fs w !! backup) as [n|] eqn:Hn; [|reflexivity].
  destruct is_encrypted.
  2:{ destruct (open_r_read (fs w) backup), r; reflexivity. }
  set (w0 := World (named_temporary_file (fs w) temp_path) (spawned w)).
  assert (H0 : fs w0 !! q = fs w !! q)
    by (cbn [w0 fs named_temporary_file]; apply lookup_insert_ne; congruence).
  pose proof (decrypt_file_gpg_frame w0 backup passphrase temp_path g q Hq) as H1.
  destruct (decrypt_file_gpg w0 backup passphrase (Some temp_path) g) as [ok w1].
  cbn [snd] in H1. rewrite H0 in H1.
  destruct ok; [|exact H1].
  destruct (open_r_read (fs w1) temp_path) as [data|]; [|exact H1].
  destruct r as [code|]; [|exact H1].
  cbn [fs spawned]. unfold unlink.
  destruct (fs w1 !! temp_path) as [[rd dt|sz]|]; cbn [snd fs]; try exact H1.
  rewrite lookup_delete_ne by congruence. exact H1.
Qed.

Lemma restore_changes_only_the_temporary_file_witness :
  fs (snd (restore_source encrypted_dump true
             "backups/20251117_080000/postgres_all.sql.gpg" "wrong-passphrase"
             "/tmp/tmpk3v9x2ab.sql" psql_args (GpgExit 2 None) (RestoreExit 0)))
    !! "backups/20251117_080000/postgres_all.sql.gpg"
  = fs encrypted_dump !! "backups/20251117_080000/postgres_all.sql.gpg".
Proof.
  apply restore_changes_only_the_temporary_file. discriminate.
Defined.

Lemma universal_newlines_without_cr (bs : list byte) :
  ~ In x0d bs -> universal_newlines bs = bs.
Proof.
  induction bs as [|b rest IH]; intros Hcr; [reflexivity|].
  cbn [universal_newlines].
  destruct (Byte.eqb b x0d) eqn:Hb.
  - apply Byte.byte_dec_bl in Hb. subst b. exfalso. apply Hcr. now left.
  - f_equal. apply IH. intros Hin. apply Hcr. now right.
Qed.

(** A restore step of an SQL source that runs to the end leaves the file
    system as it found it.  For an encrypted source whose decryption
    succeeds with a dump that is well-formed UTF-8, the temporary file (a
    fresh name) is gone whatever the exit code of the restore command,
    which was given on its standard input the text of the dump: the bytes
    [gpg] wrote with "\r\n" and "\r" read as "\n", so exactly those bytes
    when the dump has no carriage return; the status is "restored" exactly
    for exit code 0.  When the dump does not decode, the restore command is
    not run, the step ends in error and the decrypted file stays.  An
    unencrypted source is read the same way and fed to the command with no
    [gpg] run and no temporary file. *)
Theorem completed_restore_leaves_files_as_found
    (w : world) (backup passphrase temp_path : string) (args : list string)
    (n : node) (plain : list byte) (returncode : Z) :
  fs w !! backup = Some n ->
  fs w !! temp_path = None ->
  (let run := restore_source w true backup passphrase temp_path args
                (GpgExit 0 (Some plain)) (RestoreExit returncode) in
   if utf8_valid plain then
     fst run = (if Z.eqb returncode 0 then Restored else RestoreFailed)
     /\ fs (snd run) = fs w
     /\ spawned (snd run)
        = (spawned w
           ++ [ Call (decrypt_args backup passphrase temp_path) None None;
                Call args (Some (universal_newlines plain)) None ])%list
   else
     fst run = RestoreError
     /\ fs (snd run) = <[temp_path := RegularFile true plain]> (fs w)
     /\ spawned (snd run)
        = (spawned w
           ++ [Call (decrypt_args backup passphrase temp_path) None None])%list)
  /\ (forall data g,
        n = RegularFile true data ->
        utf8_valid data = true ->
        let run := restore_source w false backup passphrase temp_path args
                     g (RestoreExit returncode) in
        fst run = (if Z.eqb returncode 0 then Restored else RestoreFailed)
        /\ fs (snd run) = fs w
        /\ spawned (snd run)
           = (spawned w ++ [Call args (Some (universal_newlines data)) None])%list)
  /\ (~ In x0d plain -> universal_newlines plain = plain).
Proof.
  intros Hn Htemp.
  assert (Hne : temp_path <> backup) by congruence.
  split; [|split].
  - cbv zeta. unfold restore_source. rewrite Hn.
    unfold decrypt_file_gpg, named_temporary_file. cbn [fs spawned].
    rewrite lookup_insert_ne by exact Hne. rewrite Hn.
    cbn [subprocess_run_gpg fs spawned write_output Z.eqb].
    unfold open_r_read, open_rb, unlink. cbn [fs]. rewrite !lookup_insert_eq.
    destruct (utf8_valid plain).
    + cbn [fst snd fs spawned]. unfold status_of_returncode.
      split; [reflexivity|]. split.
      * rewrite insert_insert_eq. now apply delete_insert_id.
      * now rewrite <- app_assoc.
    + cbn [fst snd fs spawned]. split; [reflexivity|]. split; [|reflexivity].
      apply insert_insert_eq.
  - intros data g -> Hvalid. cbv zeta. unfold restore_source. rewrite Hn.
    unfold open_r_read, open_rb. rewrite Hn, Hvalid. cbn [fst snd fs spawned].
    unfold status_of_returncode. auto.
  - apply universal_newlines_without_cr.
Qed.

Lemma completed_restore_leaves_files_as_found_witness :
  let run := restore_source encrypted_dump true
               "backups/20251117_080000/postgres_all.sql.gpg" "correct-horse"
               "/tmp/tmpk3v9x2ab.sql" psql_args
               (GpgExit 0 (Some crlf_dump)) (RestoreExit 1) in
  fst run = RestoreFailed
  /\ fs (snd run) = fs encrypted_dump
  /\ last (spawned (snd run)) = Some (Call psql_args (Some lf_dump) None).
Proof.
  destruct (completed_restore_leaves_files_as_found encrypted_dump
              "backups/20251117_080000/postgres_all.sql.gpg" "correct-horse"
              "/tmp/tmpk3v9x2ab.sql" psql_args (RegularFile true ciphertext)
              crlf_dump 1)
    as [Hrun _].
  - vm_compute. reflexivity.
  - vm_compute. reflexivity.
  - cbv zeta in Hrun.
    change (utf8_valid crlf_dump) with true in Hrun. cbv iota in Hrun.
    destruct Hrun as (Hstatus & Hfs & Hsp).
    split; [exact Hstatus|]. split; [exact Hfs|].
    rewrite Hsp. vm_compute. reflexivity.
Defined.

(** ** The [verify] command *)

Section VerifyCommand.

Lemma insert_asc_In (e x : root_entry) (l : list root_entry) :
  In x (insert_asc e l) <-> x = e \/ In x l.
Proof.
  induction l as [|y l IH]; cbn [insert_asc].
  - cbn. intuition.
  - destruct (String.leb (entry_name e) (entry_name y)); cbn [In].
    + intuition.
    + rewrite IH. intuition.
Qed.

Lemma insert_asc_length (e : root_entry) (l : list root_entry) :
  length (insert_asc e l) = S (length l).
Proof.
  induction l as [|y l IH]; cbn [insert_asc]; [reflexivity|].
  destruct (String.leb (entry_name e) (entry_name y)); cbn [length]; [reflexivity|].
  now rewrite IH.
Qed.

Lemma sorted_paths_In (es : list root_entry) (x : root_entry) :
  In x (sorted_paths es) <-> In x es.
Proof.
  induction es as [|e es IH]; [reflexivity|].
  cbn [sorted_paths fold_right]. fold (sorted_paths es).
  rewrite insert_asc_In, IH. cbn [In]. intuition.
Qed.

Lemma sorted_paths_length (es : list root_entry) :
  length (sorted_paths es) = length es.
Proof.
  induction es as [|e es IH]; [reflexivity|].
  cbn [sorted_paths fold_right]. fold (sorted_paths es).
  now rewrite insert_asc_length, IH.
Qed.

Lemma verify_each_counts (backups : list root_entry) :
  forall verified failed verified' failed',
  verify_each backups verified failed = Ok (verified', failed') ->
  verified' + failed' = verified + failed + Z.of_nat (length backups)
  /\ failed <= failed'
  /\ (failed' = failed <->
      forall e, In e backups ->
                exists r, verify_backup_integrity (as_backup_dir e) = Ok (true, r)).
Proof.
  induction backups as [|backup rest IH]; intros v f v' f' Hrun.
  - injection Hrun as <- <-. cbn [length]. split; [lia|]. split; [lia|].
    split; [intros _ e []|reflexivity].
  - cbn [verify_each] in Hrun.
    destruct (verify_backup_integrity (as_backup_dir backup)) as [[s r]|] eqn:Hver;
      cbn [bind fst] in Hrun; [|discriminate].
    destruct s; apply IH in Hrun as (Hsum & Hmono & Hiff); cbn [length].
    + split; [lia|]. split; [lia|]. rewrite Hiff. split.
      * intros H e [<-|He]; [now exists r|now apply H].
      * intros H e He. apply H. now right.
    + split; [lia|]. split; [lia|]. split; [lia|].
      intros H. destruct (H backup (or_introl eq_refl)) as (r' & Hr'). congruence.
Qed.

End VerifyCommand.




(** A backup whose manifest [create_backup_manifest] has just written passes
    [verify <id>] with exit status 0; once one of its stored files has
    changed (deleted, unreadable, other bytes), the others being as they
    were, the same command ends with exit status 1. *)
Theorem verify_command_passes_fresh_backup_and_fails_changed_one
    (d d' : backup_dir) (backup_type : string)
    (base_backup previous_backup : option string) (clk : clock) (encrypted : bool)
    (m : dict) (es : list root_entry) (verify_all : bool) :
  create_backup_manifest d backup_type base_backup previous_backup clk encrypted
    = Ok (m, d') ->
  dir_name d <> "" ->
  (path_lookup es (dir_name d) = Some (RootDir d') ->
   verify_command (Some (dir_name d)) verify_all (Some es)
   = Ok (VerifyRun (SysExit 0) 0 0))
  /\ (forall files stored,
        In stored (present_artifacts d encrypted) ->
        (forall q, q <> stored -> files !! q = dir_files d !! q) ->
        is_ok (recheck files (recorded_digest d stored) stored) = false ->
        path_lookup es (dir_name d)
        = Some (RootDir (BackupDir (dir_name d) files (ManifestJson (PDict m)))) ->
        verify_command (Some (dir_name d)) verify_all (Some es)
        = Ok (VerifyRun (SysExit 1) 0 0)).
Proof.
  intros Hrun Hne. split.
  - intros Hlook. unfold verify_command. cbn [opt_str].
    rewrite (truthy_str _ Hne). cbn [negb andb]. rewrite Hlook. cbn [as_backup_dir].
    destruct (verify_after_create _ _ _ _ _ _ _ _ Hrun) as (r & Hver & _).
    rewrite Hver. reflexivity.
  - intros files stored Hin Hsame Hbad Hlook. unfold verify_command. cbn [opt_str].
    rewrite (truthy_str _ Hne). cbn [negb andb]. rewrite Hlook. cbn [as_backup_dir].
    destruct (verify_against_later_files _ _ _ _ _ _ _ _ files Hrun)
      as (r & Hver & Hdet & Htot & Hv & Hf).
    rewrite Hver. cbn [bind fst].
    assert (Hs : success_of r = false).
    { destruct (success_of r) eqn:Hs; [|reflexivity].
      apply success_of_true in Hs as [Hfail _].
      assert (Hnil : List.filter not_ok (details r) = []).
      { destruct (List.filter not_ok (details r)); [reflexivity|]. cbn in Hf. lia. }
      pose proof (proj1 (filter_not_ok_nil _) Hnil
                    (recheck files (recorded_digest d stored) stored)) as Hok.
      rewrite Hok in Hbad; [discriminate|].
      rewrite Hdet. apply in_map_iff. now exists stored. }
    now rewrite Hs.
Qed.

Lemma verify_command_passes_fresh_backup_and_fails_changed_one_witness :
  exists m d',
    create_backup_manifest three_sources "full" None None noon false = Ok (m, d')
    /\ verify_command (Some "20251117_080000") false (Some [RootDir d'])
       = Ok (VerifyRun (SysExit 0) 0 0).
Proof.
  pose (run := create_backup_manifest three_sources "full" None None noon false).
  pose (m := match run with Ok (m, _) => m | Raise _ => [] end).
  pose (d' := match run with Ok (_, d') => d' | Raise _ => three_sources end).
  assert (Hrun : create_backup_manifest three_sources "full" None None noon false
                 = Ok (m, d')) by (vm_compute; reflexivity).
  exists m, d'. split; [exact Hrun|].
  apply (proj1 (verify_command_passes_fresh_backup_and_fails_changed_one
                  three_sources d' "full" None None noon false m [RootDir d'] false
                  Hrun ltac:(discriminate))).
  vm_compute. reflexivity.
Defined.

(** [verify --all] verifies every directory of the backups directory, and
    only the directories: the two counters of its summary add up to their
    number; it returns normally when [verify_backup_integrity] reports
    success on each of them, and ends with [sys.exit(1)] as soon as one
    fails. *)
Theorem verify_all_counts_every_directory
    (es : list root_entry) (run : verify_run) :
  verify_command None true (Some es) = Ok run ->
  total_verified run + total_failed run = Z.of_nat (length (List.filter is_dir es))
  /\ 0 <= total_failed run
  /\ (total_failed run = 0 <->
      forall d, In (RootDir d) es ->
                exists r, verify_backup_integrity d = Ok (true, r))
  /\ ending_of run = (if Z.ltb 0 (total_failed run) then SysExit 1 else Returns).
Proof.
  unfold verify_command. cbn [opt_str truthy negb andb].
  assert (Hdirs : forall e, In e (sorted_paths (List.filter is_dir es))
                            <-> exists d, e = RootDir d /\ In (RootDir d) es).
  { intros e. rewrite sorted_paths_In, List.filter_In. split.
    - intros [Hin Hdir]. destruct e as [name|d]; [discriminate|]. now exists d.
    - intros (d & -> & Hin). split; [exact Hin|reflexivity]. }
  pose proof (sorted_paths_length (List.filter is_dir es)) as Hlen.
  destruct (sorted_paths (List.filter is_dir es)) as [|b backups] eqn:Hsorted.
  - intros [= <-]. cbn [total_verified total_failed ending_of].
    rewrite <- Hlen. cbn [length]. split; [lia|]. split; [lia|]. split; [|reflexivity].
    split; [|reflexivity]. intros _ d Hd.
    destruct (proj2 (Hdirs (RootDir d))) as []. now exists d.
  - destruct (verify_each (b :: backups) 0 0) as [[v f]|] eqn:Heach; cbn [bind];
      [|discriminate].
    apply verify_each_counts in Heach as (Hsum & Hmono & Hiff).
    intros Hrun.
    assert (Hrun' : run = VerifyRun (if Z.ltb 0 f then SysExit 1 else Returns) v f)
      by (destruct (Z.ltb 0 f); now injection Hrun as <-).
    subst run. cbn [total_verified total_failed ending_of].
    rewrite <- Hlen. split; [lia|]. split; [lia|]. split; [|reflexivity].
    rewrite Hiff. split.
    + intros H d Hd. apply (H (RootDir d)). apply Hdirs. now exists d.
    + intros H e He. apply Hdirs in He as (d & -> & Hd). now apply H.
Qed.

Lemma verify_all_counts_every_directory_witness :
  total_verified (VerifyRun (SysExit 1) 1 1) + total_failed (VerifyRun (SysExit 1) 1 1)
  = Z.of_nat (length (List.filter is_dir corrupt_then_full)).
Proof.
  refine (proj1 (verify_all_counts_every_directory corrupt_then_full
                   (VerifyRun (SysExit 1) 1 1) _)).
  vm_compute. reflexivity.
Defined.

(** ** Backup orchestrator: the encryption pass *)

Section EncryptionPass.

Variable passphrase : string.
Variable gpg : string -> gpg_run.

Lemma companion_ne (file_path : string) : file_path +:+ ".gpg" <> file_path.
Proof. apply append_suffix_ne. discriminate. Qed.

Lemma companion_inj (f g : string) : f +:+ ".gpg" = g +:+ ".gpg" -> f = g.
Proof.
  intros H.
  assert (Hlen : String.length f = String.length g).
  { apply (f_equal String.length) in H. rewrite !string_length_append in H. lia. }
  rewrite <- (str_take_append f ".gpg"), H, Hlen. apply str_take_append.
Qed.

Lemma manifest_is_no_companion (f : string) : f +:+ ".gpg" <> "manifest.json".
Proof.
  intros H.
  assert (Hlen : String.length f = 9%nat).
  { apply (f_equal String.length) in H. rewrite string_length_append in H.
    cbn [String.length] in H. lia. }
  pose proof (drop_string_append f ".gpg") as Hd.
  rewrite H, Hlen in Hd. discriminate Hd.
Qed.

(** One step of the pass on a regular file. *)
Lemma encrypt_file_gpg_regular (w : world) (file_path : string) :
  is_file (fs w) file_path = true ->
  encrypt_file_gpg w file_path passphrase (gpg file_path)
  = (gpg_succeeds (gpg file_path),
     World (if gpg_succeeds (gpg file_path)
            then delete file_path
                   (write_output (fs w) (file_path +:+ ".gpg") (gpg file_path))
            else write_output (fs w) (file_path +:+ ".gpg") (gpg file_path))
           (spawned w ++ [Call (encrypt_args file_path passphrase) None None])).
Proof.
  unfold is_file, encrypt_file_gpg. intros Hfile.
  destruct (fs w !! file_path) as [[readable data|size]|] eqn:Hf; try discriminate.
  destruct (gpg file_path) as [rc out|]; cbn [gpg_succeeds]; [|reflexivity].
  destruct (Z.eqb rc 0); cbn [negb]; [|reflexivity].
  unfold unlink. cbn [subprocess_run_gpg fs spawned].
  rewrite write_output_other by apply companion_ne. rewrite Hf. reflexivity.
Qed.

(** The files still to come stay regular files. *)
Lemma is_file_after_step (w : world) (file_path other : string) :
  other <> file_path ->
  is_file (fs w) other = true ->
  is_file (fs (snd (encrypt_file_gpg w file_path passphrase (gpg file_path)))) other
  = true.
Proof.
  intros Hne Hother. unfold encrypt_file_gpg.
  destruct (fs w !! file_path) as [n|]; [|exact Hother].
  assert (Hw : is_file (write_output (fs w) (file_path +:+ ".gpg") (gpg file_path))
                 other = true).
  { unfold is_file, write_output. destruct (gpg file_path) as [rc [data|]|]; try exact Hother.
    destruct (decide (file_path +:+ ".gpg" = other)) as [->|Hc].
    - now rewrite lookup_insert_eq.
    - rewrite lookup_insert_ne by exact Hc. exact Hother. }
  destruct (gpg file_path) as [rc out|]; [|exact Hw].
  destruct (negb (Z.eqb rc 0)); [exact Hw|].
  destruct (unlink _ _) as [files|e] eqn:Hu; [|exact Hw].
  cbn [snd fs]. unfold unlink in Hu. cbn [subprocess_run_gpg fs] in Hu.
  destruct (write_output _ _ _ !! file_path) as [[r d|s]|]; try discriminate.
  injection Hu as <-. unfold is_file. rewrite lookup_delete_ne by congruence. exact Hw.
Qed.

Lemma encrypt_each_unfold (w : world) (file_path : string) (rest : list string)
    (encrypted_count failed_count : Z) :
  is_file (fs w) file_path = true ->
  encrypt_each w (file_path :: rest) passphrase gpg encrypted_count failed_count
  = let w1 := snd (encrypt_file_gpg w file_path passphrase (gpg file_path)) in
    if gpg_succeeds (gpg file_path)
    then encrypt_each w1 rest passphrase gpg (encrypted_count + 1) failed_count
    else encrypt_each w1 rest passphrase gpg encrypted_count (failed_count + 1).
Proof.
  intros Hfile. cbn [encrypt_each]. rewrite (encrypt_file_gpg_regular w file_path Hfile).
  reflexivity.
Qed.

Lemma files_to_encrypt_regular (files : gmap string node) (listing : list string)
    (f : string) :
  In f (files_to_encrypt files listing) -> is_file files f = true.
Proof.
  unfold files_to_encrypt. intros Hin. apply List.filter_In in Hin as [_ H].
  now apply andb_prop in H as [_ H].
Qed.

Lemma files_to_encrypt_NoDup (files : gmap string node) (listing : list string) :
  List.NoDup listing -> List.NoDup (files_to_encrypt files listing).
Proof. intros H. now apply List.NoDup_filter. Qed.

Lemma manifest_not_to_encrypt (files : gmap string node) (listing : list string) :
  ~ In "manifest.json" (files_to_encrypt files listing).
Proof.
  unfold files_to_encrypt. intros Hin. apply List.filter_In in Hin as [_ H].
  apply andb_prop in H as [H _]. discriminate H.
Qed.

(** The commands and the counters of the loop. *)
Lemma encrypt_each_commands (files : list string) :
  forall (w : world) (encrypted_count failed_count : Z),
    List.NoDup files ->
    (forall f, In f files -> is_file (fs w) f = true) ->
    let '(encrypted_count', failed_count', w') :=
      encrypt_each w files passphrase gpg encrypted_count failed_count in
    spawned w'
    = (spawned w ++ map (fun f => Call (encrypt_args f passphrase) None None) files)%list
    /\ encrypted_count'
       = encrypted_count
         + Z.of_nat (length (List.filter (fun f => gpg_succeeds (gpg f)) files))
    /\ failed_count'
       = failed_count
         + Z.of_nat (length (List.filter (fun f => negb (gpg_succeeds (gpg f))) files)).
Proof.
  induction files as [|f rest IH]; intros w ec fc Hnd Hreg.
  - cbn. rewrite app_nil_r. repeat split; lia.
  - rewrite encrypt_each_unfold by (apply Hreg; now left).
    cbn zeta. inversion Hnd as [|? ? Hnotin Hnd']; subst.
    set (w1 := snd (encrypt_file_gpg w f passphrase (gpg f))).
    assert (Hreg1 : forall h, In h rest -> is_file (fs w1) h = true).
    { intros h Hh. apply is_file_after_step.
      - intros ->. contradiction.
      - apply Hreg. now right. }
    assert (Hsp : spawned w1
                  = (spawned w ++ [Call (encrypt_args f passphrase) None None])%list).
    { unfold w1. rewrite encrypt_file_gpg_regular by (apply Hreg; now left). reflexivity. }
    cbn [List.filter map].
    destruct (gpg_succeeds (gpg f)); cbn [negb].
    + specialize (IH w1 (ec + 1) fc Hnd' Hreg1).
      destruct (encrypt_each w1 rest passphrase gpg (ec + 1) fc) as [[ec' fc'] w'].
      destruct IH as (H1 & H2 & H3). rewrite H1, Hsp, <- app_assoc.
      cbn [length]. split; [reflexivity|]. split; lia.
    + specialize (IH w1 ec (fc + 1) Hnd' Hreg1).
      destruct (encrypt_each w1 rest passphrase gpg ec (fc + 1)) as [[ec' fc'] w'].
      destruct IH as (H1 & H2 & H3). rewrite H1, Hsp, <- app_assoc.
      cbn [length]. split; [reflexivity|]. split; lia.
Qed.

(** A path that is neither a file of the loop nor a companion of one. *)
Lemma encrypt_each_other_paths (files : list string) :
  forall (w : world) (encrypted_count failed_count : Z) (p : string),
    ~ In p files ->
    (forall f, In f files -> p <> f +:+ ".gpg") ->
    fs (snd (encrypt_each w files passphrase gpg encrypted_count failed_count)) !! p
    = fs w !! p.
Proof.
  induction files as [|f rest IH]; intros w ec fc p Hnotin Hcomp; [reflexivity|].
  cbn [encrypt_each].
  assert (Hstep : fs (snd (encrypt_file_gpg w f passphrase (gpg f))) !! p = fs w !! p).
  { unfold encrypt_file_gpg. destruct (fs w !! f) as [n|]; [|reflexivity].
    assert (Hw : write_output (fs w) (f +:+ ".gpg") (gpg f) !! p = fs w !! p).
    { apply write_output_other. intros H. apply (Hcomp f); [now left|now symmetry]. }
    destruct (gpg f) as [rc out|]; [|exact Hw].
    destruct (negb (Z.eqb rc 0)); [exact Hw|].
    destruct (unlink _ _) as [files'|e] eqn:Hu; [|exact Hw].
    cbn [snd fs]. unfold unlink in Hu. cbn [subprocess_run_gpg fs] in Hu.
    destruct (write_output _ _ _ !! f) as [[r d|s]|]; try discriminate.
    injection Hu as <-. rewrite lookup_delete_ne; [exact Hw|].
    intros ->. apply Hnotin. now left. }
  destruct (encrypt_file_gpg w f passphrase (gpg f)) as [ok w1]. cbn [snd] in Hstep.
  destruct ok; (rewrite IH; [exact Hstep| |]);
    try (intros H; apply Hnotin; now right);
    try (intros h Hh; apply Hcomp; now right).
Qed.

(** The file of a step and its companion, when no file of the loop is a
    companion. *)
Lemma encrypt_each_fate (files : list string) :
  forall (w : world) (encrypted_count failed_count : Z),
    List.NoDup files ->
    no_companion_among files ->
    (forall f, In f files -> is_file (fs w) f = true) ->
    forall f, In f files ->
      let w' := snd (encrypt_each w files passphrase gpg encrypted_count failed_count) in
      fs w' !! f = (if gpg_succeeds (gpg f) then None else fs w !! f)
      /\ fs w' !! (f +:+ ".gpg") = gpg_companion (fs w !! (f +:+ ".gpg")) (gpg f).
Proof.
  induction files as [|f0 rest IH]; intros w ec fc Hnd Hnc Hreg f Hin; [destruct Hin|].
  inversion Hnd as [|? ? Hnotin Hnd']; subst.
  assert (Hnc' : no_companion_among rest).
  { intros a b Ha Hb. apply Hnc; now right. }
  assert (Hreg0 : is_file (fs w) f0 = true) by (apply Hreg; now left).
  cbn zeta. rewrite encrypt_each_unfold by exact Hreg0. cbn zeta.
  set (w1 := snd (encrypt_file_gpg w f0 passphrase (gpg f0))).
  assert (Hreg1 : forall h, In h rest -> is_file (fs w1) h = true).
  { intros h Hh. apply is_file_after_step.
    - intros ->. contradiction.
    - apply Hreg. now right. }
  assert (Hrest : forall ec' fc',
             fs (snd (encrypt_each w1 rest passphrase gpg ec' fc')) !! f
             = (if decide (f = f0) then fs w1 !! f
                else if gpg_succeeds (gpg f) then None else fs w1 !! f)
             /\ fs (snd (encrypt_each w1 rest passphrase gpg ec' fc')) !! (f +:+ ".gpg")
                = (if decide (f = f0) then fs w1 !! (f +:+ ".gpg")
                   else gpg_companion (fs w1 !! (f +:+ ".gpg")) (gpg f))).
  { intros ec' fc'. destruct (decide (f = f0)) as [->|Hne].
    - split.
      + apply encrypt_each_other_paths; [exact Hnotin|].
        intros h Hh. apply Hnc; [now left|now right].
      + apply encrypt_each_other_paths.
        * intros Hc. apply (Hnc (f0 +:+ ".gpg") f0); [now right|now left|reflexivity].
        * intros h Hh Heq. apply companion_inj in Heq. subst h. contradiction.
    - destruct Hin as [->|Hin]; [congruence|].
      apply (IH w1 ec' fc' Hnd' Hnc' Hreg1 f Hin). }
  assert (Hw1 : forall p,
             fs w1 !! p
             = (if decide (p = f0) then
                  if gpg_succeeds (gpg f0) then None else fs w !! p
                else if decide (p = f0 +:+ ".gpg")
                     then gpg_companion (fs w !! p) (gpg f0)
                     else fs w !! p)).
  { intros p. unfold w1. rewrite encrypt_file_gpg_regular by exact Hreg0. cbn [snd fs].
    destruct (decide (p = f0)) as [->|Hp].
    - destruct (gpg_succeeds (gpg f0)).
      + apply lookup_delete_eq.
      + apply write_output_other, companion_ne.
    - assert (Hw : write_output (fs w) (f0 +:+ ".gpg") (gpg f0) !! p
                   = if decide (p = f0 +:+ ".gpg")
                     then gpg_companion (fs w !! p) (gpg f0) else fs w !! p).
      { destruct (decide (p = f0 +:+ ".gpg")) as [->|Hq].
        - unfold write_output, gpg_companion.
          destruct (gpg f0) as [rc [data|]|]; try reflexivity.
          apply lookup_insert_eq.
        - apply write_output_other. congruence. }
      destruct (gpg_succeeds (gpg f0)); [|exact Hw].
      rewrite lookup_delete_ne by congruence. exact Hw. }
  assert (Hgoal : forall ec' fc',
             fs (snd (encrypt_each w1 rest passphrase gpg ec' fc')) !! f
             = (if gpg_succeeds (gpg f) then None else fs w !! f)
             /\ fs (snd (encrypt_each w1 rest passphrase gpg ec' fc')) !! (f +:+ ".gpg")
                = gpg_companion (fs w !! (f +:+ ".gpg")) (gpg f)).
  { intros ec' fc'. destruct (Hrest ec' fc') as [H1 H2]. rewrite H1, H2, !Hw1.
    clear H1 H2 Hrest Hw1.
    destruct (decide (f = f0)) as [->|Hne].
    - destruct (decide (f0 +:+ ".gpg" = f0)) as [Hc|_];
        [now apply companion_ne in Hc|].
      destruct (decide (f0 +:+ ".gpg" = f0 +:+ ".gpg")) as [_|Hc]; [|congruence].
      split; reflexivity.
    - destruct Hin as [->|Hin]; [congruence|].
      destruct (decide (f = f0 +:+ ".gpg")) as [Hc|_];
        [exfalso; revert Hc; apply Hnc; [now right|now left]|].
      destruct (decide (f +:+ ".gpg" = f0)) as [Hc|_];
        [exfalso; symmetry in Hc; revert Hc; apply Hnc; [now left|now right]|].
      destruct (decide (f +:+ ".gpg" = f0 +:+ ".gpg")) as [Hc|_];
        [apply companion_inj in Hc; congruence|].
      split; reflexivity. }
  destruct (gpg_succeeds (gpg f0)); apply Hgoal.
Qed.

End EncryptionPass.

(** The encryption pass of the [backup] command runs [gpg] exactly once for
    each regular file of the directory other than [manifest.json], in the
    order of the listing, and nothing else; [encrypted_count] is the number
    of runs that exit with code 0, [failed_count] the number of the others,
    so the two add up to the number of files. *)
Theorem encryption_pass_runs_gpg_once_per_file
    (w w' : world) (listing : list string) (passphrase : string)
    (gpg : string -> gpg_run) (encrypted_count failed_count : Z) :
  List.NoDup listing ->
  encryption_pass w listing passphrase gpg = (encrypted_count, failed_count, w') ->
  let files :=
    List.filter (fun p => negb (String.eqb p "manifest.json") && is_file (fs w) p)
                listing in
  spawned w'
  = (spawned w ++ map (fun f => Call (encrypt_args f passphrase) None None) files)%list
  /\ encrypted_count
     = Z.of_nat (length (List.filter (fun f => gpg_succeeds (gpg f)) files))
  /\ failed_count
     = Z.of_nat (length (List.filter (fun f => negb (gpg_succeeds (gpg f))) files))
  /\ encrypted_count + failed_count = Z.of_nat (length files).
Proof.
  intros Hnd Hrun files. unfold encryption_pass in Hrun.
  fold files in Hrun. change (files_to_encrypt (fs w) listing) with files in Hrun.
  pose proof (encrypt_each_commands passphrase gpg files w 0 0
                (files_to_encrypt_NoDup (fs w) listing Hnd)
                (files_to_encrypt_regular (fs w) listing)) as H.
  rewrite Hrun in H. destruct H as (Hsp & Hec & Hfc).
  split; [exact Hsp|]. split; [lia|]. split; [lia|].
  rewrite Hec, Hfc. clear.
  induction files as [|f rest IH]; [reflexivity|].
  cbn [List.filter length]. destruct (gpg_succeeds (gpg f)); cbn [negb length]; lia.
Qed.

Lemma encryption_pass_runs_gpg_once_per_file_witness :
  let run := encryption_pass before_encryption before_encryption_listing
               "correct-horse" gpg_fails_on_mysql in
  fst (fst run) = 1 /\ snd (fst run) = 1
  /\ map call_args (spawned (snd run))
     = [ encrypt_args "postgres_all.sql" "correct-horse";
         encrypt_args "mysql_all.sql" "correct-horse" ].
Proof.
  intros run.
  assert (Hnd : List.NoDup before_encryption_listing).
  { unfold before_encryption_listing.
    repeat (constructor; [cbn [In]; intuition discriminate|]). constructor. }
  assert (Hrun : encryption_pass before_encryption before_encryption_listing
                   "correct-horse" gpg_fails_on_mysql
                 = (fst (fst run), snd (fst run), snd run))
    by (subst run; now destruct (encryption_pass _ _ _ _) as [[? ?] ?]).
  destruct (encryption_pass_runs_gpg_once_per_file
              before_encryption (snd run) before_encryption_listing "correct-horse"
              gpg_fails_on_mysql (fst (fst run)) (snd (fst run)) Hnd Hrun)
    as (Hsp & Hec & Hfc & _).
  split; [rewrite Hec; vm_compute; reflexivity|].
  split; [rewrite Hfc; vm_compute; reflexivity|].
  rewrite Hsp. vm_compute. reflexivity.
Defined.

(** When no file of the pass has the name of another file's [.gpg]
    companion, the pass decides each file by its own [gpg] run: after an
    exit code 0 the plaintext is gone, after any other outcome it is there
    unchanged; and the companion holds what that run wrote, or is as it was
    when the run wrote nothing. *)
Theorem encryption_pass_fate_of_each_file
    (w w' : world) (listing : list string) (passphrase : string)
    (gpg : string -> gpg_run) (encrypted_count failed_count : Z) :
  List.NoDup listing ->
  no_companion_among (files_to_encrypt (fs w) listing) ->
  encryption_pass w listing passphrase gpg = (encrypted_count, failed_count, w') ->
  forall f,
    In f listing -> f <> "manifest.json" -> is_file (fs w) f = true ->
    (gpg_succeeds (gpg f) = true -> fs w' !! f = None)
    /\ (gpg_succeeds (gpg f) = false -> fs w' !! f = fs w !! f)
    /\ fs w' !! (f +:+ ".gpg") = gpg_companion (fs w !! (f +:+ ".gpg")) (gpg f).
Proof.
  intros Hnd Hnc Hrun f Hin Hname Hfile.
  assert (Hf : In f (files_to_encrypt (fs w) listing)).
  { unfold files_to_encrypt. apply List.filter_In. split; [exact Hin|].
    rewrite Hfile, andb_true_r. apply negb_true_iff, String.eqb_neq, Hname. }
  destruct (encrypt_each_fate passphrase gpg (files_to_encrypt (fs w) listing) w 0 0
              (files_to_encrypt_NoDup (fs w) listing Hnd) Hnc
              (files_to_encrypt_regular (fs w) listing) f Hf) as [H1 H2].
  unfold encryption_pass in Hrun. rewrite Hrun in H1, H2. cbn [snd] in H1, H2.
  split; [|split].
  - intros Hg. now rewrite Hg in H1.
  - intros Hg. now rewrite Hg in H1.
  - exact H2.
Qed.

Lemma encryption_pass_fate_of_each_file_witness :
  let w' := snd (encryption_pass before_encryption before_encryption_listing
                   "correct-horse" gpg_fails_on_mysql) in
  fs w' !! "postgres_all.sql" = None
  /\ fs w' !! "postgres_all.sql.gpg" = Some (RegularFile true ciphertext)
  /\ fs w' !! "mysql_all.sql" = fs before_encryption !! "mysql_all.sql"
  /\ fs w' !! "mysql_all.sql.gpg" = None.
Proof.
  pose (run := encryption_pass before_encryption before_encryption_listing
                 "correct-horse" gpg_fails_on_mysql).
  change (encryption_pass before_encryption before_encryption_listing "correct-horse"
            gpg_fails_on_mysql) with run.
  intros w'.
  assert (Hnd : List.NoDup before_encryption_listing).
  { unfold before_encryption_listing.
    repeat (constructor; [cbn [In]; intuition discriminate|]). constructor. }
  assert (Hnc : no_companion_among
                  (files_to_encrypt (fs before_encryption) before_encryption_listing)).
  { intros f g Hf Hg. vm_compute in Hf, Hg.
    destruct Hf as [<-|[<-|[]]]; destruct Hg as [<-|[<-|[]]]; vm_compute; discriminate. }
  assert (Hrun : encryption_pass before_encryption before_encryption_listing
                   "correct-horse" gpg_fails_on_mysql
                 = (fst (fst run), snd (fst run), w'))
    by (subst w' run; now destruct (encryption_pass _ _ _ _) as [[? ?] ?]).
  pose proof (encryption_pass_fate_of_each_file
                before_encryption w' before_encryption_listing "correct-horse"
                gpg_fails_on_mysql (fst (fst run)) (snd (fst run)) Hnd Hnc Hrun) as H.
  destruct (H "postgres_all.sql") as (Hp1 & _ & Hp2);
    [vm_compute; tauto|discriminate|vm_compute; reflexivity|].
  destruct (H "mysql_all.sql") as (_ & Hm1 & Hm2);
    [vm_compute; tauto|discriminate|vm_compute; reflexivity|].
  change ("postgres_all.sql" +:+ ".gpg") with "postgres_all.sql.gpg" in Hp2.
  change ("mysql_all.sql" +:+ ".gpg") with "mysql_all.sql.gpg" in Hm2.
  split; [apply Hp1; vm_compute; reflexivity|].
  split; [rewrite Hp2; vm_compute; reflexivity|].
  split; [apply Hm1; vm_compute; reflexivity|].
  rewrite Hm2. vm_compute. reflexivity.
Defined.

(** The encryption pass never touches [manifest.json], and it changes no
    path other than the regular files it lists and their [.gpg] companions:
    directories and files under other names are as they were, whatever [gpg]
    does. *)
Theorem encryption_pass_leaves_the_rest
    (w w' : world) (listing : list string) (passphrase : string)
    (gpg : string -> gpg_run) (encrypted_count failed_count : Z) :
  encryption_pass w listing passphrase gpg = (encrypted_count, failed_count, w') ->
  fs w' !! "manifest.json" = fs w !! "manifest.json"
  /\ (forall p,
        (is_file (fs w) p = false \/ ~ In p listing) ->
        (forall f, In f listing -> is_file (fs w) f = true -> p <> f +:+ ".gpg") ->
        fs w' !! p = fs w !! p).
Proof.
  intros Hrun. unfold encryption_pass in Hrun.
  pose proof (encrypt_each_other_paths passphrase gpg
                (files_to_encrypt (fs w) listing) w 0 0) as H.
  rewrite Hrun in H. cbn [snd] in H. split.
  - apply H.
    + apply manifest_not_to_encrypt.
    + intros f _ Hc. symmetry in Hc. revert Hc. apply manifest_is_no_companion.
  - intros p Hp Hcomp. apply H.
    + intros Hin. pose proof (files_to_encrypt_regular _ _ _ Hin) as Hreg.
      unfold files_to_encrypt in Hin. apply List.filter_In in Hin as [Hin _].
      destruct Hp as [Hp|Hp]; [congruence|contradiction].
    + intros f Hin. pose proof (files_to_encrypt_regular _ _ _ Hin) as Hreg.
      unfold files_to_encrypt in Hin. apply List.filter_In in Hin as [Hin _].
      now apply Hcomp.
Qed.

Lemma encryption_pass_leaves_the_rest_witness :
  let w' := snd (encryption_pass before_encryption before_encryption_listing
                   "correct-horse" gpg_fails_on_mysql) in
  fs w' !! "manifest.json" = Some (plain_file "{}")
  /\ fs w' !! "logs" = Some (Directory 4096).
Proof.
  pose (run := encryption_pass before_encryption before_encryption_listing
                 "correct-horse" gpg_fails_on_mysql).
  change (encryption_pass before_encryption before_encryption_listing "correct-horse"
            gpg_fails_on_mysql) with run.
  intros w'.
  assert (Hrun : encryption_pass before_encryption before_encryption_listing
                   "correct-horse" gpg_fails_on_mysql
                 = (fst (fst run), snd (fst run), w'))
    by (subst w' run; now destruct (encryption_pass _ _ _ _) as [[? ?] ?]).
  destruct (encryption_pass_leaves_the_rest
              before_encryption w' before_encryption_listing "correct-horse"
              gpg_fails_on_mysql (fst (fst run)) (snd (fst run)) Hrun) as [Hm Hrest].
  split.
  - rewrite Hm. vm_compute. reflexivity.
  - rewrite Hrest; [vm_compute; reflexivity|left; vm_compute; reflexivity|].
    intros f Hin _. vm_compute in Hin.
    destruct Hin as [<-|[<-|[<-|[<-|[]]]]]; vm_compute; discriminate.
Defined.

(** ** Backup orchestrator: the manifest of an encrypted backup *)

Lemma built_entries_get (d : backup_dir) (backup_type : string)
    (base_backup : option string) (encrypted : bool) (xs : list (string * string))
    (db filename : string) :
  List.NoDup (map fst xs) ->
  In (db, filename) xs ->
  dict_get (built_entries d backup_type base_backup encrypted xs) db
  = match dir_files d !! stored_name encrypted filename with
    | Some (RegularFile true data) =>
        Some (PDict (expected_entry backup_type base_backup encrypted db filename
                       (Z.of_nat (length data)) (sha256_hexdigest data)))
    | _ => None
    end.
Proof.
  induction xs as [|[db' filename'] rest IH]; intros Hnd Hin; [destruct Hin|].
  cbn [map fst] in Hnd. inversion Hnd as [|? ? Hnotin Hnd']; subst.
  cbn [built_entries flat_map fst snd].
  fold (built_entries d backup_type base_backup encrypted rest).
  destruct Hin as [[= -> ->]|Hin].
  - destruct (dir_files d !! stored_name encrypted filename) as [[[|] data|sz]|];
      cbn [app dict_get]; try (now apply built_entries_keys).
    now rewrite String.eqb_refl.
  - assert (Hne : db' <> db).
    { intros ->. apply Hnotin. apply in_map_iff. now exists (db, filename). }
    apply String.eqb_neq in Hne.
    destruct (dir_files d !! stored_name encrypted filename') as [[[|] data|sz]|];
      cbn [app dict_get]; rewrite ?Hne; now apply IH.
Qed.

(** It returns when every artifact that is there can be read. *)
Lemma create_backup_manifest_readable_artifacts
    (d : backup_dir) (backup_type : string)
    (base_backup previous_backup : option string) (clk : clock) (encrypted : bool) :
  (forall filename n,
     In filename artifact_names ->
     dir_files d !! stored_name encrypted filename = Some n ->
     readable_file n = true) ->
  exists m d',
    create_backup_manifest d backup_type base_backup previous_backup clk encrypted
    = Ok (m, d').
Proof.
  intros Hread.
  assert (Hgood : forall filename n,
             In filename artifact_names ->
             dir_files d !! stored_name encrypted filename = Some n ->
             exists data, n = RegularFile true data).
  { intros filename n Hin Hn. specialize (Hread filename n Hin Hn).
    destruct n as [[|] data|sz]; try discriminate. now exists data. }
  unfold create_backup_manifest. cbv zeta.
  destruct (database_loop_total d backup_type base_backup encrypted db_files
              _ [] [] 0
              (start_shaped d backup_type base_backup previous_backup clk encrypted))
    as (m1 & dbs & total & Hloop & Hshape).
  { intros db f n Hin Hn. apply (Hgood f n); [|exact Hn].
    unfold artifact_names. apply in_app_iff. left.
    apply in_map_iff. now exists (db, f). }
  rewrite Hloop. cbn [bind]. destruct Hshape as (Hdbs & Hcfg & Htot).
  unfold config_entry.
  assert (Hname : (if encrypted then ".env.backup.gpg" else ".env.backup")
                  = stored_name encrypted ".env.backup") by (now destruct encrypted).
  rewrite !Hname.
  destruct (dir_files d !! stored_name encrypted ".env.backup") as [n|] eqn:Hlook;
    cbn [bind]; [|eauto].
  destruct (Hgood ".env.backup" n) as (data & ->); [|exact Hlook|].
  { unfold artifact_names. apply in_app_iff. right. now left. }
  rewrite (calculate_file_checksum_readable _ _ _ Hlook). cbn [bind st_size_of].
  unfold iadd. rewrite dict_get_set_ne by discriminate. rewrite Htot.
  cbn [bind]. eauto.
Qed.

Lemma artifact_is_not_the_manifest (filename : string) :
  In filename artifact_names -> filename <> "manifest.json".
Proof.
  unfold artifact_names, db_files. cbn [map snd app In].
  intros H Heq. subst filename. intuition discriminate.
Qed.

(** The companion of an artifact after the pass, in a directory that held no
    companion of an artifact before. *)
Lemma companion_after_pass
    (w w' : world) (listing : list string) (passphrase : string)
    (gpg : string -> gpg_run) (encrypted_count failed_count : Z) (filename : string) :
  List.NoDup listing ->
  no_companion_among (files_to_encrypt (fs w) listing) ->
  (is_file (fs w) filename = true -> In filename listing) ->
  filename <> "manifest.json" ->
  fs w !! (filename +:+ ".gpg") = None ->
  encryption_pass w listing passphrase gpg = (encrypted_count, failed_count, w') ->
  fs w' !! (filename +:+ ".gpg")
  = if is_file (fs w) filename
    then match gpg filename with
         | GpgExit _ (Some data) => Some (RegularFile true data)
         | _ => None
         end
    else None.
Proof.
  intros Hnd Hnc Hlisted Hname Hfresh Hrun. unfold encryption_pass in Hrun.
  destruct (is_file (fs w) filename) eqn:Hfile.
  - assert (Hf : In filename (files_to_encrypt (fs w) listing)).
    { unfold files_to_encrypt. apply List.filter_In. split; [now apply Hlisted|].
      rewrite Hfile, andb_true_r. apply negb_true_iff, String.eqb_neq, Hname. }
    destruct (encrypt_each_fate passphrase gpg (files_to_encrypt (fs w) listing) w 0 0
                (files_to_encrypt_NoDup (fs w) listing Hnd) Hnc
                (files_to_encrypt_regular (fs w) listing) filename Hf) as [_ H2].
    rewrite Hrun in H2. cbn [snd] in H2. rewrite H2, Hfresh.
    unfold gpg_companion. destruct (gpg filename) as [rc [data|]|]; reflexivity.
  - pose proof (encrypt_each_other_paths passphrase gpg
                  (files_to_encrypt (fs w) listing) w 0 0 (filename +:+ ".gpg")) as H.
    rewrite Hrun in H. cbn [snd] in H. rewrite H; [exact Hfresh| |].
    + intros Hin. apply files_to_encrypt_regular in Hin.
      unfold is_file in Hin. now rewrite Hfresh in Hin.
    + intros f Hin Heq. apply companion_inj in Heq. subst f.
      apply files_to_encrypt_regular in Hin. congruence.
Qed.

(** In a directory that held no [.gpg] companion of an artifact before the
    encryption pass, the manifest of the encrypted backup is always
    produced, and its [databases] describe what [gpg] wrote: a source has an
    entry exactly when its dump was a regular file and its [gpg] run wrote
    an output, and the size and the checksum of the entry are those of that
    output, not of the plaintext. *)
Theorem encrypted_manifest_describes_what_gpg_wrote
    (w w' : world) (listing : list string) (passphrase : string)
    (gpg : string -> gpg_run) (encrypted_count failed_count : Z)
    (name backup_type : string) (base_backup previous_backup : option string)
    (clk : clock) :
  List.NoDup listing ->
  no_companion_among (files_to_encrypt (fs w) listing) ->
  (forall filename,
     In filename artifact_names -> is_Some (fs w !! filename) -> In filename listing) ->
  (forall filename,
     In filename artifact_names -> fs w !! (filename +:+ ".gpg") = None) ->
  encryption_pass w listing passphrase gpg = (encrypted_count, failed_count, w') ->
  exists m d',
    create_backup_manifest (BackupDir name (fs w') NoManifest) backup_type
      base_backup previous_backup clk true = Ok (m, d')
    /\ forall db filename,
         In (db, filename) db_files ->
         dict_get (manifest_databases m) db
         = if is_file (fs w) filename
           then match gpg filename with
                | GpgExit _ (Some data) =>
                    Some (PDict (expected_entry backup_type base_backup true db filename
                                   (Z.of_nat (length data)) (sha256_hexdigest data)))
                | _ => None
                end
           else None.
Proof.
  intros Hnd Hnc Hlisted Hfresh Hrun.
  assert (Hafter : forall filename,
             In filename artifact_names ->
             fs w' !! (filename +:+ ".gpg")
             = if is_file (fs w) filename
               then match gpg filename with
                    | GpgExit _ (Some data) => Some (RegularFile true data)
                    | _ => None
                    end
               else None).
  { intros filename Hin.
    apply (companion_after_pass w w' listing passphrase gpg encrypted_count
             failed_count filename Hnd Hnc); try assumption.
    - intros Hfile. apply Hlisted; [exact Hin|]. unfold is_file in Hfile.
      destruct (fs w !! filename); [eauto|discriminate].
    - now apply artifact_is_not_the_manifest.
    - now apply Hfresh. }
  destruct (create_backup_manifest_readable_artifacts
              (BackupDir name (fs w') NoManifest) backup_type base_backup
              previous_backup clk true) as (m & d' & Hm).
  { intros filename n Hin. cbn [dir_files stored_name]. rewrite (Hafter filename Hin).
    destruct (is_file (fs w) filename); [|discriminate].
    destruct (gpg filename) as [rc [data|]|]; try discriminate.
    now intros [= <-]. }
  exists m, d'. split; [exact Hm|].
  intros db filename Hin.
  apply create_backup_manifest_databases in Hm as [-> _].
  rewrite (built_entries_get _ _ _ _ db_files db filename db_files_names_distinct Hin).
  cbn [dir_files stored_name]. rewrite Hafter.
  - destruct (is_file (fs w) filename); [|reflexivity].
    destruct (gpg filename) as [rc [data|]|]; reflexivity.
  - unfold artifact_names. apply in_app_iff. left. apply in_map_iff.
    now exists (db, filename).
Qed.

Lemma encrypted_manifest_describes_what_gpg_wrote_witness :
  let w' := snd (encryption_pass before_encryption before_encryption_listing
                   "correct-horse" gpg_fails_on_mysql) in
  exists m d',
    create_backup_manifest (BackupDir "20251117_080000" (fs w') NoManifest) "full"
      None None noon true = Ok (m, d')
    /\ dict_get (manifest_databases m) "postgres"
       = Some (PDict (expected_entry "full" None true "postgres" "postgres_all.sql"
                        12 (sha256_hexdigest ciphertext)))
    /\ dict_get (manifest_databases m) "mysql" = None.
Proof.
  pose (run := encryption_pass before_encryption before_encryption_listing
                 "correct-horse" gpg_fails_on_mysql).
  change (encryption_pass before_encryption before_encryption_listing "correct-horse"
            gpg_fails_on_mysql) with run.
  intros w'.
  assert (Hnd : List.NoDup before_encryption_listing).
  { unfold before_encryption_listing.
    repeat (constructor; [cbn [In]; intuition discriminate|]). constructor. }
  assert (Hnc : no_companion_among
                  (files_to_encrypt (fs before_encryption) before_encryption_listing)).
  { intros f g Hf Hg. vm_compute in Hf, Hg.
    destruct Hf as [<-|[<-|[]]]; destruct Hg as [<-|[<-|[]]]; vm_compute; discriminate. }
  assert (Hrun : encryption_pass before_encryption before_encryption_listing
                   "correct-horse" gpg_fails_on_mysql
                 = (fst (fst run), snd (fst run), w'))
    by (subst w' run; now destruct (encryption_pass _ _ _ _) as [[? ?] ?]).
  destruct (encrypted_manifest_describes_what_gpg_wrote
              before_encryption w' before_encryption_listing "correct-horse"
              gpg_fails_on_mysql (fst (fst run)) (snd (fst run))
              "20251117_080000" "full" None None noon Hnd Hnc)
    as (m & d' & Hm & Hdbs); [| |exact Hrun|].
  - intros filename Hin [n Hn]. vm_compute in Hin.
    destruct Hin as [<-|[<-|[<-|[<-|[<-|[]]]]]]; vm_compute in Hn; try discriminate;
      vm_compute; tauto.
  - intros filename Hin. vm_compute in Hin.
    destruct Hin as [<-|[<-|[<-|[<-|[<-|[]]]]]]; vm_compute; reflexivity.
  - exists m, d'. split; [exact Hm|]. split.
    + rewrite (Hdbs "postgres" "postgres_all.sql") by (vm_compute; tauto).
      vm_compute. reflexivity.
    + rewrite (Hdbs "mysql" "mysql_all.sql") by (vm_compute; tauto).
      vm_compute. reflexivity.
Defined.

(** ** Passphrase store *)

Section PassphraseStore.

Lemma enter_passphrase_confirmed (n : nat) :
  forall (typed rest : list string) (p : string),
    (length typed <= n)%nat ->
    enter_passphrase typed = Done p rest ->
    exists skipped,
      typed = (skipped ++ p :: p :: rest)%list /\ (8 <= String.length p)%nat.
Proof.
  induction n as [|n IH]; intros typed rest p Hlen Hrun.
  - destruct typed; [discriminate|cbn in Hlen; lia].
  - destruct typed as [|p1 typed]; [discriminate|]. cbn [enter_passphrase] in Hrun.
    cbn [length] in Hlen.
    destruct (String.length p1 <? 8)%nat eqn:Hshort.
    + destruct (IH typed rest p ltac:(lia) Hrun) as (skipped & -> & Hp).
      exists (p1 :: skipped). split; [reflexivity|exact Hp].
    + destruct typed as [|p2 typed]; [discriminate|]. cbn [length] in Hlen.
      destruct (String.eqb p1 p2) eqn:Heq; cbn [negb] in Hrun.
      * injection Hrun as <- <-. apply String.eqb_eq in Heq. subst p2.
        exists []. split; [reflexivity|]. apply Nat.ltb_ge in Hshort. exact Hshort.
      * destruct (IH typed rest p ltac:(lia) Hrun) as (skipped & -> & Hp).
        exists (p1 :: p2 :: skipped). split; [reflexivity|exact Hp].
Qed.

(** A confirmed passphrase right away. *)
Lemma enter_passphrase_twice (p : string) (rest : list string) :
  (8 <= String.length p)%nat -> enter_passphrase (p :: p :: rest) = Done p rest.
Proof.
  intros Hp. cbn [enter_passphrase].
  replace (String.length p <? 8)%nat with false by (symmetry; apply Nat.ltb_ge, Hp).
  now rewrite String.eqb_refl.
Qed.

Lemma lstrip_blank (s : string) : all_chars isspace s = true -> lstrip s = "".
Proof.
  induction s as [|c s IH]; [reflexivity|]. cbn [all_chars lstrip].
  intros H. apply andb_prop in H as [-> H]. now apply IH.
Qed.

Lemma strip_blank (s : string) : all_chars isspace s = true -> strip s = "".
Proof. intros H. unfold strip. now rewrite lstrip_blank. Qed.

(** Saving the passphrase: the write and the [chmod]. *)
Lemma save_passphrase (c : config_dir) (p : string) :
  match write_text c "backup-passphrase" p with
  | Raise _ => True
  | Ok c1 =>
      exists c2,
        chmod c1 "backup-passphrase" 384 = Ok c2
        /\ config_files c2
           = <["backup-passphrase" := TextFile p 384]> (config_files c)
        /\ can_create c2 = can_create c
        /\ created_mode c2 = created_mode c
  end.
Proof.
  unfold write_text.
  destruct (config_files c !! "backup-passphrase") as [f|] eqn:Hf.
  - destruct (Z.testbit (mode_of f) 7); [|exact I].
    unfold chmod. cbn [config_files can_create created_mode].
    rewrite lookup_insert_eq. eexists. split; [reflexivity|].
    cbn [config_files can_create created_mode text_of].
    rewrite insert_insert_eq. auto.
  - destruct (can_create c); [|exact I].
    unfold chmod. cbn [config_files can_create created_mode].
    rewrite lookup_insert_eq. eexists. split; [reflexivity|].
    cbn [config_files can_create created_mode text_of].
    rewrite insert_insert_eq. auto.
Qed.

Lemma setup_backup_passphrase_Done (c c' : config_dir) (typed rest : list string)
    (ok : bool) :
  setup_backup_passphrase c typed = Done (ok, c') rest ->
  if ok then
    exists response skipped p,
      typed = (response :: skipped ++ p :: p :: rest)%list
      /\ lower (strip response) = "y"
      /\ (8 <= String.length p)%nat
      /\ config_files c' = <["backup-passphrase" := TextFile p 384]> (config_files c)
      /\ can_create c' = can_create c
      /\ created_mode c' = created_mode c
  else c' = c.
Proof.
  unfold setup_backup_passphrase. cbv zeta.
  destruct typed as [|response typed]; [discriminate|].
  destruct (String.eqb (lower (strip response)) "y") eqn:Hy; cbn [negb].
  - destruct (enter_passphrase typed) as [p typed'| |e] eqn:Henter; try discriminate.
    destruct (enter_passphrase_confirmed (length typed) typed typed' p (le_n _) Henter)
      as (skipped & -> & Hp).
    pose proof (save_passphrase c p) as Hsave.
    destruct (write_text c "backup-passphrase" p) as [c1|e].
    + destruct Hsave as (c2 & -> & Hfiles & Hcc & Hcm).
      intros [= <- <- <-]. exists response, skipped, p.
      apply String.eqb_eq in Hy. auto 10.
    + now intros [= <- <- <-].
  - now intros [= <- <- <-].
Qed.

End PassphraseStore.

(** When [setup_backup_passphrase] returns [True], the file
    [backup-passphrase] holds a passphrase of at least 8 characters that was
    typed twice in a row, after a first answer that is "y" or "Y" up to
    surrounding whitespace; its mode is [0o600]; every line up to the
    confirmation has been read and no other file has changed.  When it
    returns [False], nothing has changed. *)
Theorem setup_saves_only_a_confirmed_passphrase
    (c c' : config_dir) (typed rest : list string) (ok : bool) :
  setup_backup_passphrase c typed = Done (ok, c') rest ->
  (ok = true ->
     exists response skipped p,
       typed = (response :: skipped ++ p :: p :: rest)%list
       /\ (strip response = "y" \/ strip response = "Y")
       /\ (8 <= String.length p)%nat
       /\ config_files c' !! "backup-passphrase" = Some (TextFile p 384)
       /\ (forall q, q <> "backup-passphrase" ->
                     config_files c' !! q = config_files c !! q))
  /\ (ok = false -> c' = c).
Proof.
  intros Hrun. apply setup_backup_passphrase_Done in Hrun. split.
  - intros ->. destruct Hrun as (response & skipped & p & Ht & Hy & Hp & Hf & _).
    exists response, skipped, p. split; [exact Ht|]. split; [|split; [exact Hp|]].
    + destruct (strip response) as [|a [|b s]]; try discriminate.
      cbn [lower] in Hy. injection Hy as Hy.
      destruct a as [[] [] [] [] [] [] [] []]; vm_compute in Hy; try discriminate; auto.
    + rewrite Hf. split; [apply lookup_insert_eq|].
      intros q Hq. now apply lookup_insert_ne.
  - intros ->. exact Hrun.
Qed.

Lemma setup_saves_only_a_confirmed_passphrase_witness :
  exists c',
    setup_backup_passphrase fresh_config hesitant_user = Done (true, c') ["y"]
    /\ config_files c' !! "backup-passphrase" = Some (TextFile "correct-horse" 384).
Proof.
  pose (run := setup_backup_passphrase fresh_config hesitant_user).
  pose (c' := match run with Done (_, c') _ => c' | _ => fresh_config end).
  assert (Hrun : setup_backup_passphrase fresh_config hesitant_user
                 = Done (true, c') ["y"]) by (vm_compute; reflexivity).
  exists c'. split; [exact Hrun|].
  destruct (proj1 (setup_saves_only_a_confirmed_passphrase
                     fresh_config c' hesitant_user ["y"] true Hrun) eq_refl)
    as (response & skipped & p & Ht & _ & _ & Hf & _).
  rewrite Hf. f_equal. f_equal.
  unfold hesitant_user in Ht.
  injection Ht as _ Ht.
  destruct skipped as [|s1 [|s2 [|s3 [|s4 skipped]]]]; cbn [app] in Ht.
  - injection Ht as <- _ Habs. discriminate Habs.
  - injection Ht as _ <- Habs. discriminate Habs.
  - injection Ht as _ _ <- Habs. discriminate Habs.
  - now injection Ht as _ _ _ <-.
  - exfalso. apply (f_equal (@length string)) in Ht. cbn [length] in Ht.
    rewrite length_app in Ht. cbn [length] in Ht. lia.
Defined.

Lemma get_backup_passphrase_stored (c : config_dir) (text : string) :
  read_text c "backup-passphrase" = Ok text ->
  forall prompt_if_missing typed,
    get_backup_passphrase c prompt_if_missing typed = Done (Some (strip text), c) typed.
Proof.
  intros Hread prompt typed. unfold get_backup_passphrase. cbv zeta.
  assert (Hex : path_exists c "backup-passphrase" = true).
  { unfold read_text in Hread. unfold path_exists.
    now destruct (config_files c !! "backup-passphrase"). }
  now rewrite Hex, Hread.
Qed.

Lemma get_backup_passphrase_Some (c c' : config_dir) (prompt_if_missing : bool)
    (typed rest : list string) (p : string) :
  get_backup_passphrase c prompt_if_missing typed = Done (Some p, c') rest ->
  exists text,
    read_text c' "backup-passphrase" = Ok text /\ p = strip text
    /\ (path_exists c "backup-passphrase" = true -> c' = c /\ rest = typed).
Proof.
  unfold get_backup_passphrase. cbv zeta.
  destruct (path_exists c "backup-passphrase") eqn:Hex.
  - destruct (read_text c "backup-passphrase") as [text|e] eqn:Hread; [|discriminate].
    intros [= <- <- <-]. exists text. auto.
  - destruct prompt_if_missing; [|discriminate].
    destruct (setup_backup_passphrase c typed) as [[[|] c1] typed1| |e];
      try discriminate.
    destruct (read_text c1 "backup-passphrase") as [text|e] eqn:Hread; [|discriminate].
    intros [= <- <- <-]. exists text. split; [exact Hread|]. split; [reflexivity|].
    discriminate.
Qed.

(** A passphrase that [get_backup_passphrase] returns is the stripped text
    of the passphrase file as the call leaves it, and every later call
    returns the same passphrase without reading the terminal and without
    changing anything, whatever [prompt_if_missing]; a file that was there
    before the call is never replaced. *)
Theorem passphrase_once_stored_is_returned_again
    (c c' : config_dir) (prompt_if_missing : bool) (typed rest : list string)
    (p : string) :
  get_backup_passphrase c prompt_if_missing typed = Done (Some p, c') rest ->
  (forall prompt_again typed_later,
     get_backup_passphrase c' prompt_again typed_later = Done (Some p, c') typed_later)
  /\ (path_exists c "backup-passphrase" = true -> c' = c /\ rest = typed)
  /\ (prompt_if_missing = false -> c' = c /\ rest = typed).
Proof.
  intros Hrun.
  destruct (get_backup_passphrase_Some c c' prompt_if_missing typed rest p Hrun)
    as (text & Hread & -> & Hkept).
  split; [|split].
  - intros prompt typed2. now apply get_backup_passphrase_stored.
  - exact Hkept.
  - intros ->. apply Hkept. revert Hrun. unfold get_backup_passphrase. cbv zeta.
    now destruct (path_exists c "backup-passphrase").
Qed.

Lemma passphrase_once_stored_is_returned_again_witness :
  exists c',
    get_backup_passphrase fresh_config true hesitant_user
    = Done (Some "correct-horse", c') ["y"]
    /\ get_backup_passphrase c' false [] = Done (Some "correct-horse", c') [].
Proof.
  pose (run := get_backup_passphrase fresh_config true hesitant_user).
  pose (c' := match run with Done (_, c') _ => c' | _ => fresh_config end).
  assert (Hrun : get_backup_passphrase fresh_config true hesitant_user
                 = Done (Some "correct-horse", c') ["y"]) by (vm_compute; reflexivity).
  exists c'. split; [exact Hrun|].
  apply (proj1 (passphrase_once_stored_is_returned_again
                  fresh_config c' true hesitant_user ["y"] "correct-horse" Hrun)).
Defined.

(** ** Backup orchestrator: the passphrase of the encryption step *)

(** The [if encrypt:] block of the [backup] command leaves the backup
    directory alone and runs no command when it ends with [encrypt] false;
    when it ends with [encrypt] true, encryption was asked for, the pass ran
    with a passphrase that is not empty and is the stripped text of the
    passphrase file, and that same passphrase is what
    [get_backup_passphrase] returns afterwards, as the [restore] command
    asks for it. *)
Theorem backup_encrypts_with_the_stored_passphrase
    (encrypt encrypt' : bool) (c c' : config_dir) (typed rest : list string)
    (w w' : world) (listing : list string) (gpg : string -> gpg_run) :
  encryption_step encrypt c typed w listing gpg = Done (encrypt', c', w') rest ->
  (encrypt' = false -> w' = w)
  /\ (encrypt' = true ->
        encrypt = true
        /\ exists p,
             p <> ""
             /\ w' = snd (encryption_pass w listing p gpg)
             /\ (forall prompt typed_later,
                   get_backup_passphrase c' prompt typed_later
                   = Done (Some p, c') typed_later)).
Proof.
  unfold encryption_step. destruct encrypt.
  - destruct (get_backup_passphrase c true typed) as [[[p|] c1] typed1| |e] eqn:Hget;
      try discriminate.
    + cbn [opt_str truthy].
      destruct (negb (String.eqb p "")) eqn:Hne; cbn [negb].
      * destruct (encryption_pass w listing p gpg) as [[ec fc] w1] eqn:Hpass.
        intros [= <- <- <- <-]. split; [discriminate|]. intros _.
        split; [reflexivity|]. exists p.
        split; [now apply String.eqb_neq, negb_true_iff|].
        split; [now rewrite Hpass|].
        destruct (get_backup_passphrase_Some c c1 true typed typed1 p Hget)
          as (text & Hread & -> & _).
        intros prompt typed2. now apply get_backup_passphrase_stored.
      * intros [= <- <- <- <-]. split; [reflexivity|discriminate].
    + cbn [opt_str truthy negb]. intros [= <- <- <- <-].
      split; [reflexivity|discriminate].
  - intros [= <- <- <- <-]. split; [reflexivity|discriminate].
Qed.

Lemma backup_encrypts_with_the_stored_passphrase_witness :
  exists c' w',
    encryption_step true fresh_config hesitant_user before_encryption
      before_encryption_listing gpg_fails_on_mysql = Done (true, c', w') ["y"]
    /\ w' = snd (encryption_pass before_encryption before_encryption_listing
                   "correct-horse" gpg_fails_on_mysql)
    /\ get_backup_passphrase c' true [] = Done (Some "correct-horse", c') [].
Proof.
  pose (run := encryption_step true fresh_config hesitant_user before_encryption
                 before_encryption_listing gpg_fails_on_mysql).
  pose (c' := match run with Done (_, c', _) _ => c' | _ => fresh_config end).
  pose (w' := match run with Done (_, _, w') _ => w' | _ => before_encryption end).
  assert (Hrun : encryption_step true fresh_config hesitant_user before_encryption
                   before_encryption_listing gpg_fails_on_mysql
                 = Done (true, c', w') ["y"]) by (vm_compute; reflexivity).
  exists c', w'. split; [exact Hrun|].
  destruct (proj2 (backup_encrypts_with_the_stored_passphrase
                     true true fresh_config c' hesitant_user ["y"] before_encryption w'
                     before_encryption_listing gpg_fails_on_mysql Hrun) eq_refl)
    as (_ & p & _ & Hw & Hagain).
  assert (Hp : get_backup_passphrase c' true [] = Done (Some "correct-horse", c') [])
    by (vm_compute; reflexivity).
  rewrite Hagain in Hp. injection Hp as ->.
  split; [exact Hw|apply Hagain].
Defined.

(** A passphrase of eight or more whitespace characters passes the checks
    of [setup_backup_passphrase] and is saved, but is read back stripped,
    as the empty string: the backup that asked for encryption goes on
    unencrypted, with [encrypt] false for its manifest and no [gpg] run, and
    so does every later backup, without a new prompt. *)
Theorem blank_passphrase_cancels_encryption
    (c : config_dir) (p : string) (rest : list string)
    (w : world) (listing : list string) (gpg : string -> gpg_run) :
  path_exists c "backup-passphrase" = false ->
  can_create c = true ->
  (8 <= String.length p)%nat ->
  all_chars isspace p = true ->
  exists c',
    encryption_step true c ("y" :: p :: p :: rest) w listing gpg
    = Done (false, c', w) rest
    /\ config_files c' !! "backup-passphrase" = Some (TextFile p 384)
    /\ forall typed_later w_later listing_later gpg_later,
         encryption_step true c' typed_later w_later listing_later gpg_later
         = Done (false, c', w_later) typed_later.
Proof.
  intros Hnone Hcreate Hlen Hblank.
  assert (Hlook : config_files c !! "backup-passphrase" = None).
  { unfold path_exists in Hnone.
    now destruct (config_files c !! "backup-passphrase"). }
  set (c' := ConfigDir (<["backup-passphrase" := TextFile p 384]> (config_files c))
                       true (created_mode c)).
  assert (Hread : read_text c' "backup-passphrase" = Ok p).
  { unfold read_text, c'. cbn [config_files]. rewrite lookup_insert_eq. reflexivity. }
  assert (Hsetup : setup_backup_passphrase c ("y" :: p :: p :: rest)
                   = Done (true, c') rest).
  { unfold setup_backup_passphrase. cbv zeta.
    change (lower (strip "y")) with "y". cbn [String.eqb Ascii.eqb Bool.eqb negb].
    rewrite (enter_passphrase_twice p rest Hlen).
    unfold write_text. rewrite Hlook, Hcreate.
    unfold chmod. cbn [config_files can_create created_mode text_of].
    rewrite lookup_insert_eq. cbn [text_of]. rewrite insert_insert_eq. reflexivity. }
  assert (Hlater : forall typed2 w2 listing2 gpg2,
             encryption_step true c' typed2 w2 listing2 gpg2 = Done (false, c', w2) typed2).
  { intros typed2 w2 listing2 gpg2. unfold encryption_step.
    rewrite (get_backup_passphrase_stored c' p Hread true typed2).
    rewrite (strip_blank p Hblank). reflexivity. }
  exists c'. split; [|split; [|exact Hlater]].
  - unfold encryption_step, get_backup_passphrase. cbv zeta.
    rewrite Hnone, Hsetup, Hread, (strip_blank p Hblank). reflexivity.
  - unfold c'. cbn [config_files]. apply lookup_insert_eq.
Qed.

Lemma blank_passphrase_cancels_encryption_witness :
  exists c',
    encryption_step true fresh_config ["y"; blank_passphrase; blank_passphrase]
      before_encryption before_encryption_listing gpg_fails_on_mysql
    = Done (false, c', before_encryption) []
    /\ config_files c' !! "backup-passphrase" = Some (TextFile blank_passphrase 384).
Proof.
  destruct (blank_passphrase_cancels_encryption fresh_config blank_passphrase []
              before_encryption before_encryption_listing gpg_fails_on_mysql)
    as (c' & Hrun & Hfile & _).
  - reflexivity.
  - reflexivity.
  - vm_compute. lia.
  - reflexivity.
  - exists c'. split; [exact Hrun|exact Hfile].
Defined.

(** ** Vault secrets *)

Section VaultSecrets.

Variable c : config_dir.
Variable os : machine.

Lemma app_one_ne {A : Type} (l : list A) (x : A) : (l ++ [x])%list <> l.
Proof.
  intros H. apply (f_equal (@length A)) in H. rewrite length_app in H.
  cbn [length] in H. lia.
Qed.

Lemma read_text_exists (path text : string) :
  read_text c path = Ok text -> path_exists c path = true.
Proof.
  unfold read_text, path_exists. now destruct (config_files c !! path).
Qed.

Lemma read_text_missing (path : string) :
  path_exists c path = false -> exists e, read_text c path = Raise e.
Proof.
  unfold read_text, path_exists. destruct (config_files c !! path); [discriminate|].
  eauto.
Qed.

Lemma run_command_captured (ran : log) (cmd : list string) :
  run_command os ran cmd false true = (captured os ran cmd, (ran ++ [cmd])%list).
Proof.
  unfold run_command, captured. now destruct (os ran cmd).
Qed.

Lemma get_vault_approle_token_eq (ran : log) :
  get_vault_approle_token c os ran "management"
  = match approle_credentials c with
    | None => (Value None, ran)
    | Some (role_id, secret_id) =>
        (match os ran (login_args role_id secret_id) with
         | Exited returncode token _ =>
             if Z.eqb returncode 0 && negb (String.eqb token "")
             then Value (Some (strip token)) else Value None
         | NotFound => SystemExit 1
         | StartFailed _ => Value None
         end,
         (ran ++ [login_args role_id secret_id])%list)
    end.
Proof.
  unfold get_vault_approle_token, approle_credentials. cbv zeta.
  change (("approles/" +:+ "management") +:+ "/role-id")
    with "approles/management/role-id".
  change (("approles/" +:+ "management") +:+ "/secret-id")
    with "approles/management/secret-id".
  destruct (path_exists c "approles/management/role-id") eqn:Hr; cbn [negb orb].
  - destruct (path_exists c "approles/management/secret-id") eqn:Hs; cbn [negb].
    + destruct (read_text c "approles/management/role-id") as [role|e]; [|reflexivity].
      destruct (read_text c "approles/management/secret-id") as [secret|e];
        [|reflexivity].
      rewrite run_command_captured. unfold captured.
      destruct (os ran (login_args (strip role) (strip secret))) as [rc out err| |e];
        try reflexivity.
      cbn [truthy]. now destruct (Z.eqb rc 0 && negb (String.eqb out "")).
    + destruct (read_text_missing _ Hs) as [e ->].
      now destruct (read_text c "approles/management/role-id").
  - destruct (read_text_missing _ Hr) as [e ->]. reflexivity.
Qed.

Lemma root_token_secret_eq (ran : log) (path field : string) :
  root_token_secret c os ran path field
  = match read_text c "root-token" with
    | Raise e =>
        (if path_exists c "root-token" then Exception e else Value None, ran)
    | Ok text =>
        if String.eqb (strip text) "" then (Value None, ran)
        else
          (match os ran (kv_get_args (strip text) field path) with
           | Exited returncode value _ =>
               if Z.eqb returncode 0 && negb (String.eqb value "")
               then Value (Some (strip value)) else Value None
           | NotFound => SystemExit 1
           | StartFailed e => Exception e
           end,
           (ran ++ [kv_get_args (strip text) field path])%list)
    end.
Proof.
  unfold root_token_secret, get_vault_token. cbv zeta.
  destruct (read_text c "root-token") as [text|e] eqn:Hread.
  - rewrite (read_text_exists _ _ Hread). cbn [negb opt_str truthy].
    destruct (String.eqb (strip text) ""); cbn [negb]; [reflexivity|].
    rewrite run_command_captured. unfold captured.
    destruct (os ran (kv_get_args (strip text) field path)) as [rc out err| |e];
      try reflexivity.
    cbn [truthy]. now destruct (Z.eqb rc 0 && negb (String.eqb out "")).
  - now destruct (path_exists c "root-token").
Qed.

(** A secret from the root token. *)
Lemma root_token_secret_Some (ran ran' : log) (path field v : string) :
  root_token_secret c os ran path field = (Value (Some v), ran') ->
  exists text out err,
    read_text c "root-token" = Ok text
    /\ strip text <> ""
    /\ ran' = (ran ++ [kv_get_args (strip text) field path])%list
    /\ os ran (kv_get_args (strip text) field path) = Exited 0 out err
    /\ out <> "" /\ v = strip out.
Proof.
  rewrite root_token_secret_eq.
  destruct (read_text c "root-token") as [text|e].
  - destruct (String.eqb (strip text) "") eqn:Ht; [discriminate|].
    destruct (os ran (kv_get_args (strip text) field path)) as [rc out err| |e] eqn:Hos;
      try discriminate.
    destruct (Z.eqb rc 0) eqn:Hrc; cbn [andb]; [|discriminate].
    destruct (String.eqb out "") eqn:Hout; cbn [negb]; [discriminate|].
    intros [= <- <-]. apply Z.eqb_eq in Hrc. subst rc.
    exists text, out, err. apply String.eqb_neq in Ht, Hout. auto 10.
  - destruct (path_exists c "root-token"); discriminate.
Qed.

Lemma root_token_secret_log (ran : log) (path field : string) :
  snd (root_token_secret c os ran path field)
  = match usable_root_token c with
    | Some token => (ran ++ [kv_get_args token field path])%list
    | None => ran
    end.
Proof.
  rewrite root_token_secret_eq. unfold usable_root_token.
  destruct (read_text c "root-token") as [text|e]; [|reflexivity].
  now destruct (String.eqb (strip text) "").
Qed.

Lemma root_token_secret_grows (ran : log) (path field : string) :
  (length ran <= length (snd (root_token_secret c os ran path field)))%nat.
Proof.
  rewrite root_token_secret_log. destruct (usable_root_token c); cbv beta iota; [|lia].
  rewrite length_app. lia.
Qed.

(** With AppRole credentials at hand a command is run. *)
Lemma get_vault_secret_tries_approle (ran : log) (path field : string)
    (role_id secret_id : string) :
  approle_credentials c = Some (role_id, secret_id) ->
  (length ran < length (snd (get_vault_secret c os ran path field true)))%nat.
Proof.
  intros Hcred. unfold get_vault_secret.
  rewrite get_vault_approle_token_eq, Hcred.
  assert (Hroot : forall cmds,
             (length (ran ++ cmds)
              <= length (snd (root_token_secret c os (ran ++ cmds)%list path field)))%nat)
    by (intros cmds; apply root_token_secret_grows).
  assert (Hone := Hroot [login_args role_id secret_id]).
  rewrite length_app in Hone. cbn [length] in Hone.
  destruct (os ran (login_args role_id secret_id)) as [rc lout lerr| |e];
    cbn [opt_str truthy snd]; try (rewrite length_app; cbn [length]; lia);
    try lia.
  destruct (Z.eqb rc 0 && negb (String.eqb lout "")); cbn [opt_str truthy]; [|lia].
  destruct (negb (String.eqb (strip lout) "")); [|lia].
  rewrite run_command_captured. unfold captured.
  assert (Htwo := Hroot [login_args role_id secret_id;
                         kv_get_args (strip lout) field path]).
  rewrite length_app in Htwo. cbn [length] in Htwo.
  change (ran ++ [login_args role_id secret_id;
                  kv_get_args (strip lout) field path])%list
    with (ran ++ [login_args role_id secret_id]
              ++ [kv_get_args (strip lout) field path])%list in Htwo.
  rewrite app_assoc in Htwo.
  destruct (os _ (kv_get_args (strip lout) field path)) as [rc2 out err| |e];
    cbn [snd]; try (rewrite !length_app; cbn [length]; lia).
  destruct (Z.eqb rc2 0 && negb (String.eqb out "")); cbn [snd];
    [rewrite !length_app; cbn [length]; lia|lia].
Qed.

End VaultSecrets.

(** A secret that [get_vault_secret] returns is the stripped output of a
    [vault kv get] that exited with code 0 and printed something; that
    command is the last one run, at most the third; its token is not empty
    and is either the stripped text of the root-token file, or, when
    AppRole was asked for, the stripped output of an AppRole login that
    exited with code 0 on the credentials of the management service. *)
Theorem vault_secret_comes_from_a_successful_kv_get
    (c : config_dir) (os : machine) (ran ran' : log) (path field : string)
    (use_approle : bool) (v : string) :
  get_vault_secret c os ran path field use_approle = (Value (Some v), ran') ->
  exists token before out err,
    ran' = (before ++ [kv_get_args token field path])%list
    /\ os before (kv_get_args token field path) = Exited 0 out err
    /\ out <> "" /\ v = strip out /\ token <> ""
    /\ (length ran' <= length ran + 3)%nat
    /\ ((exists text, read_text c "root-token" = Ok text /\ token = strip text)
        \/ (use_approle = true
            /\ exists role_id secret_id login_out login_err,
                 approle_credentials c = Some (role_id, secret_id)
                 /\ os ran (login_args role_id secret_id)
                    = Exited 0 login_out login_err
                 /\ token = strip login_out
                 /\ before = (ran ++ [login_args role_id secret_id])%list)).
Proof.
  assert (Hroot : forall ran0,
             (length ran0 <= length ran + 2)%nat ->
             root_token_secret c os ran0 path field = (Value (Some v), ran') ->
             exists token before out err,
               ran' = (before ++ [kv_get_args token field path])%list
               /\ os before (kv_get_args token field path) = Exited 0 out err
               /\ out <> "" /\ v = strip out /\ token <> ""
               /\ (length ran' <= length ran + 3)%nat
               /\ ((exists text, read_text c "root-token" = Ok text /\ token = strip text)
                   \/ (use_approle = true
                       /\ exists role_id secret_id login_out login_err,
                            approle_credentials c = Some (role_id, secret_id)
                            /\ os ran (login_args role_id secret_id)
                               = Exited 0 login_out login_err
                            /\ token = strip login_out
                            /\ before = (ran ++ [login_args role_id secret_id])%list))).
  { intros ran0 Hlen Hrun.
    apply root_token_secret_Some in Hrun
      as (text & out & err & Hread & Hne & -> & Hos & Hout & ->).
    exists (strip text), ran0, out, err. repeat (split; [assumption || reflexivity|]).
    split; [rewrite length_app; cbn [length]; lia|].
    left. now exists text. }
  unfold get_vault_secret. destruct use_approle.
  - rewrite get_vault_approle_token_eq.
    destruct (approle_credentials c) as [[role_id secret_id]|] eqn:Hcred.
    + destruct (os ran (login_args role_id secret_id)) as [rc lout lerr| |e] eqn:Hlogin;
        try discriminate.
      * destruct (Z.eqb rc 0) eqn:Hrc; cbn [andb].
        -- destruct (String.eqb lout "") eqn:Hlout; cbn [negb].
           ++ cbn [opt_str truthy]. apply Hroot. rewrite length_app. cbn [length]. lia.
           ++ cbn [opt_str truthy].
              destruct (String.eqb (strip lout) "") eqn:Htok; cbn [negb].
              ** apply Hroot. rewrite length_app. cbn [length]. lia.
              ** rewrite run_command_captured. unfold captured.
                 destruct (os (ran ++ [login_args role_id secret_id])%list
                             (kv_get_args (strip lout) field path))
                   as [rc2 out err| |e] eqn:Hkv; try discriminate.
                 destruct (Z.eqb rc2 0) eqn:Hrc2; cbn [andb].
                 --- cbn [truthy].
                     destruct (String.eqb out "") eqn:Hout; cbn [negb].
                     +++ apply Hroot. rewrite !length_app. cbn [length]. lia.
                     +++ intros [= <- <-]. apply Z.eqb_eq in Hrc, Hrc2. subst rc rc2.
                         apply String.eqb_neq in Htok, Hout.
                         exists (strip lout), (ran ++ [login_args role_id secret_id])%list,
                           out, err.
                         repeat (split; [assumption || reflexivity|]).
                         split; [rewrite !length_app; cbn [length]; lia|].
                         right. split; [reflexivity|].
                         exists role_id, secret_id, lout, lerr. auto.
                 --- apply Hroot. rewrite !length_app. cbn [length]. lia.
        -- cbn [opt_str truthy]. apply Hroot. rewrite length_app. cbn [length]. lia.
      * cbn [opt_str truthy]. apply Hroot. rewrite length_app. cbn [length]. lia.
    + cbn [opt_str truthy]. apply Hroot. lia.
  - apply Hroot. lia.
Qed.

Lemma vault_secret_comes_from_a_successful_kv_get_witness :
  exists ran',
    get_vault_secret both_credentials login_rejected [] "secret/postgres" "password" true
    = (Value (Some "s3cret"), ran')
    /\ last ran' = Some (kv_get_args "hvs.root" "password" "secret/postgres").
Proof.
  pose (run := get_vault_secret both_credentials login_rejected [] "secret/postgres"
                 "password" true).
  assert (Hrun : get_vault_secret both_credentials login_rejected [] "secret/postgres"
                   "password" true = (Value (Some "s3cret"), snd run))
    by (vm_compute; reflexivity).
  exists (snd run). split; [exact Hrun|].
  destruct (vault_secret_comes_from_a_successful_kv_get
              both_credentials login_rejected [] (snd run) "secret/postgres" "password"
              true "s3cret" Hrun)
    as (token & before & out & err & Hran & _ & _ & _ & _ & _ & Htoken).
  rewrite Hran, last_snoc. f_equal. f_equal.
  destruct Htoken as [(text & Hread & ->)|(_ & r & s & lo & le & _ & Hlogin & _)].
  - vm_compute in Hread. now injection Hread as <-.
  - vm_compute in Hlogin. discriminate Hlogin.
Defined.

(** [get_vault_secret] runs no command exactly when it has no credential to
    try: AppRole was not asked for or the credentials of the management
    service cannot both be read, and the root token is missing, unreadable
    or blank.  It then returns [None], unless the root-token file is there
    and cannot be read: that exception is not caught. *)
Theorem vault_secret_runs_nothing_exactly_without_credentials
    (c : config_dir) (os : machine) (ran : log) (path field : string)
    (use_approle : bool) :
  (snd (get_vault_secret c os ran path field use_approle) = ran
   <-> (use_approle = false \/ approle_credentials c = None)
       /\ usable_root_token c = None)
  /\ (snd (get_vault_secret c os ran path field use_approle) = ran ->
      fst (get_vault_secret c os ran path field use_approle)
      = match read_text c "root-token" with
        | Raise e => if path_exists c "root-token" then Exception e else Value None
        | Ok _ => Value None
        end).
Proof.
  assert (Hroot : (snd (root_token_secret c os ran path field) = ran
                   <-> usable_root_token c = None)
                  /\ (snd (root_token_secret c os ran path field) = ran ->
                      fst (root_token_secret c os ran path field)
                      = match read_text c "root-token" with
                        | Raise e =>
                            if path_exists c "root-token" then Exception e
                            else Value None
                        | Ok _ => Value None
                        end)).
  { split.
    - rewrite root_token_secret_log. destruct (usable_root_token c).
      + split; [intros H; now apply app_one_ne in H|discriminate].
      + tauto.
    - rewrite root_token_secret_eq.
      destruct (read_text c "root-token") as [text|e]; [|reflexivity].
      destruct (String.eqb (strip text) ""); [reflexivity|].
      cbn [snd]. intros H. now apply app_one_ne in H. }
  destruct use_approle.
  - destruct (approle_credentials c) as [[role_id secret_id]|] eqn:Hcred.
    + pose proof (get_vault_secret_tries_approle c os ran path field
                    role_id secret_id Hcred) as Hlen.
      split.
      * split; [intros H; rewrite H in Hlen; lia|].
        intros [[H|H] _]; discriminate.
      * intros H. rewrite H in Hlen. lia.
    + unfold get_vault_secret. rewrite get_vault_approle_token_eq, Hcred.
      cbn [opt_str truthy]. destruct Hroot as [Hiff Hres]. split; [|exact Hres].
      rewrite Hiff. tauto.
  - unfold get_vault_secret. destruct Hroot as [Hiff Hres]. split; [|exact Hres].
    rewrite Hiff. tauto.
Qed.

Lemma vault_secret_runs_nothing_exactly_without_credentials_witness :
  get_vault_secret fresh_config login_rejected [] "secret/postgres" "password" true
  = (Value None, []).
Proof.
  destruct (vault_secret_runs_nothing_exactly_without_credentials
              fresh_config login_rejected [] "secret/postgres" "password" true)
    as [Hlog Hres].
  assert (Hnone : snd (get_vault_secret fresh_config login_rejected []
                         "secret/postgres" "password" true) = []).
  { apply Hlog. split; [right; reflexivity|reflexivity]. }
  specialize (Hres Hnone).
  destruct (get_vault_secret fresh_config login_rejected [] "secret/postgres"
              "password" true) as [result ran'].
  cbn [fst snd] in Hres, Hnone. subst ran'. rewrite Hres. reflexivity.
Defined.

(** ** The checksums of a manifest *)

(** C7.  In every manifest that [create_backup_manifest] returns, each
    source whose stored file is in the directory (the [.gpg] file of an
    encrypted backup, whatever plaintext lies beside it) has an entry, the
    sources without a stored file have none, and so for the config file.
    Each entry names the stored file and records as its checksum the string
    [sha256:] followed by the SHA-256 digest of the bytes of that stored
    file, which is 64 lowercase hexadecimal characters.
    [verify_backup_integrity], a function of the directory alone (it takes
    no passphrase and runs no [gpg]), recomputes these digests from the
    stored files: on the directory so written, encrypted or not, it reports
    success with one verified file per stored artifact, and as soon as the
    bytes under one of the stored names have another digest it reports
    failure. *)
Theorem manifest_checksums_cover_stored_bytes
    (d d' : backup_dir) (backup_type : string)
    (base_backup previous_backup : option string) (clk : clock) (encrypted : bool)
    (m : dict) :
  create_backup_manifest d backup_type base_backup previous_backup clk encrypted
    = Ok (m, d') ->
  (forall db filename,
     In (db, filename) db_files ->
     match dir_files d !! stored_name encrypted filename with
     | Some n =>
         exists data e,
           n = RegularFile true data
           /\ dict_get (manifest_databases m) db = Some e
           /\ py_get e "file" PNone = Ok (PStr (stored_name encrypted filename))
           /\ py_get e "checksum" PNone
              = Ok (PStr ("sha256:" +:+ sha256_hexdigest data))
     | None => dict_get (manifest_databases m) db = None
     end)
  /\ (forall db e, In (db, e) (manifest_databases m) ->
      exists filename data,
        In (db, filename) db_files
        /\ dir_files d !! stored_name encrypted filename = Some (RegularFile true data)
        /\ py_get e "file" PNone = Ok (PStr (stored_name encrypted filename))
        /\ py_get e "checksum" PNone
           = Ok (PStr ("sha256:" +:+ sha256_hexdigest data)))
  /\ match dir_files d !! stored_name encrypted ".env.backup" with
     | Some n =>
         exists data,
           n = RegularFile true data
           /\ dict_get (manifest_config m) "env_file"
              = Some (PStr (stored_name encrypted ".env.backup"))
           /\ dict_get (manifest_config m) "checksum"
              = Some (PStr ("sha256:" +:+ sha256_hexdigest data))
     | None => manifest_config m = []
     end
  /\ (forall data,
        String.length (sha256_hexdigest data) = 64%nat
        /\ all_chars is_lower_hex (sha256_hexdigest data) = true)
  /\ (exists r,
        verify_backup_integrity d' = Ok (true, r)
        /\ files_failed r = 0
        /\ files_verified r = files_total r
        /\ files_verified r = Z.of_nat (length (present_artifacts d encrypted)))
  /\ (forall files stored,
        In stored (present_artifacts d encrypted) ->
        (forall data,
           files !! stored = Some (RegularFile true data) ->
           sha256_hexdigest data <> recorded_digest d stored) ->
        exists r,
          verify_backup_integrity
            (BackupDir (dir_name d) files (ManifestJson (PDict m)))
          = Ok (false, r)).
Proof.
  intros Hrun.
  pose proof (create_backup_manifest_databases _ _ _ _ _ _ _ _ Hrun) as [Hbuilt Hread].
  pose proof (create_backup_manifest_Ok _ _ _ _ _ _ _ _ Hrun)
    as (Hd' & _ & dbs & cfg & total & (Hdbs & Hcfg & Htot) & _ & Hin & _ & Hconf).
  split; [|split; [|split; [|split; [|split]]]].
  - intros db filename Hfile. rewrite Hbuilt.
    rewrite (built_entries_get d backup_type base_backup encrypted db_files db filename
               db_files_names_distinct Hfile).
    destruct (dir_files d !! stored_name encrypted filename) as [n|] eqn:Hn;
      [|reflexivity].
    assert (Hgood : readable_file n = true).
    { apply (Hread filename n); [|exact Hn]. unfold artifact_names.
      apply in_app_iff. left. apply in_map_iff. now exists (db, filename). }
    destruct n as [[|] data|sz]; try discriminate.
    exists data. eexists. split; [reflexivity|]. split; [reflexivity|].
    destruct (expected_entry_describes d backup_type base_backup encrypted db filename
                data Hn) as (items & data' & [= <-] & Hname & Hdata & _ & Hchk).
    rewrite Hn in Hdata. injection Hdata as <-.
    cbn [py_get]. now rewrite Hname, Hchk.
  - unfold manifest_databases. rewrite Hdbs. intros db e He.
    destruct (Hin db e He)
      as (filename & Hfile & items & data & -> & Hname & Hdata & _ & Hchk).
    exists filename, data. cbn [py_get]. rewrite Hname, Hchk. auto.
  - unfold manifest_config. rewrite Hcfg.
    destruct Hconf as [[-> Hnone]|[_ Hdesc]]; [now rewrite Hnone|].
    destruct Hdesc as (items & data & [= <-] & Hname & Hdata & _ & Hchk).
    rewrite Hdata. exists data. auto.
  - apply sha256_hexdigest_format.
  - destruct (verify_against_later_files _ _ _ _ _ _ _ _ (dir_files d) Hrun)
      as (r & Hver & Hdet & Htotal & Hv & Hf).
    assert (Hnil : List.filter not_ok (details r) = []).
    { apply filter_not_ok_nil. intros dt Hdt. rewrite Hdet in Hdt.
      apply in_map_iff in Hdt as (stored & <- & Hstored). apply recheck_ok.
      destruct (present_artifacts_readable _ _ _ _ _ _ _ _ stored Hrun Hstored)
        as (data & Hdata & Hdigest).
      exists data. split; [exact Hdata|now symmetry]. }
    pose proof (filter_ok_partition (details r)) as Hpart.
    rewrite Hnil in Hf, Hpart. cbn [length] in Hf, Hpart.
    assert (Hlen : length (details r) = length (present_artifacts d encrypted))
      by (rewrite Hdet; apply length_map).
    assert (Hs : success_of r = true) by (apply success_of_true; lia).
    exists r. rewrite Hd'. unfold write_manifest. rewrite Hver, Hs.
    split; [reflexivity|]. split; [lia|]. split; lia.
  - intros files stored Hstored Hbad.
    destruct (verify_against_later_files _ _ _ _ _ _ _ _ files Hrun)
      as (r & Hver & Hdet & Htotal & Hv & Hf).
    exists r. rewrite Hver. f_equal. f_equal.
    destruct (success_of r) eqn:Hs; [|reflexivity]. exfalso.
    apply success_of_true in Hs as [Hfail _].
    assert (Hnil : List.filter not_ok (details r) = []).
    { destruct (List.filter not_ok (details r)); [reflexivity|]. cbn in Hf. lia. }
    pose proof (proj1 (filter_not_ok_nil _) Hnil
                  (recheck files (recorded_digest d stored) stored)) as Hok.
    apply recheck_ok in Hok as (data & Hdata & Hdigest).
    + exact (Hbad data Hdata Hdigest).
    + rewrite Hdet. apply in_map_iff. now exists stored.
Qed.

Lemma manifest_checksums_cover_stored_bytes_witness :
  exists m d' e r,
    create_backup_manifest half_encrypted "full" None None noon true = Ok (m, d')
    /\ dict_get (manifest_databases m) "postgres" = Some e
    /\ py_get e "file" PNone = Ok (PStr "postgres_all.sql.gpg")
    /\ py_get e "checksum" PNone
       = Ok (PStr ("sha256:" +:+ sha256_hexdigest ciphertext))
    /\ verify_backup_integrity d' = Ok (true, r)
    /\ files_verified r = 1.
Proof.
  pose (run := create_backup_manifest half_encrypted "full" None None noon true).
  pose (m := match run with Ok (m, _) => m | Raise _ => [] end).
  pose (d' := match run with Ok (_, d') => d' | Raise _ => half_encrypted end).
  assert (Hrun : create_backup_manifest half_encrypted "full" None None noon true
                 = Ok (m, d')) by (vm_compute; reflexivity).
  destruct (manifest_checksums_cover_stored_bytes
              half_encrypted d' "full" None None noon true m Hrun)
    as (Hentry & _ & _ & _ & (r & Hver & _ & _ & Hcount) & _).
  specialize (Hentry "postgres" "postgres_all.sql" (or_introl eq_refl)).
  assert (Hstored : dir_files half_encrypted !! stored_name true "postgres_all.sql"
                    = Some (RegularFile true ciphertext)) by (vm_compute; reflexivity).
  rewrite Hstored in Hentry.
  destruct Hentry as (data & e & [= <-] & Hget & Hfile & Hchk).
  exists m, d', e, r.
  split; [exact Hrun|]. split; [exact Hget|]. split; [exact Hfile|].
  split; [exact Hchk|]. split; [exact Hver|].
  rewrite Hcount. vm_compute. reflexivity.
Defined.
